(** * youtubestrategy: scoring, filtering, aggregation and export routines

    A shallow embedding of the data-shaping code of the dashboard
    ([utils.ts], [services/youtubeService.ts], [views/ChannelAnalysis.tsx],
    [views/KeywordAnalysis.tsx]) and the properties its specification
    states about it.

    Conventions of the embedding.
    - A JavaScript string is a [string] of bytes (the UTF-8 form of the
      text).  Every delimiter the code looks at (digits, the letters of a
      duration, comma, quote, line feed) is ASCII, so the operations agree
      with the ones on UTF-16 code units.
    - An integer-valued JavaScript number is a [Z]; a fractional one is a
      [Q].  The numbers of the program are doubles: below 2^53 in size
      every integer is one, and the statements that give the value of a
      number that was parsed, added or written out stay in this range
      ([safe]); where a sum may leave it, it is rounded ([Double]).
      Quotients are exact rationals.  A value that may be [NaN] (the result
      of [parseInt], of a division, of a date parse) is an [option], with
      [None] for [NaN].
    - A date is its time value, the milliseconds since the epoch; the text
      parser and the local time zone are the platform's, and parameters
      here.
    - [Array.prototype.sort] is the stable sort that ECMAScript 2019
      prescribes; for a comparator that is a consistent order its result
      is unique, so a stable insertion sort computes it.
    - A remote call ([await fetch(..)] followed by [.json()]) is a node of
      a tree of requests; running the tree against a table of responses
      gives the result together with the requests issued. *)

From Stdlib Require Import ZArith QArith Qround List String Ascii Bool Lia Lqa.
From Stdlib Require Import Sorting.Sorted Permutation.
From Stdlib Require Decimal DecimalString DecimalN.
Import ListNotations.

Local Open Scope string_scope.
Local Open Scope Z_scope.

(** ** JavaScript primitives *)

Module Js.

(** [x ? a : b] and [x || d] on a number: zero and [NaN] are falsy. *)
Definition truthy (n : Z) : bool := negb (n =? 0).

Definition or_default (n : option Z) (d : Z) : Z :=
  match n with
  | Some v => if truthy v then v else d
  | None => d
  end.

(** Truthiness of a string: only the empty string is falsy. *)
Definition nonempty (s : string) : bool :=
  match s with EmptyString => false | String _ _ => true end.

Definition is_digit (c : ascii) : bool :=
  (48 <=? nat_of_ascii c)%nat && (nat_of_ascii c <=? 57)%nat.

Definition digit_value (c : ascii) : Z := Z.of_nat (nat_of_ascii c) - 48.

(** The value of a hexadecimal digit, if [c] is one. *)
Definition hex_value (c : ascii) : option Z :=
  let n := nat_of_ascii c in
  if is_digit c then Some (digit_value c)
  else if (97 <=? n)%nat && (n <=? 102)%nat then Some (Z.of_nat n - 87)
  else if (65 <=? n)%nat && (n <=? 70)%nat then Some (Z.of_nat n - 55)
  else None.

Definition dec_value (c : ascii) : option Z :=
  if is_digit c then Some (digit_value c) else None.

(** White space that [parseInt] skips.  The characters of one byte: the
    space, the tabulations, the form feed and the two line terminators. *)
Definition is_space (c : ascii) : bool :=
  let n := nat_of_ascii c in
  (n =? 32)%nat || ((9 <=? n)%nat && (n <=? 13)%nat).

(** The one of two bytes: U+00A0. *)
Definition is_space2 (c0 c1 : ascii) : bool :=
  (nat_of_ascii c0 =? 194)%nat && (nat_of_ascii c1 =? 160)%nat.

(** Those of three bytes: U+1680, U+2000 to U+200A, U+2028, U+2029,
    U+202F, U+205F, U+3000 and U+FEFF. *)
Definition is_space3 (c0 c1 c2 : ascii) : bool :=
  let n0 := nat_of_ascii c0 in
  let n1 := nat_of_ascii c1 in
  let n2 := nat_of_ascii c2 in
  ((n0 =? 225) && (n1 =? 154) && (n2 =? 128))%nat
  || ((n0 =? 226) && (n1 =? 128)
      && (((128 <=? n2) && (n2 <=? 138)) || (n2 =? 168) || (n2 =? 169)
          || (n2 =? 175)))%nat
  || ((n0 =? 226) && (n1 =? 129) && (n2 =? 159))%nat
  || ((n0 =? 227) && (n1 =? 128) && (n2 =? 128))%nat
  || ((n0 =? 239) && (n1 =? 187) && (n2 =? 191))%nat.

Fixpoint skip_spaces (s : string) : string :=
  match s with
  | String c0 s1 =>
      if is_space c0 then skip_spaces s1
      else
        match s1 with
        | String c1 s2 =>
            if is_space2 c0 c1 then skip_spaces s2
            else
              match s2 with
              | String c2 s3 =>
                  if is_space3 c0 c1 c2 then skip_spaces s3 else s
              | EmptyString => s
              end
        | EmptyString => s
        end
  | EmptyString => s
  end.

(** The longest prefix of digits of the radix, read left to right;
    [acc] is [None] until a first digit is seen. *)
Fixpoint read_digits (value : ascii -> option Z) (radix : Z)
         (acc : option Z) (s : string) : option Z :=
  match s with
  | String c s' =>
      match value c with
      | Some d =>
          read_digits value radix
            (Some (match acc with Some a => a * radix + d | None => d end)) s'
      | None => acc
      end
  | EmptyString => acc
  end.

Definition strip_sign (s : string) : bool * string :=
  match s with
  | String c s' =>
      if Ascii.eqb c "-" then (true, s')
      else if Ascii.eqb c "+" then (false, s')
      else (false, s)
  | EmptyString => (false, s)
  end.

(** The digits after a [0x] or [0X] prefix, if [s] has one. *)
Definition hex_prefix (s : string) : option string :=
  match s with
  | String c0 (String c1 hex) =>
      if Ascii.eqb c0 "0" && (Ascii.eqb c1 "x" || Ascii.eqb c1 "X")
      then Some hex else None
  | _ => None
  end.

(** [parseInt(s)] without a radix: leading white space, a sign, an
    optional [0x] prefix that selects radix 16, then the longest run of
    digits; [NaN] when there is none. *)
Definition parseInt (s : string) : option Z :=
  let (negative, body) := strip_sign (skip_spaces s) in
  let magnitude :=
    match hex_prefix body with
    | Some hex => read_digits hex_value 16 None hex
    | None => read_digits dec_value 10 None body
    end in
  option_map (fun m => if negative then - m else m) magnitude.

(** [Math.round]: the nearest integer, halves towards plus infinity. *)
Definition Math_round (x : Q) : Z := Qfloor (x + (1 # 2)).

(** [a / b] on numbers; a zero divisor gives [NaN] or an infinity. *)
Definition div (a b : Z) : option Q :=
  if b =? 0 then None else Some (inject_Z a / inject_Z b)%Q.

(** [Math.max(...l)] of a non-empty argument list. *)
Definition Math_max (x : Z) (l : list Z) : Z := fold_left Z.max l x.

(** [Array.prototype.join]. *)
Definition join (sep : string) (l : list string) : string :=
  String.concat sep l.

(** [s.replace(/c/g, by)]: every occurrence of one character. *)
Fixpoint replace_all (c : ascii) (by_ : string) (s : string) : string :=
  match s with
  | String x s' =>
      if Ascii.eqb x c then by_ ++ replace_all c by_ s'
      else String x (replace_all c by_ s')
  | EmptyString => EmptyString
  end.

(** A number that may be [NaN]. *)
Definition number := option Q.

Definition of_int (z : Z) : number := Some (inject_Z z).

Definition of_maybe_int (z : option Z) : number := option_map inject_Z z.

(** [a - b]; [NaN] as soon as one side is. *)
Definition minus (a b : number) : number :=
  match a, b with
  | Some x, Some y => Some (x - y)%Q
  | _, _ => None
  end.

Section Sort.
Context {A : Type}.
Variable compareFn : A -> A -> number.

(** [a] has to come after [b]: the comparator is positive.  A [NaN]
    is read as zero. *)
Definition after (a b : A) : bool :=
  match compareFn a b with
  | Some d => negb (Qle_bool d 0)
  | None => false
  end.

Fixpoint insert (x : A) (l : list A) : list A :=
  match l with
  | [] => [x]
  | y :: l' => if after x y then y :: insert x l' else x :: l
  end.

(** [Array.prototype.sort(compareFn)], stable. *)
Definition sort (l : list A) : list A := fold_right insert [] l.
End Sort.

(** A [Set] of strings: its elements in insertion order. *)
Definition Set_has (s : list string) (x : string) : bool :=
  existsb (String.eqb x) s.

Definition Set_add (s : list string) (x : string) : list string :=
  if Set_has s x then s else s ++ [x].

(** A [Map] with string keys: its entries in insertion order; [set] on
    a key that is present replaces the value in place. *)
Fixpoint Map_set {V} (m : list (string * V)) (k : string) (v : V)
  : list (string * V) :=
  match m with
  | [] => [(k, v)]
  | (k', v') :: m' =>
      if String.eqb k' k then (k', v) :: m' else (k', v') :: Map_set m' k v
  end.

Fixpoint Map_get {V} (m : list (string * V)) (k : string) : option V :=
  match m with
  | [] => None
  | (k', v') :: m' => if String.eqb k' k then Some v' else Map_get m' k
  end.

Definition Map_values {V} (m : list (string * V)) : list V := map snd m.

(** [new Map(entries)] *)
Definition Map_from {V} (entries : list (string * V)) : list (string * V) :=
  fold_left (fun m e => Map_set m (fst e) (snd e)) entries [].

End Js.

(** ** utils.ts *)

Module Utils.
Import Js.

(** The text after the leftmost occurrence of [PT], where the pattern
    [/PT(\d+H)?(\d+M)?(\d+S)?/] starts to match; all its groups are
    optional, so the leftmost [PT] is where the match is. *)
Fixpoint after_PT (s : string) : option string :=
  match s with
  | String c s' =>
      match s' with
      | String c' s'' =>
          if Ascii.eqb c "P" && Ascii.eqb c' "T" then Some s''
          else after_PT s'
      | EmptyString => None
      end
  | EmptyString => None
  end.

(** The run of digits at the head of [s] and what follows it. *)
Fixpoint span_digits (s : string) : string * string :=
  match s with
  | String c s' =>
      if is_digit c then
        let (ds, rest) := span_digits s' in (String c ds, rest)
      else (EmptyString, s)
  | EmptyString => (EmptyString, EmptyString)
  end.

(** One optional group [(\d+L)?] at the head of [s]: the captured text
    (or [None], JavaScript's [undefined]) and the rest of the input. *)
Definition match_group (letter : ascii) (s : string) : option string * string :=
  match span_digits s with
  | (String d ds, String c rest) =>
      if Ascii.eqb c letter
      then (Some (String d ds ++ String letter EmptyString), rest)
      else (None, s)
  | _ => (None, s)
  end.

(** [duration.match(/PT(\d+H)?(\d+M)?(\d+S)?/)]: the three captures, or
    [None] when the pattern does not occur. *)
Definition match_duration (duration : string)
  : option (option string * option string * option string) :=
  match after_PT duration with
  | None => None
  | Some s0 =>
      let (g1, s1) := match_group "H" s0 in
      let (g2, s2) := match_group "M" s1 in
      let (g3, _) := match_group "S" s2 in
      Some (g1, g2, g3)
  end.

(** [parseInt(g || '0') || 0] *)
Definition group_value (g : option string) : Z :=
  or_default
    (parseInt (match g with
               | Some t => if nonempty t then t else "0"
               | None => "0"
               end)) 0.

Definition parseDuration (duration : string) : Z :=
  match match_duration duration with
  | None => 0
  | Some (g1, g2, g3) =>
      let hours := group_value g1 in
      let minutes := group_value g2 in
      let seconds := group_value g3 in
      hours * 3600 + minutes * 60 + seconds
  end.

(** The values found in the records that are exported. *)
Inductive JsValue :=
| VString (s : string)
| VNumber (n : Z)
| VArray (elements : list string)
| VUndefined.

(** [String(v)] *)
Definition String_ (v : JsValue) : string :=
  match v with
  | VString s => s
  | VNumber n => DecimalString.NilZero.string_of_int (Z.to_int n)
  | VArray elements => join "," elements
  | VUndefined => "undefined"
  end.

(** An object: its own properties in the order of enumeration. *)
Definition Obj := list (string * JsValue).

Definition Object_keys (obj : Obj) : list string := map fst obj.
Definition Object_values (obj : Obj) : list JsValue := map snd obj.

Definition quote : ascii := "034"%char.
Definition LF : ascii := "010"%char.
Definition CR : ascii := "013"%char.

(** U+FEFF, as the three bytes it is written with. *)
Definition BOM : string :=
  String "239"%char (String "187"%char (String "191"%char EmptyString)).

(** The template that wraps one value in quotes, the quotes inside
    the value doubled. *)
Definition quoteValue (v : JsValue) : string :=
  String quote
         (replace_all quote (String quote (String quote EmptyString)) (String_ v)
          ++ String quote EmptyString).

(** [downloadCSV]: the name and the content of the file handed to the
    browser, or [None] when nothing is downloaded. *)
Definition downloadCSV (data : list Obj) (filename : string)
  : option (string * string) :=
  match data with
  | [] => None
  | first :: _ =>
      let headers := join "," (Object_keys first) in
      let rows :=
        map (fun obj => join "," (map quoteValue (Object_values obj))) data in
      let csvContent := join (String LF EmptyString) (headers :: rows) in
      Some (filename ++ ".csv", BOM ++ csvContent)
  end.

End Utils.

(** ** types.ts *)

Module YouTubeVideo.
Record t := {
  id : string;
  title : string;
  description : string;
  thumbnail : string;
  publishedAt : string;
  channelId : string;
  channelTitle : string;
  viewCount : Z;
  likeCount : Z;
  commentCount : Z;
  duration : string;
  tags : list string
}.
End YouTubeVideo.

Module YouTubeChannel.
Record t := {
  id : string;
  title : string;
  description : string;
  thumbnail : string;
  subscriberCount : Z;
  videoCount : option Z;
  viewCount : option Z;
  country : string;
  publishedAt : string
}.
End YouTubeChannel.

(** A video with the [popularityScore] that the views attach to it
    ([{...v, popularityScore: ..}]); the score is [None] when it is [NaN]. *)
Module ScoredVideo.
Record t := {
  video : YouTubeVideo.t;
  popularityScore : option Z
}.
End ScoredVideo.

Inductive RisingPeriod := period_3m | period_6m | period_1y | period_all.
Inductive VideoTypeFilter := type_all | type_video | type_shorts.
Inductive RegionCode := KR | US | JP | Global.

Record RisingChannelResult := {
  details : YouTubeChannel.t;
  topVideo : YouTubeVideo.t;
  topVideoViews : Z;
  score : Q
}.

(** ** The popularity score and the video lists of the two views *)

Section Views.
Import Js.

(** [new Date(s).getTime()]: milliseconds since the epoch, [None] for an
    invalid date.  The parser is the platform's. *)
Variable Date_getTime : string -> option Z.

(** One weighted share, [max ? (count / max) * weight : 0]. *)
Definition share (count max : Z) (weight : Q) : option Q :=
  if truthy max then option_map (fun q => q * weight)%Q (div count max)
  else Some 0%Q.

(** [calculateVideoScore], the same function in both views. *)
Definition calculateVideoScore (v : YouTubeVideo.t)
           (maxViews maxLikes maxComments : Z) : option Z :=
  match share (YouTubeVideo.viewCount v) maxViews 50,
        share (YouTubeVideo.likeCount v) maxLikes 30,
        share (YouTubeVideo.commentCount v) maxComments 20 with
  | Some viewScore, Some likeScore, Some commentScore =>
      Some (Math_round (viewScore + likeScore + commentScore))
  | _, _, _ => None
  end.

(** The score-annotated list: [processedVideos] of ChannelAnalysis and
    [withScores] of KeywordAnalysis. *)
Definition withScores (videos : list YouTubeVideo.t) : list ScoredVideo.t :=
  match videos with
  | [] => []
  | v0 :: rest =>
      let maxViews :=
        Math_max (YouTubeVideo.viewCount v0) (map YouTubeVideo.viewCount rest) in
      let maxLikes :=
        Math_max (YouTubeVideo.likeCount v0) (map YouTubeVideo.likeCount rest) in
      let maxComments :=
        Math_max (YouTubeVideo.commentCount v0)
                 (map YouTubeVideo.commentCount rest) in
      map (fun v =>
             {| ScoredVideo.video := v;
                ScoredVideo.popularityScore :=
                  calculateVideoScore v maxViews maxLikes maxComments |})
          videos
  end.

Definition isShort (v : ScoredVideo.t) : bool :=
  Utils.parseDuration (YouTubeVideo.duration (ScoredVideo.video v)) <? 180.

Definition byPopularity (a b : ScoredVideo.t) : number :=
  minus (of_maybe_int (ScoredVideo.popularityScore b)) (of_maybe_int (ScoredVideo.popularityScore a)).

Definition byViews (a b : ScoredVideo.t) : number :=
  minus (of_int (YouTubeVideo.viewCount (ScoredVideo.video b)))
        (of_int (YouTubeVideo.viewCount (ScoredVideo.video a))).

Definition getTime (v : ScoredVideo.t) : number :=
  of_maybe_int (Date_getTime (YouTubeVideo.publishedAt (ScoredVideo.video v))).

Definition byNewest (a b : ScoredVideo.t) : number := minus (getTime b) (getTime a).

Definition byOldest (a b : ScoredVideo.t) : number := minus (getTime a) (getTime b).

End Views.

Module ChannelAnalysis.
Import Js.

Inductive SortOption := popularity | views | date_desc | date_asc.
Inductive FilterOption := all | video | shorts.

Section WithDates.
Variable Date_getTime : string -> option Z.

Definition processedVideos (videos : list YouTubeVideo.t) : list ScoredVideo.t :=
  withScores videos.

(** Step 1 of [sortedVideos]. *)
Definition filtered (filterOption : FilterOption) (result : list ScoredVideo.t)
  : list ScoredVideo.t :=
  match filterOption with
  | shorts => filter isShort result
  | video =>
      filter (fun v =>
                180 <=? Utils.parseDuration (YouTubeVideo.duration (ScoredVideo.video v)))
             result
  | all => result
  end.

(** Step 2 of [sortedVideos]. *)
Definition sorted (sortOption : SortOption) (result : list ScoredVideo.t)
  : list ScoredVideo.t :=
  match sortOption with
  | popularity => sort byPopularity result
  | views => sort byViews result
  | date_desc => sort (byNewest Date_getTime) result
  | date_asc => sort (byOldest Date_getTime) result
  end.

Definition sortedVideos (processedVideos : list ScoredVideo.t)
           (sortOption : SortOption) (filterOption : FilterOption)
  : list ScoredVideo.t :=
  sorted sortOption (filtered filterOption processedVideos).
End WithDates.
End ChannelAnalysis.

Module KeywordAnalysis.
Import Js.

Inductive SortOption := popularity | views | date.

Section WithDates.
Variable Date_getTime : string -> option Z.

(** Step 2 of [processedVideos]. *)
Definition filtered (videoType : VideoTypeFilter) (withScores : list ScoredVideo.t)
  : list ScoredVideo.t :=
  filter (fun v =>
            match videoType with
            | type_shorts => isShort v
            | type_video => negb (isShort v)
            | type_all => true
            end) withScores.

(** Step 3 of [processedVideos]. *)
Definition sorted (sortOption : SortOption) (filtered : list ScoredVideo.t)
  : list ScoredVideo.t :=
  sort (fun a b =>
          match sortOption with
          | popularity => byPopularity a b
          | date => byNewest Date_getTime a b
          | views => byViews a b
          end) filtered.

Definition processedVideos (videos : list YouTubeVideo.t)
           (videoType : VideoTypeFilter) (sortOption : SortOption)
  : list ScoredVideo.t :=
  match videos with
  | [] => []
  | _ => sorted sortOption (filtered videoType (withScores videos))
  end.
End WithDates.
End KeywordAnalysis.

(** ** services/youtubeService.ts *)

(** The items of the three responses, with the fields the code reads;
    a field that is absent reads as a text that is not a number. *)
Module SearchItem.
Record t := {
  channelId : string;   (* item.snippet.channelId *)
  videoId : string      (* item.id.videoId *)
}.
End SearchItem.

Module ChannelItem.
Record t := {
  id : string;
  title : string;
  description : string;
  thumbnail : string;
  country : string;
  publishedAt : string;
  subscriberCount : string;
  videoCount : string;
  viewCount : string
}.
End ChannelItem.

Module VideoItem.
Record t := {
  id : string;
  title : string;
  description : string;
  thumbnail : string;
  publishedAt : string;
  channelId : string;
  channelTitle : string;
  viewCount : string;
  likeCount : string;
  commentCount : string;
  duration : string;
  tags : list string
}.
End VideoItem.

(** ** Dates

    The part of [Date] the aggregator uses.  A time value is the number
    of milliseconds since the epoch; the time values here are instants
    that a clock reads, far inside the range of [Date], so that a date
    moved by a year is a valid date again. *)

Module JsDate.

Definition msPerDay : Z := 24 * 60 * 60 * 1000.

Definition Day (t : Z) : Z := t / msPerDay.

Definition TimeWithinDay (t : Z) : Z := t mod msPerDay.

(** The day of the month, from 1 to 31, of a day counted from 1 January
    1970 in the Gregorian calendar; the years are counted off in eras of
    400 years that start on a first of March. *)
Definition DateOfDay (day : Z) : Z :=
  let z := day + 719468 in
  let era := z / 146097 in
  let doe := z - era * 146097 in
  let yoe := (doe - doe / 1460 + doe / 36524 - doe / 146096) / 365 in
  let doy := doe - (365 * yoe + yoe / 4 - yoe / 100) in
  let mp := (5 * doy + 2) / 153 in
  doy - (153 * mp + 2) / 5 + 1.

Definition DateFromTime (t : Z) : Z := DateOfDay (Day t).

(** The local time zone, which the platform defines: the offset of local
    time from UTC in milliseconds, at an instant and at a local time
    ([LocalTZA(t, true)] and [LocalTZA(t, false)]). *)
Record Zone := {
  offset : Z -> Z;
  offset_of_local : Z -> Z
}.

Definition LocalTime (zone : Zone) (t : Z) : Z := t + offset zone t.

Definition UTC (zone : Zone) (t : Z) : Z := t - offset_of_local zone t.

(** [d.getDate()]: the day of the month in local time. *)
Definition getDate (zone : Zone) (t : Z) : Z := DateFromTime (LocalTime zone t).

(** [d.setDate(date)]: the day of the month replaced in local time, the
    time within the day kept.  [MakeDay] of the year and the month of the
    date itself is the day of the first of its month, plus [date - 1]: a
    [date] below 1 or beyond the end of the month carries into the
    neighbouring months. *)
Definition setDate (zone : Zone) (t : Z) (date : Z) : Z :=
  let local := LocalTime zone t in
  let firstOfMonth := Day local - (DateFromTime local - 1) in
  let newDate := (firstOfMonth + date - 1) * msPerDay + TimeWithinDay local in
  UTC zone newDate.

End JsDate.

(** The clock and the time zone of a run of the aggregator: the instants
    that the three [new Date()] of its step 1 read, in the order of the
    code, for [now], [publishedAfterDate] and [channelCreationCutoff]. *)
Record Clock := {
  zone : JsDate.Zone;
  read_now : Z;
  read_publishedAfterDate : Z;
  read_channelCreationCutoff : Z
}.

(** The parameters of the search URL. *)
Record SearchParams := {
  q : string;
  publishedAfter : Z;
  videoCategoryId : option string;
  regionCode : option RegionCode;
  videoDuration : option string
}.

(** A remote call and the type of the [items] it answers with ([None]
    when the response has no [items]). *)
Inductive Call : Type -> Type :=
| Search (apiKey : string) (params : SearchParams)
  : Call (option (list SearchItem.t))
| Channels (apiKey : string) (ids : list string)
  : Call (option (list ChannelItem.t))
| Videos (apiKey : string) (videoIds : string)
  : Call (option (list VideoItem.t)).

(** An asynchronous computation: a result, or a call and what is done
    with its answer. *)
Inductive Prog (A : Type) : Type :=
| Ret (a : A)
| Fetch {R : Type} (c : Call R) (k : R -> Prog A).

Arguments Ret {A} a.
Arguments Fetch {A R} c k.

Fixpoint bind {A B} (p : Prog A) (f : A -> Prog B) : Prog B :=
  match p with
  | Ret a => f a
  | Fetch c k => Fetch c (fun r => bind (k r) f)
  end.

Notation "x <- p ;; q" := (bind p (fun x => q))
  (at level 61, p at next level, right associativity).

(** The remote side: an answer for every call. *)
Definition Remote := forall R, Call R -> R.

(** A call without the type of its answer, as it is logged. *)
Inductive Request :=
| SearchRequest (apiKey : string) (params : SearchParams)
| ChannelsRequest (apiKey : string) (ids : list string)
| VideosRequest (apiKey : string) (videoIds : string).

Definition request_of {R} (c : Call R) : Request :=
  match c with
  | Search apiKey params => SearchRequest apiKey params
  | Channels apiKey ids => ChannelsRequest apiKey ids
  | Videos apiKey videoIds => VideosRequest apiKey videoIds
  end.

(** The result of a computation and the calls it issued, in order. *)
Fixpoint run {A} (remote : Remote) (p : Prog A) : A * list Request :=
  match p with
  | Ret a => (a, [])
  | Fetch c k =>
      let (a, calls) := run remote (k (remote _ c)) in
      (a, request_of c :: calls)
  end.

Module YoutubeService.
Import Js.

Definition toVideo (item : VideoItem.t) : YouTubeVideo.t :=
  {| YouTubeVideo.id := VideoItem.id item;
     YouTubeVideo.title := VideoItem.title item;
     YouTubeVideo.description := VideoItem.description item;
     YouTubeVideo.thumbnail := VideoItem.thumbnail item;
     YouTubeVideo.publishedAt := VideoItem.publishedAt item;
     YouTubeVideo.channelId := VideoItem.channelId item;
     YouTubeVideo.channelTitle := VideoItem.channelTitle item;
     YouTubeVideo.viewCount := or_default (parseInt (VideoItem.viewCount item)) 0;
     YouTubeVideo.likeCount := or_default (parseInt (VideoItem.likeCount item)) 0;
     YouTubeVideo.commentCount :=
       or_default (parseInt (VideoItem.commentCount item)) 0;
     YouTubeVideo.duration := VideoItem.duration item;
     YouTubeVideo.tags := VideoItem.tags item |}.

Definition getVideoDetails (apiKey videoIds : string) : Prog (list YouTubeVideo.t) :=
  if nonempty videoIds then
    Fetch (Videos apiKey videoIds)
          (fun items =>
             match items with
             | None => Ret []
             | Some items => Ret (map toVideo items)
             end)
  else Ret [].

(** [d.setDate(now.getDate() - n)] on the date that [new Date()] gave at
    the instant [read]: the day of the month that the first read has in
    local time, less [n], set on the local date of [read]. *)
Definition daysBefore (now : Clock) (read n : Z) : Z :=
  JsDate.setDate (zone now) read (JsDate.getDate (zone now) (read_now now) - n).

(** Step 1: [publishedAfterDate] and [channelCreationCutoff].  The
    unbounded window has [new Date(0)] for its cutoff. *)
Definition thresholds (period : RisingPeriod) (now : Clock) : Z * Z :=
  match period with
  | period_3m =>
      (daysBefore now (read_publishedAfterDate now) 90,
       daysBefore now (read_channelCreationCutoff now) 90)
  | period_6m =>
      (daysBefore now (read_publishedAfterDate now) 180,
       daysBefore now (read_channelCreationCutoff now) 180)
  | period_1y =>
      (daysBefore now (read_publishedAfterDate now) 365,
       daysBefore now (read_channelCreationCutoff now) 365)
  | period_all => (daysBefore now (read_publishedAfterDate now) 365, 0)
  end.

Definition channelCreationCutoff (period : RisingPeriod) (now : Clock) : Z :=
  snd (thresholds period now).

(** Step 2: the search URL. *)
Definition searchParams (query categoryId : string) (publishedAfter : Z)
           (region : RegionCode) (videoType : VideoTypeFilter) : SearchParams :=
  {| q := query;
     publishedAfter := publishedAfter;
     videoCategoryId := if nonempty categoryId then Some categoryId else None;
     regionCode := match region with Global => None | r => Some r end;
     videoDuration :=
       match videoType with
       | type_shorts => Some "short"
       | type_video => Some "medium"
       | type_all => None
       end |}.

(** Step 3: the set of channel ids and the map from a channel to its
    video, filled by one pass over the search results. *)
Definition collect (items : list SearchItem.t)
  : list string * list (string * string) :=
  fold_left
    (fun (acc : list string * list (string * string)) item =>
       let (channelIdsSet, videoMap) := acc in
       let chId := SearchItem.channelId item in
       if negb (Set_has channelIdsSet chId)
       then (Set_add channelIdsSet chId,
             Map_set videoMap chId (SearchItem.videoId item))
       else acc)
    items ([], []).

Section WithDates.
Variable Date_getTime : string -> option Z.

(** [publishedAt >= channelCreationCutoff] on two dates. *)
Definition createdSince (cutoff : Z) (item : ChannelItem.t) : bool :=
  match Date_getTime (ChannelItem.publishedAt item) with
  | Some t => cutoff <=? t
  | None => false
  end.

(** [videoId ? videoDetailsMap.get(videoId) : null] *)
Definition fullVideoOf (videoMap : list (string * string))
           (videoDetailsMap : list (string * YouTubeVideo.t))
           (item : ChannelItem.t) : option YouTubeVideo.t :=
  match Map_get videoMap (ChannelItem.id item) with
  | Some videoId =>
      if nonempty videoId then Map_get videoDetailsMap videoId else None
  | None => None
  end.

Definition channelObj (item : ChannelItem.t) (subCount : Z) : YouTubeChannel.t :=
  {| YouTubeChannel.id := ChannelItem.id item;
     YouTubeChannel.title := ChannelItem.title item;
     YouTubeChannel.description := ChannelItem.description item;
     YouTubeChannel.thumbnail := ChannelItem.thumbnail item;
     YouTubeChannel.subscriberCount := subCount;
     YouTubeChannel.videoCount := parseInt (ChannelItem.videoCount item);
     YouTubeChannel.viewCount := parseInt (ChannelItem.viewCount item);
     YouTubeChannel.country := ChannelItem.country item;
     YouTubeChannel.publishedAt := ChannelItem.publishedAt item |}.

(** The body of the loop over the channels: the result it pushes, if
    it pushes one. *)
Definition pushed (cutoff : Z) (videoMap : list (string * string))
           (videoDetailsMap : list (string * YouTubeVideo.t))
           (item : ChannelItem.t) : option RisingChannelResult :=
  if createdSince cutoff item then
    match fullVideoOf videoMap videoDetailsMap item with
    | None => None
    | Some fullVideo =>
        let subCount := or_default (parseInt (ChannelItem.subscriberCount item)) 1 in
        let ratio :=
          if 0 <? subCount
          then (inject_Z (YouTubeVideo.viewCount fullVideo) / inject_Z subCount)%Q
          else 0%Q in
        Some {| details := channelObj item subCount;
                topVideo := fullVideo;
                topVideoViews := YouTubeVideo.viewCount fullVideo;
                score := ratio |}
    end
  else None.

Definition byScore (a b : RisingChannelResult) : number :=
  minus (Some (score b)) (Some (score a)).

(** Steps 5 to 7 once the three answers are there. *)
Definition rank (cutoff : Z) (videoMap : list (string * string))
           (videoDetails : list YouTubeVideo.t)
           (chItems : list ChannelItem.t) : list RisingChannelResult :=
  let videoDetailsMap :=
    Map_from (map (fun v => (YouTubeVideo.id v, v)) videoDetails) in
  let risingChannels :=
    fold_left
      (fun risingChannels item =>
         match pushed cutoff videoMap videoDetailsMap item with
         | Some result => (risingChannels ++ [result])%list
         | None => risingChannels
         end)
      chItems [] in
  sort byScore risingChannels.

(** [findRisingChannels]; [now] is what the clock reads during the run. *)
Definition findRisingChannels (now : Clock) (apiKey query categoryId : string)
           (period : RisingPeriod) (region : RegionCode)
           (videoType : VideoTypeFilter) : Prog (list RisingChannelResult) :=
  let (publishedAfterDate, cutoff) := thresholds period now in
  Fetch (Search apiKey
                (searchParams query categoryId publishedAfterDate region videoType))
    (fun searchItems =>
       match searchItems with
       | None => Ret []
       | Some items =>
           let (channelIdsSet, videoMap) := collect items in
           let channelIds := firstn 40 channelIdsSet in
           if (List.length channelIds =? 0)%nat then Ret []
           else
             Fetch (Channels apiKey channelIds)
               (fun chItems =>
                  match chItems with
                  | None => Ret []
                  | Some chItems =>
                      let videoIdsToFetch := join "," (Map_values videoMap) in
                      videoDetails <- getVideoDetails apiKey videoIdsToFetch ;;
                      Ret (rank cutoff videoMap videoDetails chItems)
                  end)
       end).
End WithDates.
End YoutubeService.

(** ** Notions the properties are stated with *)

(** The video of the first search result of a channel. *)
Definition first_video (items : list SearchItem.t) (chId : string) : option string :=
  option_map SearchItem.videoId
             (find (fun it => String.eqb (SearchItem.channelId it) chId) items).

(** The call that step 2 issues. *)
Definition searchCall (now : Clock) (apiKey query categoryId : string)
           (period : RisingPeriod) (region : RegionCode)
           (videoType : VideoTypeFilter) : Call (option (list SearchItem.t)) :=
  Search apiKey
         (YoutubeService.searchParams query categoryId
            (fst (YoutubeService.thresholds period now)) region videoType).

(** The detailed records the video lookup answers with for the videos of
    the channels found by the search. *)
Definition videoDetailsOf (remote : Remote) (apiKey : string)
           (items : list SearchItem.t) : list YouTubeVideo.t :=
  fst (run remote
           (YoutubeService.getVideoDetails apiKey
              (Js.join "," (Js.Map_values (snd (YoutubeService.collect items)))))).

Definition videoDetailsMapOf (videoDetails : list YouTubeVideo.t)
  : list (string * YouTubeVideo.t) :=
  Js.Map_from (map (fun v => (YouTubeVideo.id v, v)) videoDetails).

(** The elements of a list, each once, in the order in which they first
    appear. *)
Fixpoint distinct (l : list string) : list string :=
  match l with
  | [] => []
  | x :: l' => x :: filter (fun y => negb (String.eqb y x)) (distinct l')
  end.

(** The channels of the search results, each once, in the order of the
    results. *)
Definition distinct_channels (items : list SearchItem.t) : list string :=
  distinct (map SearchItem.channelId items).

(** The id of the video of the first search result of a channel. *)
Definition representative (items : list SearchItem.t) (chId : string) : string :=
  match first_video items chId with
  | Some videoId => videoId
  | None => EmptyString
  end.

(** The representative videos of all the channels of the search results,
    in the order of the channels. *)
Definition representatives (items : list SearchItem.t) : list string :=
  map (representative items) (distinct_channels items).

(** The records of the answer of the video lookup for the representative
    videos; there is no lookup for no video. *)
Definition lookedUp (remote : Remote) (apiKey : string)
           (items : list SearchItem.t) : list YouTubeVideo.t :=
  let videoIds := Js.join "," (representatives items) in
  if Js.nonempty videoIds then
    match remote _ (Videos apiKey videoIds) with
    | Some videoItems => map YoutubeService.toVideo videoItems
    | None => []
    end
  else [].

(** The detailed record of the representative video of a channel, when it
    could be resolved: the record of the answer that has the id of the
    video of the first search result of the channel (the last such record,
    if there are several). *)
Definition resolvedVideo (remote : Remote) (apiKey : string)
           (items : list SearchItem.t) (item : ChannelItem.t)
  : option YouTubeVideo.t :=
  match first_video items (ChannelItem.id item) with
  | Some videoId =>
      if Js.nonempty videoId
      then Js.Map_get (videoDetailsMapOf (lookedUp remote apiKey items)) videoId
      else None
  | None => None
  end.

(** The channel lookup answers with records of channels that were asked
    for, one at most for each. *)
Definition channel_lookup_contract (remote : Remote) : Prop :=
  forall apiKey ids chItems,
    remote _ (Channels apiKey ids) = Some chItems ->
    NoDup (map ChannelItem.id chItems) /\
    incl (map ChannelItem.id chItems) ids.

Definition channelOf (r : RisingChannelResult) : string :=
  YouTubeChannel.id (details r).


(** The creation timestamp of the channel is a date on or after the
    cutoff instant. *)
Definition createdOnOrAfter (Date_getTime : string -> option Z) (cutoff : Z)
           (item : ChannelItem.t) : Prop :=
  exists created,
    Date_getTime (ChannelItem.publishedAt item) = Some created /\
    cutoff <= created.

(** [n] days of 24 hours, in milliseconds. *)
Definition days (n : Z) : Z := n * (24 * 60 * 60 * 1000).




(** A time zone without offset, and a clock in it that reads one instant
    three times. *)
Definition UTC_zone : JsDate.Zone :=
  {| JsDate.offset := fun _ => 0; JsDate.offset_of_local := fun _ => 0 |}.

Definition clock_at (zone : JsDate.Zone) (t : Z) : Clock :=
  {| zone := zone; read_now := t; read_publishedAfterDate := t;
     read_channelCreationCutoff := t |}.

(** A zone two hours ahead of UTC from 31 March 2024, 01:00 UTC, to
    27 October 2024, 01:00 UTC, and one hour ahead otherwise. *)
Definition summer_time (utc : Z) : Z :=
  if (1711846800000 <=? utc) && (utc <? 1729990800000)
  then 2 * 3600000 else 3600000.

Definition sample_zone : JsDate.Zone :=
  {| JsDate.offset := summer_time;
     JsDate.offset_of_local :=
       fun local => if (1711846800000 + 3600000 <=? local)
                       && (local <? 1729990800000 + 2 * 3600000)
                    then 2 * 3600000 else 3600000 |}.

(** Sample data.  A few dates with the instants they denote, as the
    platform's parser reads them. *)
Definition sample_dates : list (string * Z) :=
  [ ("2023-08-15T22:13:20.000Z", 1692137600000);
    ("2023-08-17T22:13:20.000Z", 1692310400000);
    ("2023-11-03T08:26:40.000Z", 1699000000000);
    ("2024-01-01T00:00:00.000Z", 1704067200000);
    ("2024-02-01T00:00:00.000Z", 1706745600000);
    ("2024-03-01T00:00:00.000Z", 1709251200000) ].

Definition sample_clock (s : string) : option Z := Js.Map_get sample_dates s.

(** One channel [c1], whose first video in the search is [v1]. *)
Definition sample_channel (id created subscribers : string) : ChannelItem.t :=
  {| ChannelItem.id := id;
     ChannelItem.title := "channel " ++ id;
     ChannelItem.description := EmptyString;
     ChannelItem.thumbnail := EmptyString;
     ChannelItem.country := "KR";
     ChannelItem.publishedAt := created;
     ChannelItem.subscriberCount := subscribers;
     ChannelItem.videoCount := "12";
     ChannelItem.viewCount := "34000" |}.

Definition sample_video_item (id channel views : string) : VideoItem.t :=
  {| VideoItem.id := id;
     VideoItem.title := "video " ++ id;
     VideoItem.description := EmptyString;
     VideoItem.thumbnail := EmptyString;
     VideoItem.publishedAt := "2023-11-03T08:26:40.000Z";
     VideoItem.channelId := channel;
     VideoItem.channelTitle := "channel " ++ channel;
     VideoItem.viewCount := views;
     VideoItem.likeCount := "10";
     VideoItem.commentCount := "2";
     VideoItem.duration := "PT4M";
     VideoItem.tags := [] |}.

Definition sample_remote (created subscribers views : string)
           (videosResolve : bool) : Remote :=
  fun R c =>
    match c in Call R return R with
    | Search _ _ =>
        Some [ {| SearchItem.channelId := "c1"; SearchItem.videoId := "v1" |};
               {| SearchItem.channelId := "c1"; SearchItem.videoId := "v2" |} ]
    | Channels _ ids =>
        Some (if Js.Set_has ids "c1"
              then [ sample_channel "c1" created subscribers ] else [])
    | Videos _ _ =>
        if videosResolve then Some [ sample_video_item "v1" "c1" views ] else None
    end.

(** 2023-11-14T22:13:20.000Z, in a zone without offset. *)
Definition sample_now : Clock := clock_at UTC_zone 1700000000000.

(** A remote side whose responses have no [items]. *)
Definition silent_remote : Remote :=
  fun R c =>
    match c in Call R return R with
    | Search _ _ => None
    | Channels _ _ => None
    | Videos _ _ => None
    end.

(** *** The layout of an exported document, in the words of the
    specification *)

Module CsvLayout.
Import Utils.

(** A text with every quote character written twice. *)
Fixpoint doubled (s : string) : string :=
  match s with
  | String c s' =>
      if Ascii.eqb c quote then String quote (String quote (doubled s'))
      else String c (doubled s')
  | EmptyString => EmptyString
  end.

Definition quoted (s : string) : string :=
  String quote (doubled s ++ String quote EmptyString).

(** Fields separated by commas. *)
Fixpoint comma_joined (fields : list string) : string :=
  match fields with
  | [] => EmptyString
  | [f] => f
  | f :: rest => f ++ String "," (comma_joined rest)
  end.

Definition header_row (first : Obj) : string := comma_joined (Object_keys first).

Definition record_row (obj : Obj) : string :=
  comma_joined (map (fun v => quoted (String_ v)) (Object_values obj)).

(** The marker, the header row, then one row for each record, each on
    a line of its own. *)
Fixpoint record_rows (data : list Obj) : string :=
  match data with
  | [] => EmptyString
  | obj :: rest => String LF (record_row obj ++ record_rows rest)
  end.

Definition document (first : Obj) (data : list Obj) : string :=
  BOM ++ header_row first ++ record_rows data.

(** All records have the fields of the first one. *)
Definition uniform (data : list Obj) : Prop :=
  match data with
  | [] => True
  | first :: _ => Forall (fun obj => Object_keys obj = Object_keys first) data
  end.
(** The texts of the values of a record. *)
Definition texts (obj : Obj) : list string := map String_ (Object_values obj).

End CsvLayout.

(** *** A reader of delimited text

    The reader the round trip is stated with: fields separated by commas,
    records by line feeds (a carriage return outside quotes is dropped), a
    field in quotes extends to its closing quote, two quotes in it stand
    for one; a byte-order marker at the start is skipped.  It is not code
    of the repository. *)

Module CsvReader.
Import Utils.

Inductive State := RecordStart | FieldStart | Plain | Quoted | QuoteSeen.

Record Reader := {
  state : State;
  field : string;                (* the field being read *)
  row : list string;             (* the fields of the record being read *)
  rows : list (list string)      (* the records read *)
}.

Definition init : Reader :=
  {| state := RecordStart; field := EmptyString; row := []; rows := [] |}.

Definition add (r : Reader) (st : State) (c : ascii) : Reader :=
  {| state := st; field := field r ++ String c EmptyString;
     row := row r; rows := rows r |}.

Definition end_field (r : Reader) : Reader :=
  {| state := FieldStart; field := EmptyString;
     row := (row r ++ [field r])%list; rows := rows r |}.

Definition end_record (r : Reader) : Reader :=
  {| state := RecordStart; field := EmptyString;
     row := []; rows := (rows r ++ [row r ++ [field r]])%list |}.

Definition enter (r : Reader) (st : State) : Reader :=
  {| state := st; field := field r; row := row r; rows := rows r |}.

(** Outside quotes. *)
Definition outside (r : Reader) (c : ascii) (at_start : bool) : Reader :=
  if Ascii.eqb c "," then end_field r
  else if Ascii.eqb c LF then end_record r
  else if Ascii.eqb c CR then r
  else if at_start && Ascii.eqb c quote then enter r Quoted
  else add r Plain c.

Definition step (r : Reader) (c : ascii) : Reader :=
  match state r with
  | RecordStart | FieldStart => outside r c true
  | Plain => outside r c false
  | Quoted => if Ascii.eqb c quote then enter r QuoteSeen else add r Quoted c
  | QuoteSeen =>
      if Ascii.eqb c quote then add r Quoted quote else outside r c false
  end.

Fixpoint feed (r : Reader) (s : string) : Reader :=
  match s with
  | String c s' => feed (step r c) s'
  | EmptyString => r
  end.

(** At the end of the input a record that was begun is closed. *)
Definition finish (r : Reader) : list (list string) :=
  match state r with
  | RecordStart => rows r
  | _ => (rows r ++ [row r ++ [field r]])%list
  end.

Definition skip_BOM (s : string) : string :=
  match s with
  | String "239" (String "187" (String "191" s')) => s'
  | _ => s
  end.

Definition read (s : string) : list (list string) :=
  finish (feed init (skip_BOM s)).

(** A field name that needs no quotes. *)
Fixpoint plain (s : string) : bool :=
  match s with
  | String c s' =>
      negb (Ascii.eqb c "," || Ascii.eqb c LF || Ascii.eqb c CR
            || Ascii.eqb c quote) && plain s'
  | EmptyString => true
  end.
(** Where a field may begin. *)
Definition at_start (r : Reader) : Prop :=
  (state r = RecordStart \/ state r = FieldStart) /\ field r = EmptyString.

Definition unquoted (r : Reader) : Prop :=
  state r = RecordStart \/ state r = FieldStart \/ state r = Plain.

(** The records read if the input ended here, in a record begun. *)
Definition total (r : Reader) : list (list string) :=
  (rows r ++ [row r ++ [field r]])%list.

End CsvReader.

Definition sample_records : list Utils.Obj :=
  [ [ ("title", Utils.VString ("say " ++ String Utils.quote ("hi" ++ String Utils.quote ", then leave")));
      ("viewCount", Utils.VNumber 1200);
      ("tags", Utils.VArray ["a"; "b"]) ];
    [ ("title", Utils.VString "plain");
      ("viewCount", Utils.VNumber 0);
      ("tags", Utils.VArray []) ] ].

(** The counts of a video record are not negative. *)
Definition nonneg_counts (v : YouTubeVideo.t) : Prop :=
  0 <= YouTubeVideo.viewCount v /\ 0 <= YouTubeVideo.likeCount v /\
  0 <= YouTubeVideo.commentCount v.

(** [v] has the maximum view, like and comment counts of the collection
    at once. *)
Definition tops (videos : list YouTubeVideo.t) (v : YouTubeVideo.t) : Prop :=
  forall u, In u videos ->
    YouTubeVideo.viewCount u <= YouTubeVideo.viewCount v /\
    YouTubeVideo.likeCount u <= YouTubeVideo.likeCount v /\
    YouTubeVideo.commentCount u <= YouTubeVideo.commentCount v.

Definition sample_video (id : string) (views likes comments : Z)
           (duration publishedAt : string) : YouTubeVideo.t :=
  {| YouTubeVideo.id := id;
     YouTubeVideo.title := "title of " ++ id;
     YouTubeVideo.description := EmptyString;
     YouTubeVideo.thumbnail := EmptyString;
     YouTubeVideo.publishedAt := publishedAt;
     YouTubeVideo.channelId := "channel of " ++ id;
     YouTubeVideo.channelTitle := EmptyString;
     YouTubeVideo.viewCount := views;
     YouTubeVideo.likeCount := likes;
     YouTubeVideo.commentCount := comments;
     YouTubeVideo.duration := duration;
     YouTubeVideo.tags := [] |}.

Definition sample_videos : list YouTubeVideo.t :=
  [ sample_video "a" 10 4 2 "PT5M" "2024-01-01T00:00:00.000Z";
    sample_video "b" 5 1 0 "PT30S" "2024-03-01T00:00:00.000Z";
    sample_video "c" 7 4 1 "PT2M59S" "2024-02-01T00:00:00.000Z" ].

(** An integer in the range in which doubles are exact: the numbers of
    the program are doubles, and below 2^53 in size every integer is one,
    and the sums and products that stay in this range are exact. *)
Definition safe (n : Z) : Prop := Z.abs n < 2 ^ 53.

(** *** Texts of the compact form [PT[nH][nM][nS]] *)

Module CompactForm.
Import Js Utils.
Import Decimal DecimalString.

(** A group of the compact form: a run of decimal digits and its
    letter, or nothing. *)
Definition group_text (g : option uint) (letter : ascii) : string :=
  match g with
  | Some u => NilEmpty.string_of_uint u ++ String letter EmptyString
  | None => EmptyString
  end.




Definition stops (s : string) : Prop :=
  match s with
  | String c _ => is_digit c = false
  | EmptyString => True
  end.



End CompactForm.

(** [a] may stand before [b] in a list sorted by a key, largest first. *)
Definition descending {A : Type} (key : A -> Q) (a b : A) : Prop :=
  (key b <= key a)%Q.

(** The publish date of the video is one the platform can parse. *)
Definition dated (Date_getTime : string -> option Z) (v : ScoredVideo.t) : Prop :=
  Date_getTime (YouTubeVideo.publishedAt (ScoredVideo.video v)) <> None.

(** The popularity score of the video is a number. *)
Definition scored (v : ScoredVideo.t) : Prop :=
  ScoredVideo.popularityScore v <> None.

Definition number_of (n : option Z) : Q :=
  match n with Some z => inject_Z z | None => 0 end.

Section Aggregator.
Import Js YoutubeService.
Variable Date_getTime : string -> option Z.

(** What the pass over the search results has built after the items
    [seen]. *)
Definition collected (seen : list SearchItem.t)
           (acc : list string * list (string * string)) : Prop :=
  NoDup (fst acc) /\ map fst (snd acc) = fst acc /\
  forall c, Map_get (snd acc) c = first_video seen c.

(** The results, before they are sorted. *)
Definition unranked cutoff videoMap videoDetails chItems :=
  flat_map (fun item =>
              match pushed Date_getTime cutoff videoMap
                           (videoDetailsMapOf videoDetails) item with
              | Some y => [y]
              | None => []
              end) chItems.

(** The output and the calls of [findRisingChannels], case by case: the
    output is empty, or it is the ranking of the channels the channel
    lookup answered with. *)
Definition outcome (remote : Remote) (now : Clock) (apiKey query categoryId : string)
           (period : RisingPeriod) (region : RegionCode)
           (videoType : VideoTypeFilter)
  : list RisingChannelResult * list Request :=
  let search := searchCall now apiKey query categoryId period region videoType in
  match remote _ search with
  | None => ([], [request_of search])
  | Some items =>
      match firstn 40 (fst (collect items)) with
      | [] => ([], [request_of search])
      | channelIds =>
          match remote _ (Channels apiKey channelIds) with
          | None => ([], [request_of search; ChannelsRequest apiKey channelIds])
          | Some chItems =>
              let (videoDetails, calls) :=
                run remote
                    (getVideoDetails apiKey
                       (join "," (Map_values (snd (collect items))))) in
              (rank Date_getTime (channelCreationCutoff period now)
                    (snd (collect items)) videoDetails chItems,
               request_of search :: ChannelsRequest apiKey channelIds :: calls)
          end
      end
  end.

End Aggregator.

(** * More of the code

    The rest of the data-shaping code: the obfuscation of the stored keys
    and the duration text of [utils.ts]; the metrics, the list shown and
    the export of the channel view; the list shown of the keyword view;
    the charts of [components/DashboardCharts.tsx]; the local statistics
    of [services/geminiService.ts]; the video search and the uploads of a
    channel of [services/youtubeService.ts].  The conventions are the ones
    stated at the head of the file. *)

(** ** utils.ts: the stored keys

    [encryptKey] and [decryptKey] look at the UTF-16 code units of their
    argument, so here a JavaScript string is the list of its code
    units. *)

Module KeyStore.

Definition JsString := list Z.

(** Every element is a code unit. *)
Definition code_units (s : JsString) : Prop :=
  Forall (fun c => 0 <= c < 65536) s.

(** Every element is a Latin-1 character, one [btoa] accepts. *)
Definition latin1 (s : JsString) : Prop :=
  Forall (fun c => 0 <= c <= 255) s.

(** [String.fromCharCode(x)] for one argument. *)
Definition fromCharCode (x : Z) : Z := x mod 65536.

(** The character of a group of six bits: [A-Z], [a-z], [0-9], [+], [/]. *)
Definition base64_char (sextet : Z) : Z :=
  if sextet <? 26 then 65 + sextet
  else if sextet <? 52 then 97 + (sextet - 26)
  else if sextet <? 62 then 48 + (sextet - 52)
  else if sextet =? 62 then 43
  else 47.

Definition base64_value (c : Z) : option Z :=
  if (65 <=? c) && (c <=? 90) then Some (c - 65)
  else if (97 <=? c) && (c <=? 122) then Some (c - 97 + 26)
  else if (48 <=? c) && (c <=? 57) then Some (c - 48 + 52)
  else if c =? 43 then Some 62
  else if c =? 47 then Some 63
  else None.

Definition pad : Z := 61.

(** Three bytes give four characters; one or two bytes at the end are
    padded. *)
Fixpoint base64_encode (bytes : list Z) : JsString :=
  match bytes with
  | a :: b :: c :: rest =>
      base64_char (a / 4)
      :: base64_char ((a mod 4) * 16 + b / 16)
      :: base64_char ((b mod 16) * 4 + c / 64)
      :: base64_char (c mod 64)
      :: base64_encode rest
  | [a; b] =>
      [ base64_char (a / 4); base64_char ((a mod 4) * 16 + b / 16);
        base64_char ((b mod 16) * 4); pad ]
  | [a] => [ base64_char (a / 4); base64_char ((a mod 4) * 16); pad; pad ]
  | [] => []
  end.

(** [btoa(s)]; [None] for the [InvalidCharacterError] it throws when a
    code unit is above 255. *)
Definition btoa (s : JsString) : option JsString :=
  if forallb (fun c => c <=? 255) s then Some (base64_encode s) else None.

Definition is_ascii_whitespace (c : Z) : bool :=
  (c =? 9) || (c =? 10) || (c =? 12) || (c =? 13) || (c =? 32).

(** One or two [=] at the end are removed. *)
Definition strip_padding (data : JsString) : JsString :=
  match rev data with
  | p1 :: p2 :: r =>
      if p1 =? pad then (if p2 =? pad then rev r else rev (p2 :: r)) else data
  | [p1] => if p1 =? pad then [] else data
  | [] => data
  end.

Fixpoint base64_values (data : JsString) : option (list Z) :=
  match data with
  | c :: rest =>
      match base64_value c, base64_values rest with
      | Some v, Some vs => Some (v :: vs)
      | _, _ => None
      end
  | [] => Some []
  end.

(** Four groups of six bits give three bytes; at the end two groups give
    one byte and three give two, the bits left over being dropped. *)
Fixpoint base64_decode (sextets : list Z) : list Z :=
  match sextets with
  | a :: b :: c :: d :: rest =>
      (a * 4 + b / 16) :: ((b mod 16) * 16 + c / 4) :: ((c mod 4) * 64 + d)
      :: base64_decode rest
  | [a; b; c] => [ a * 4 + b / 16; (b mod 16) * 16 + c / 4 ]
  | [a; b] => [ a * 4 + b / 16 ]
  | _ => []
  end.

(** [atob(data)] (the forgiving decoding of the platform); [None] for the
    error it throws. *)
Definition atob (data : JsString) : option JsString :=
  let data := filter (fun c => negb (is_ascii_whitespace c)) data in
  let data :=
    if (Z.of_nat (List.length data) mod 4 =? 0) then strip_padding data
    else data in
  if Z.of_nat (List.length data) mod 4 =? 1 then None
  else option_map base64_decode (base64_values data).

(** [key.split('').map(char => String.fromCharCode(char.charCodeAt(0) ^ 123)).join('')] *)
Definition mask (s : JsString) : JsString :=
  map (fun c => fromCharCode (Z.lxor c 123)) s.

(** [encryptKey]: the empty string when [btoa] throws. *)
Definition encryptKey (key : JsString) : JsString :=
  match btoa (mask key) with
  | Some cipher => cipher
  | None => []
  end.

(** [decryptKey]: the empty string when [atob] throws. *)
Definition decryptKey (cipher : JsString) : JsString :=
  match atob cipher with
  | Some text => mask text
  | None => []
  end.

(** The groups of six bits of a run of bytes, and the padding that
    follows their characters. *)
Fixpoint sextets (bytes : list Z) : list Z :=
  match bytes with
  | a :: b :: c :: rest =>
      a / 4 :: (a mod 4) * 16 + b / 16 :: (b mod 16) * 4 + c / 64 :: c mod 64
      :: sextets rest
  | [a; b] => [ a / 4; (a mod 4) * 16 + b / 16; (b mod 16) * 4 ]
  | [a] => [ a / 4; (a mod 4) * 16 ]
  | [] => []
  end.

Fixpoint padding (bytes : list Z) : JsString :=
  match bytes with
  | _ :: _ :: _ :: rest => padding rest
  | [_; _] => [pad]
  | [_] => [pad; pad]
  | [] => []
  end.

(** A character [atob] rejects wherever it stands. *)
Definition foreign (c : Z) : Prop :=
  is_ascii_whitespace c = false /\ c <> pad /\ base64_value c = None.

End KeyStore.

(** ** utils.ts: [formatDurationKR] *)

Module Duration.

(** [Math.trunc], which the remainder of two numbers is defined with. *)
Definition trunc (x : Q) : Z := if Qle_bool 0 x then Qfloor x else Qceiling x.

(** [a % b] on numbers, for a [b] that is not zero: the sign is the one
    of [a]. *)
Definition rem (a b : Q) : Q := (a - b * inject_Z (trunc (a / b)))%Q.

Definition ms_per_hour : Q := inject_Z (1000 * 60 * 60).
Definition ms_per_day : Q := inject_Z (1000 * 60 * 60 * 24).

(** [days] and [hours] of [formatDurationKR]. *)
Definition parts (ms : Q) : Z * Z :=
  (Qfloor (ms / ms_per_day), Qfloor (rem ms ms_per_day / ms_per_hour)).

(** [`${n}`] for an integer of fewer than 22 digits (the platform writes
    larger ones with an exponent). *)
Definition show (n : Z) : string := DecimalString.NilZero.string_of_int (Z.to_int n).

Definition formatDurationKR (ms : Q) : string :=
  let (days, hours) := parts ms in
  if 0 <? days then show days ++ "일 " ++ show hours ++ "시간"
  else show hours ++ "시간".

End Duration.

(** ** Derived data of the channel view *)

Module ChannelView.
Import Js.

Module Metrics.
Record t := {
  firstUpload : string;
  avgCycle : number;
  recentCycle : number
}.
End Metrics.

(** What the computation of the metrics ends in: [null], the metrics, or
    the [TypeError] of a property read on [undefined]. *)
Inductive Result := Null | Value (m : Metrics.t) | TypeError.

Section WithDates.
Variable Date_getTime : string -> option Z.

Definition time (publishedAt : string) : number :=
  of_maybe_int (Date_getTime publishedAt).

Definition byDate (a b : YouTubeVideo.t) : number :=
  minus (time (YouTubeVideo.publishedAt b)) (time (YouTubeVideo.publishedAt a)).

(** [a / n] where [n] is a count that is at least 1. *)
Definition per (a : number) (n : Z) : number :=
  option_map (fun x => x / inject_Z n)%Q a.

Definition channelMetrics (videos : list YouTubeVideo.t) : Result :=
  if (List.length videos =? 0)%nat then Null
  else
    let sortedByDate := sort byDate videos in
    match nth_error sortedByDate (List.length sortedByDate - 1),
          nth_error sortedByDate 0 with
    | Some oldest, Some newest =>
        let firstUpload := YouTubeVideo.publishedAt oldest in
        let lastUpload := YouTubeVideo.publishedAt newest in
        let totalDuration := minus (time lastUpload) (time firstUpload) in
        let avgCycle :=
          if (1 <? List.length videos)%nat
          then per totalDuration (Z.of_nat (List.length videos) - 1)
          else of_int 0 in
        if (1 <? List.length videos)%nat then
          match nth_error sortedByDate 1 with
          | Some second =>
              Value {| Metrics.firstUpload := firstUpload;
                       Metrics.avgCycle := avgCycle;
                       Metrics.recentCycle :=
                         minus (time (YouTubeVideo.publishedAt newest))
                               (time (YouTubeVideo.publishedAt second)) |}
          | None => TypeError
          end
        else
          Value {| Metrics.firstUpload := firstUpload;
                   Metrics.avgCycle := avgCycle;
                   Metrics.recentCycle := of_int 0 |}
    | _, _ => TypeError
    end.

(** [sortedVideos.slice(0, displayCount)]; the count is one of the
    numbers of the count buttons. *)
Definition displayVideos (sortedVideos : list ScoredVideo.t) (displayCount : nat)
  : list ScoredVideo.t :=
  firstn displayCount sortedVideos.

End WithDates.
End ChannelView.

Module KeywordView.

(** [processedVideos.slice(0, displayCount)]. *)
Definition displayVideos (processedVideos : list ScoredVideo.t) (displayCount : nat)
  : list ScoredVideo.t :=
  firstn displayCount processedVideos.

End KeywordView.

(** ** The charts of the dashboard *)

Module DashboardCharts.
Import Js.

Module Bar.
Record t := {
  name : string;
  likes : Z;
  comments : Z
}.
End Bar.

Definition byLikes (a b : YouTubeVideo.t) : number :=
  minus (of_int (YouTubeVideo.likeCount b)) (of_int (YouTubeVideo.likeCount a)).

(** The [data] of [EngagementChart]. *)
Definition EngagementChart (videos : list YouTubeVideo.t) : list Bar.t :=
  map (fun v => {| Bar.name := YouTubeVideo.title v;
                   Bar.likes := YouTubeVideo.likeCount v;
                   Bar.comments := YouTubeVideo.commentCount v |})
      (firstn 15 (sort byLikes videos)).

Definition shortsCount (videos : list YouTubeVideo.t) : Z :=
  Z.of_nat
    (List.length
       (filter (fun v => Utils.parseDuration (YouTubeVideo.duration v) <? 180)
               videos)).

Definition regularCount (videos : list YouTubeVideo.t) : Z :=
  Z.of_nat (List.length videos) - shortsCount videos.

(** The [data] of [VideoFormatChart]. *)
Definition VideoFormatChart (videos : list YouTubeVideo.t) : list (string * Z) :=
  [ ("쇼츠 (3분 미만)", shortsCount videos);
    ("일반 영상", regularCount videos) ].

End DashboardCharts.

(** ** Notions of the statements on the lists shown *)

(** The elements of [l] whose key is larger than that of [x]. *)
Definition above {A : Type} (key : A -> Q) (x : A) (l : list A) : list A :=
  filter (fun y => negb (Qle_bool (key y) (key x))) l.

(** The key by which a sort option of the channel view orders. *)
Definition channelKey (Date_getTime : string -> option Z)
           (sortOption : ChannelAnalysis.SortOption) (v : ScoredVideo.t) : Q :=
  match sortOption with
  | ChannelAnalysis.popularity => number_of (ScoredVideo.popularityScore v)
  | ChannelAnalysis.views => inject_Z (YouTubeVideo.viewCount (ScoredVideo.video v))
  | ChannelAnalysis.date_desc =>
      number_of (Date_getTime (YouTubeVideo.publishedAt (ScoredVideo.video v)))
  | ChannelAnalysis.date_asc =>
      - number_of (Date_getTime (YouTubeVideo.publishedAt (ScoredVideo.video v)))
  end.

(** The key by which a sort option of the keyword view orders. *)
Definition keywordKey (Date_getTime : string -> option Z)
           (sortOption : KeywordAnalysis.SortOption) (v : ScoredVideo.t) : Q :=
  match sortOption with
  | KeywordAnalysis.popularity => number_of (ScoredVideo.popularityScore v)
  | KeywordAnalysis.views => inject_Z (YouTubeVideo.viewCount (ScoredVideo.video v))
  | KeywordAnalysis.date =>
      number_of (Date_getTime (YouTubeVideo.publishedAt (ScoredVideo.video v)))
  end.


(** The key by which the engagement chart orders. *)
Definition likesKey (v : YouTubeVideo.t) : Q := inject_Z (YouTubeVideo.likeCount v).

(** ** Doubles that hold integers

    Where a sum of counts may leave the range in which the integers are
    exact, a number is a double: not a number, an infinity, or a finite
    value. *)

Module Double.

Inductive t (A : Type) : Type :=
| NaN
| Infinity (negative : bool)
| Finite (x : A).

Arguments NaN {A}.
Arguments Infinity {A} negative.
Arguments Finite {A} x.

(** The integer that is a double and is nearest to [z], the one with the
    even significand of 53 bits when two are as near, as if the exponent
    had no bound. *)
Definition nearest (z : Z) : Z :=
  let a := Z.abs z in
  if a <=? 2 ^ 53 then z
  else
    let ulp := 2 ^ (Z.log2 a - 52) in
    let q := a / ulp in
    let r := a mod ulp in
    let q' :=
      if 2 * r <? ulp then q
      else if ulp <? 2 * r then q + 1
      else if Z.even q then q else q + 1 in
    Z.sgn z * (q' * ulp).

(** The double of an integer; from 2^1024 on the nearest is an infinity. *)
Definition of_Z (z : Z) : t Z :=
  if 2 ^ 1024 <=? Z.abs (nearest z) then Infinity (z <? 0)
  else Finite (nearest z).

(** The double that [parseInt] returns for the integer it read. *)
Definition of_parsed (n : option Z) : t Z :=
  match n with
  | Some z => of_Z z
  | None => NaN
  end.

End Double.

(** ** The local statistics of the opportunity analysis *)

Module GeminiService.
Import Js.

(** [parseInt(v.viewCount || '0')] on a video record, whose count is a
    number: a count that is not zero is made a text and parsed. *)
Definition viewsOf (v : YouTubeVideo.t) : option Z :=
  parseInt (if truthy (YouTubeVideo.viewCount v)
            then Duration.show (YouTubeVideo.viewCount v)
            else "0").

(** [a + b] on numbers that hold integers: the sum of two integers is
    rounded to a double. *)
Definition plus (a b : Double.t Z) : Double.t Z :=
  match a, b with
  | Double.NaN, _ | _, Double.NaN => Double.NaN
  | Double.Infinity s, Double.Infinity s' =>
      if Bool.eqb s s' then Double.Infinity s else Double.NaN
  | Double.Infinity s, Double.Finite _ => Double.Infinity s
  | Double.Finite _, Double.Infinity s => Double.Infinity s
  | Double.Finite x, Double.Finite y => Double.of_Z (x + y)
  end.

Definition totalViews (videos : list YouTubeVideo.t) : Double.t Z :=
  fold_left (fun acc v => plus acc (Double.of_parsed (viewsOf v))) videos
            (Double.Finite 0).



Definition byValue (a b : option Z) : number :=
  minus (of_maybe_int a) (of_maybe_int b).

Definition sortedViews (videos : list YouTubeVideo.t) : list (option Z) :=
  sort byValue (map viewsOf videos).

(** [None] is [undefined], the value of an index out of range. *)
Definition medianViews (videos : list YouTubeVideo.t) : option (option Z) :=
  if (0 <? List.length (sortedViews videos))%nat
  then nth_error (sortedViews videos) (List.length (sortedViews videos) / 2)
  else Some (Some 0).

End GeminiService.


(** The count is written with digits alone, as the platform writes a
    number below 10^21 in size. *)
Definition plain_count (v : YouTubeVideo.t) : Prop :=
  Z.abs (YouTubeVideo.viewCount v) < 10 ^ 21.

(** The key of the ascending order of numbers. *)
Definition valueKey (o : option Z) : Q := - number_of o.

(** ** Notions of the statements on the service *)

(** The text of a count is not written with a minus sign, and the integer
    it is parsed to, if any, is in the range in which doubles are exact. *)
Definition unsigned (s : string) : Prop :=
  fst (Js.strip_sign (Js.skip_spaces s)) = false.

Definition safe_text (s : string) : Prop :=
  forall v, Js.parseInt s = Some v -> safe v.

Definition count_text (s : string) : Prop := unsigned s /\ safe_text s.

Definition count_texts (item : VideoItem.t) : Prop :=
  count_text (VideoItem.viewCount item) /\ count_text (VideoItem.likeCount item) /\
  count_text (VideoItem.commentCount item).


(** A duration with a part of days, [PnDT[nH][nM][nS]]. *)
Definition day_form (d : Decimal.uint) (h m s : option Decimal.uint) : string :=
  "P" ++ DecimalString.NilEmpty.string_of_uint d ++ "DT"
      ++ CompactForm.group_text h "H" ++ CompactForm.group_text m "M"
      ++ CompactForm.group_text s "S".

(** No character of the text is the letter [P]. *)
Fixpoint no_P (s : string) : bool :=
  match s with
  | String c s' => negb (Ascii.eqb c "P") && no_P s'
  | EmptyString => true
  end.

(** The counts of a video record are in the range in which doubles are
    exact. *)
Definition safe_counts (v : YouTubeVideo.t) : Prop :=
  safe (YouTubeVideo.viewCount v) /\ safe (YouTubeVideo.likeCount v) /\
  safe (YouTubeVideo.commentCount v).

(** ** The export of the channel view *)

Module ChannelExport.
Import Utils.

(** The object of a scored video: the properties of the video record in
    the order in which [getVideoDetails] writes them, then the score. *)
Definition asObj (v : ScoredVideo.t) : Obj :=
  [ ("id", VString (YouTubeVideo.id (ScoredVideo.video v)));
    ("title", VString (YouTubeVideo.title (ScoredVideo.video v)));
    ("description", VString (YouTubeVideo.description (ScoredVideo.video v)));
    ("thumbnail", VString (YouTubeVideo.thumbnail (ScoredVideo.video v)));
    ("publishedAt", VString (YouTubeVideo.publishedAt (ScoredVideo.video v)));
    ("channelId", VString (YouTubeVideo.channelId (ScoredVideo.video v)));
    ("channelTitle", VString (YouTubeVideo.channelTitle (ScoredVideo.video v)));
    ("viewCount", VNumber (YouTubeVideo.viewCount (ScoredVideo.video v)));
    ("likeCount", VNumber (YouTubeVideo.likeCount (ScoredVideo.video v)));
    ("commentCount", VNumber (YouTubeVideo.commentCount (ScoredVideo.video v)));
    ("duration", VString (YouTubeVideo.duration (ScoredVideo.video v)));
    ("tags", VArray (YouTubeVideo.tags (ScoredVideo.video v)));
    ("popularityScore",
     match ScoredVideo.popularityScore v with
     | Some score => VNumber score
     | None => VString "NaN"
     end) ].

(** [downloadCSV(processedVideos, `${channel.title}_analysis`)], for the
    scored list that the view holds. *)
Definition exportCSV (processedVideos : list ScoredVideo.t) (channelTitle : string)
  : option (string * string) :=
  downloadCSV (map asObj processedVideos) (channelTitle ++ "_analysis").

(** The numbers of a row are integers in the range in which doubles are
    exact, which the platform writes with all their digits. *)
Definition plain_numbers (v : ScoredVideo.t) : Prop :=
  safe_counts (ScoredVideo.video v) /\
  forall score, ScoredVideo.popularityScore v = Some score -> safe score.

(** The names of the columns. *)
Definition columns : list string :=
  [ "id"; "title"; "description"; "thumbnail"; "publishedAt"; "channelId";
    "channelTitle"; "viewCount"; "likeCount"; "commentCount"; "duration";
    "tags"; "popularityScore" ].

(** The texts of a row. *)
Definition cells (v : ScoredVideo.t) : list string :=
  [ YouTubeVideo.id (ScoredVideo.video v);
    YouTubeVideo.title (ScoredVideo.video v);
    YouTubeVideo.description (ScoredVideo.video v);
    YouTubeVideo.thumbnail (ScoredVideo.video v);
    YouTubeVideo.publishedAt (ScoredVideo.video v);
    YouTubeVideo.channelId (ScoredVideo.video v);
    YouTubeVideo.channelTitle (ScoredVideo.video v);
    Duration.show (YouTubeVideo.viewCount (ScoredVideo.video v));
    Duration.show (YouTubeVideo.likeCount (ScoredVideo.video v));
    Duration.show (YouTubeVideo.commentCount (ScoredVideo.video v));
    YouTubeVideo.duration (ScoredVideo.video v);
    Js.join "," (YouTubeVideo.tags (ScoredVideo.video v));
    match ScoredVideo.popularityScore v with
    | Some score => Duration.show score
    | None => "NaN"
    end ].

End ChannelExport.

(** ** The video search and the uploads of a channel *)

Module Gateway.
Import Js.

(** The parameters of the search for videos that vary. *)
Record VideoSearchParams := {
  q : string;
  maxResults : Z;
  regionCode : option RegionCode;
  videoDuration : option string;
  videoCategoryId : option string
}.

(** The calls of these functions, with the [items] each answers with
    ([None] when the response has none): the search answers with the ids
    of the videos found, the lookup of the content of a channel with the
    ids of the uploads playlists of the channels found, the items of a
    playlist with the ids of their videos.  The calls of the aggregator
    are among them. *)
Inductive Endpoint : Type -> Type :=
| Core {R : Type} (c : Call R) : Endpoint R
| VideoSearch (apiKey : string) (params : VideoSearchParams)
  : Endpoint (option (list string))
| ChannelContent (apiKey channelId : string)
  : Endpoint (option (list string))
| PlaylistItems (apiKey playlistId : string) (maxResults : Z)
  : Endpoint (option (list string)).

Inductive Task (A : Type) : Type :=
| Done (a : A)
| Await {R : Type} (c : Endpoint R) (k : R -> Task A).

Arguments Done {A} a.
Arguments Await {A R} c k.

Fixpoint andThen {A B} (p : Task A) (f : A -> Task B) : Task B :=
  match p with
  | Done a => f a
  | Await c k => Await c (fun r => andThen (k r) f)
  end.

(** A computation of the aggregator's module, called from here. *)
Fixpoint core {A} (p : Prog A) : Task A :=
  match p with
  | Ret a => Done a
  | Fetch c k => Await (Core c) (fun r => core (k r))
  end.

Definition Server := forall R, Endpoint R -> R.

Inductive Sent :=
| CoreSent (request : Request)
| VideoSearchSent (apiKey : string) (params : VideoSearchParams)
| ChannelContentSent (apiKey channelId : string)
| PlaylistItemsSent (apiKey playlistId : string) (maxResults : Z).

Definition sent_of {R} (c : Endpoint R) : Sent :=
  match c with
  | Core c => CoreSent (request_of c)
  | VideoSearch apiKey params => VideoSearchSent apiKey params
  | ChannelContent apiKey channelId => ChannelContentSent apiKey channelId
  | PlaylistItems apiKey playlistId maxResults =>
      PlaylistItemsSent apiKey playlistId maxResults
  end.

(** The result of a computation and the calls it issued, in order. *)
Fixpoint perform {A} (server : Server) (p : Task A) : A * list Sent :=
  match p with
  | Done a => (a, [])
  | Await c k =>
      let (a, calls) := perform server (k (server _ c)) in
      (a, sent_of c :: calls)
  end.

Definition videoSearchParams (query : string) (maxResults : Z)
           (region : RegionCode) (shortsOnly : bool)
           (categoryId : option string) : VideoSearchParams :=
  {| q := query;
     maxResults := maxResults;
     regionCode := match region with Global => None | r => Some r end;
     videoDuration := if shortsOnly then Some "short" else None;
     videoCategoryId :=
       match categoryId with
       | Some c => if nonempty c then Some c else None
       | None => None
       end |}.

Definition searchVideosByKeyword (apiKey query : string) (maxResults : Z)
           (region : RegionCode) (shortsOnly : bool)
           (categoryId : option string) : Task (list YouTubeVideo.t) :=
  Await (VideoSearch apiKey
           (videoSearchParams query maxResults region shortsOnly categoryId))
    (fun items =>
       match items with
       | None => Done []
       | Some items =>
           let videoIds := join "," items in
           andThen (core (YoutubeService.getVideoDetails apiKey videoIds))
             (fun videos =>
                Done (if shortsOnly
                      then filter (fun v =>
                                     Utils.parseDuration (YouTubeVideo.duration v)
                                     <? 180) videos
                      else videos))
       end).

Definition getChannelVideos (apiKey channelId : string) (maxResults : Z)
  : Task (list YouTubeVideo.t) :=
  Await (ChannelContent apiKey channelId)
    (fun chItems =>
       match chItems with
       | None | Some [] => Done []
       | Some (uploadsPlaylistId :: _) =>
           Await (PlaylistItems apiKey uploadsPlaylistId maxResults)
             (fun plItems =>
                match plItems with
                | None => Done []
                | Some items =>
                    let videoIds := join "," items in
                    core (YoutubeService.getVideoDetails apiKey videoIds)
                end)
       end).

End Gateway.

(** * Properties *)

(** ** Strings *)

Lemma append_assoc (a b c : string) : (a ++ b) ++ c = a ++ (b ++ c).
Proof. induction a as [|x a IH]; simpl; [reflexivity | now rewrite IH]. Qed.

Lemma append_empty_r (a : string) : a ++ EmptyString = a.
Proof. induction a as [|x a IH]; simpl; [reflexivity | now rewrite IH]. Qed.

(** ** The duration parser *)

Module DurationFacts.
Import Js Utils CompactForm.
Import Decimal DecimalString.

Lemma read_digits_step c d a s :
  dec_value c = Some d ->
  read_digits dec_value 10 a (String c s)
  = read_digits dec_value 10
      (Some (match a with Some a' => a' * 10 + d | None => d end)) s.
Proof. intros H. simpl. now rewrite H. Qed.

Lemma read_digits_stop a rest :
  stops rest -> read_digits dec_value 10 a rest = a.
Proof.
  destruct rest as [|c r]; simpl; [reflexivity|].
  intros H. unfold dec_value. now rewrite H.
Qed.

Ltac eat_digit := erewrite read_digits_step by (vm_compute; reflexivity).

Lemma read_digits_acc u a rest :
  stops rest -> 0 < a ->
  read_digits dec_value 10 (Some a) (NilEmpty.string_of_uint u ++ rest)
  = Some (Zpos (Pos.of_uint_acc u (Z.to_pos a))).
Proof.
  intros Hrest. revert a.
  induction u; intros a Ha;
    cbn [NilEmpty.string_of_uint append Pos.of_uint_acc];
    try (eat_digit; rewrite IHu by lia; do 3 f_equal; lia).
  rewrite read_digits_stop by assumption. f_equal. lia.
Qed.

Lemma read_digits_zero u rest :
  stops rest ->
  read_digits dec_value 10 (Some 0) (NilEmpty.string_of_uint u ++ rest)
  = Some (Z.of_N (Pos.of_uint u)).
Proof.
  intros Hrest.
  induction u;
    cbn [NilEmpty.string_of_uint append Pos.of_uint];
    try eat_digit;
    try exact IHu;
    try (now rewrite read_digits_acc by (assumption || lia)).
  now rewrite read_digits_stop.
Qed.

Lemma read_digits_uint u rest :
  u <> Nil -> stops rest ->
  read_digits dec_value 10 None (NilEmpty.string_of_uint u ++ rest)
  = Some (Z.of_N (N.of_uint u)).
Proof.
  intros Hu Hrest. unfold N.of_uint.
  destruct u; try congruence;
    cbn [NilEmpty.string_of_uint append Pos.of_uint];
    eat_digit;
    try (now rewrite read_digits_acc by (assumption || lia)).
  now apply read_digits_zero.
Qed.

Lemma is_digit_not_space c : is_digit c = true -> is_space c = false.
Proof.
  unfold is_digit, is_space. intros H.
  apply andb_true_iff in H. destruct H as [H _]. apply Nat.leb_le in H.
  apply orb_false_iff. split.
  - apply Nat.eqb_neq. lia.
  - apply andb_false_iff. right. apply Nat.leb_gt. lia.
Qed.

(** A character of one byte that is not white space ends the skipping. *)
Lemma skip_spaces_ascii c s :
  (nat_of_ascii c < 128)%nat -> is_space c = false ->
  skip_spaces (String c s) = String c s.
Proof.
  intros Hc Hs. cbn [skip_spaces]. rewrite Hs.
  assert (H2 : forall c1, is_space2 c c1 = false).
  { intros c1. unfold is_space2.
    replace (nat_of_ascii c =? 194)%nat with false; [reflexivity|].
    symmetry. apply Nat.eqb_neq. lia. }
  assert (H3 : forall c1 c2, is_space3 c c1 c2 = false).
  { intros c1 c2. unfold is_space3. cbv zeta.
    replace (nat_of_ascii c =? 225)%nat with false
      by (symmetry; apply Nat.eqb_neq; lia).
    replace (nat_of_ascii c =? 226)%nat with false
      by (symmetry; apply Nat.eqb_neq; lia).
    replace (nat_of_ascii c =? 227)%nat with false
      by (symmetry; apply Nat.eqb_neq; lia).
    replace (nat_of_ascii c =? 239)%nat with false
      by (symmetry; apply Nat.eqb_neq; lia).
    reflexivity. }
  destruct s as [|c1 [|c2 s3]]; try reflexivity.
  - now rewrite H2.
  - now rewrite H2, H3.
Qed.

Lemma skip_spaces_digit c s :
  is_digit c = true -> skip_spaces (String c s) = String c s.
Proof.
  intros Hc. apply skip_spaces_ascii; [|now apply is_digit_not_space].
  unfold is_digit in Hc. apply andb_true_iff in Hc. destruct Hc as [_ Hc].
  apply Nat.leb_le in Hc. lia.
Qed.

(** The no-break space, U+00A0, is white space for [parseInt]. *)
Lemma parseInt_no_break_space :
  parseInt (String "194" (String "160" "5")) = Some 5 /\
  parseInt (String "194" (String "160" "-5")) = Some (-5).
Proof. split; reflexivity. Qed.

Lemma is_digit_neq c x : is_digit c = true -> is_digit x = false -> Ascii.eqb c x = false.
Proof. intros Hc Hx. apply Ascii.eqb_neq. intros ->. congruence. Qed.

Lemma digit_value_nonneg c : is_digit c = true -> 0 <= digit_value c.
Proof.
  unfold is_digit, digit_value. intros H.
  apply andb_true_iff in H. destruct H as [H _]. apply Nat.leb_le in H. lia.
Qed.

Lemma dec_value_nonneg c d : dec_value c = Some d -> 0 <= d.
Proof.
  unfold dec_value. destruct (is_digit c) eqn:E; [|discriminate].
  intros [= <-]. now apply digit_value_nonneg.
Qed.

Lemma hex_value_nonneg c d : hex_value c = Some d -> 0 <= d.
Proof.
  unfold hex_value. cbv zeta. destruct (is_digit c) eqn:E.
  - intros [= <-]. now apply digit_value_nonneg.
  - destruct ((97 <=? nat_of_ascii c)%nat && _) eqn:E1.
    + intros [= <-]. apply andb_true_iff in E1. destruct E1 as [E1 _].
      apply Nat.leb_le in E1. lia.
    + destruct ((65 <=? nat_of_ascii c)%nat && _) eqn:E2; [|discriminate].
      intros [= <-]. apply andb_true_iff in E2. destruct E2 as [E2 _].
      apply Nat.leb_le in E2. lia.
Qed.

Lemma read_digits_nonneg value radix :
  0 <= radix -> (forall c d, value c = Some d -> 0 <= d) ->
  forall s acc v,
    (forall a, acc = Some a -> 0 <= a) ->
    read_digits value radix acc s = Some v -> 0 <= v.
Proof.
  intros Hr Hv. induction s as [|c s IH]; intros acc v Hacc; simpl.
  - intros ->. now apply Hacc.
  - destruct (value c) as [d|] eqn:E.
    + apply IH. intros a [= <-]. specialize (Hv _ _ E).
      destruct acc as [a'|]; [|assumption].
      specialize (Hacc _ eq_refl). nia.
    + intros ->. now apply Hacc.
Qed.


Lemma or_default_nonneg n : (forall v, n = Some v -> 0 <= v) -> 0 <= or_default n 0.
Proof.
  intros H. unfold or_default. destruct n as [v|]; [|lia].
  destruct (truthy v); [now apply H | lia].
Qed.







(** *** Texts in the compact form *)

Lemma string_of_uint_digits u :
  u <> Nil ->
  exists d ds, NilEmpty.string_of_uint u = String d ds /\ is_digit d = true.
Proof.
  destruct u; try congruence; intros _;
    cbn [NilEmpty.string_of_uint]; eexists _, _; split; reflexivity.
Qed.








End DurationFacts.

(** ** Sorting with a comparator that orders by a key, largest first *)

Section SortFacts.
Import Js.
Context {A : Type}.
Variable compareFn : A -> A -> number.
(** The elements on which the comparator is a number. *)
Variable ok : A -> Prop.
Variable key : A -> Q.
Hypothesis compare_key :
  forall a b, ok a -> ok b ->
    exists d, compareFn a b = Some d /\ (d == key b - key a)%Q.

Lemma after_true a b :
  ok a -> ok b -> after compareFn a b = true -> (key a < key b)%Q.
Proof.
  intros Ha Hb. unfold after.
  destruct (compare_key a b Ha Hb) as (d & -> & Hd).
  intros H. apply negb_true_iff in H.
  destruct (Qlt_le_dec 0 d) as [L|L]; [lra|].
  apply Qle_bool_iff in L. congruence.
Qed.

Lemma after_false a b :
  ok a -> ok b -> after compareFn a b = false -> (key b <= key a)%Q.
Proof.
  intros Ha Hb. unfold after.
  destruct (compare_key a b Ha Hb) as (d & -> & Hd).
  intros H. apply negb_false_iff, Qle_bool_iff in H. lra.
Qed.

Lemma insert_perm x l : Permutation (insert compareFn x l) (x :: l).
Proof.
  induction l as [|y l IH]; simpl; [reflexivity|].
  destruct (after compareFn x y); [|reflexivity].
  rewrite IH. apply perm_swap.
Qed.

Lemma sort_perm l : Permutation (sort compareFn l) l.
Proof.
  induction l as [|x l IH]; simpl; [reflexivity|].
  rewrite insert_perm. now constructor.
Qed.

Lemma sort_ok l : Forall ok l -> Forall ok (sort compareFn l).
Proof. intros H. eapply Permutation_Forall; [symmetry; apply sort_perm | exact H]. Qed.

Lemma insert_sorted x l :
  ok x -> Forall ok l ->
  StronglySorted (descending key) l ->
  StronglySorted (descending key) (insert compareFn x l).
Proof.
  intros Hx Hl Hs. induction Hs as [|y l Hs IH Hy]; simpl.
  - repeat constructor.
  - inversion Hl as [|? ? Hoky Hokl]; subst.
    destruct (after compareFn x y) eqn:E.
    + constructor; [now apply IH|].
      eapply Permutation_Forall; [symmetry; apply insert_perm|].
      constructor; [|exact Hy].
      apply after_true in E; trivial. unfold descending. lra.
    + apply after_false in E; trivial.
      constructor; [now constructor|].
      constructor; [exact E|].
      eapply Forall_impl; [|exact Hy]. unfold descending. intros z Hz. lra.
Qed.

Lemma sort_sorted l : Forall ok l -> StronglySorted (descending key) (sort compareFn l).
Proof.
  induction 1 as [|x l Hx Hl IH]; simpl; [constructor|].
  apply insert_sorted; auto using sort_ok.
Qed.

(** An element that is not smaller than the head goes to the front. *)
Lemma insert_front x l :
  ok x -> Forall ok l -> Forall (descending key x) l ->
  insert compareFn x l = x :: l.
Proof.
  intros Hx Hl Hd. destruct l as [|y l]; simpl; [reflexivity|].
  inversion Hl; inversion Hd; subst.
  destruct (after compareFn x y) eqn:E; [|reflexivity].
  apply after_true in E; trivial. unfold descending in *. lra.
Qed.

Lemma filter_insert (p : A -> bool) x l :
  ok x -> Forall ok l -> StronglySorted (descending key) l ->
  filter p (insert compareFn x l)
  = if p x then insert compareFn x (filter p l) else filter p l.
Proof.
  intros Hx Hl Hs. induction Hs as [|y l Hs IH Hy]; simpl.
  - destruct (p x); reflexivity.
  - inversion Hl as [|? ? Hoky Hokl]; subst.
    destruct (after compareFn x y) eqn:E; simpl.
    + rewrite IH by assumption.
      destruct (p y), (p x); simpl; rewrite ?E; reflexivity.
    + apply after_false in E; trivial.
      destruct (p x); [|reflexivity].
      symmetry. apply (insert_front x (filter p (y :: l))); trivial.
      * apply Forall_forall. intros z Hz. apply filter_In in Hz.
        destruct Hz as [Hz _]. rewrite Forall_forall in Hl. now apply Hl.
      * apply Forall_forall. intros z Hz. apply filter_In in Hz.
        destruct Hz as [[<-|Hz] _]; [exact E|].
        rewrite Forall_forall in Hy. specialize (Hy z Hz).
        unfold descending in *. lra.
Qed.

(** Filtering a sorted list is sorting the filtered list. *)
Lemma filter_sort (p : A -> bool) l :
  Forall ok l -> filter p (sort compareFn l) = sort compareFn (filter p l).
Proof.
  induction 1 as [|x l Hx Hl IH]; simpl; [reflexivity|].
  rewrite filter_insert by auto using sort_ok, sort_sorted.
  rewrite IH. destruct (p x); reflexivity.
Qed.

End SortFacts.

Lemma filter_all {A} (l : list A) : filter (fun _ => true) l = l.
Proof. induction l as [|x l IH]; simpl; [reflexivity | now rewrite IH]. Qed.



(** ** The popularity score *)

Module ScoreFacts.
Import Js.

Lemma share_defined count max weight : exists q, share count max weight = Some q.
Proof.
  unfold share, truthy, div. destruct (max =? 0); simpl; eauto.
Qed.

(** The score is a number, never [NaN]. *)
Lemma calculateVideoScore_defined v maxViews maxLikes maxComments :
  exists s, calculateVideoScore v maxViews maxLikes maxComments = Some s.
Proof.
  unfold calculateVideoScore.
  destruct (share_defined (YouTubeVideo.viewCount v) maxViews 50) as [q1 ->].
  destruct (share_defined (YouTubeVideo.likeCount v) maxLikes 30) as [q2 ->].
  destruct (share_defined (YouTubeVideo.commentCount v) maxComments 20) as [q3 ->].
  eauto.
Qed.

Lemma withScores_video videos sv :
  In sv (withScores videos) -> In (ScoredVideo.video sv) videos.
Proof.
  unfold withScores. destruct videos as [|v0 rest]; [intros []|].
  cbv zeta. intros H. apply in_map_iff in H. destruct H as (v & <- & Hv).
  exact Hv.
Qed.

Lemma withScores_scored videos :
  Forall (fun sv => ScoredVideo.popularityScore sv <> None) (withScores videos).
Proof.
  apply Forall_forall. intros sv H.
  unfold withScores in H. destruct videos as [|v0 rest]; [destruct H|].
  cbv zeta in H. apply in_map_iff in H. destruct H as (v & <- & _). simpl.
  match goal with
  | |- calculateVideoScore ?v ?a ?b ?c <> None =>
      destruct (calculateVideoScore_defined v a b c) as [x ->]
  end.
  discriminate.
Qed.

Lemma Math_max_fold l : forall x y, x <= y -> x <= fold_left Z.max l y.
Proof.
  induction l as [|z l IH]; intros x y H; simpl; [exact H|].
  apply IH. lia.
Qed.

Lemma Math_max_ge_first x l : x <= Math_max x l.
Proof. apply Math_max_fold. lia. Qed.

Lemma Math_max_ge x l y : In y l -> y <= Math_max x l.
Proof.
  unfold Math_max. revert x. induction l as [|z l IH]; intros x; [intros []|].
  simpl. intros [->|H]; [apply Math_max_fold; lia | now apply IH].
Qed.

Lemma Math_max_le x l b :
  x <= b -> (forall y, In y l -> y <= b) -> Math_max x l <= b.
Proof.
  unfold Math_max. revert x. induction l as [|z l IH]; intros x Hx Hl; simpl;
    [exact Hx|].
  apply IH; [|intros y Hy; apply Hl; now right].
  specialize (Hl z (or_introl eq_refl)). lia.
Qed.

(** The maximum of a field over a collection that has [v]. *)
Lemma Math_max_field (f : YouTubeVideo.t -> Z) v0 rest v :
  In v (v0 :: rest) -> f v <= Math_max (f v0) (map f rest).
Proof.
  intros [->|H]; [apply Math_max_ge_first|].
  apply Math_max_ge. now apply in_map.
Qed.

Lemma Math_max_field_top (f : YouTubeVideo.t -> Z) v0 rest v :
  In v (v0 :: rest) -> (forall u, In u (v0 :: rest) -> f u <= f v) ->
  Math_max (f v0) (map f rest) = f v.
Proof.
  intros Hv Htop. apply Z.le_antisymm; [|now apply Math_max_field].
  apply Math_max_le; [apply Htop; now left|].
  intros y Hy. apply in_map_iff in Hy. destruct Hy as (u & <- & Hu).
  apply Htop. now right.
Qed.

Lemma ratio_range count max :
  0 <= count <= max -> max <> 0 ->
  (0 <= inject_Z count / inject_Z max <= 1)%Q.
Proof.
  intros [H0 H1] Hm.
  assert (0 < inject_Z max)%Q as Hpos
      by (change 0%Q with (inject_Z 0); rewrite <- Zlt_Qlt; lia).
  split.
  - apply Qle_shift_div_l; [exact Hpos|].
    rewrite Qmult_0_l. change 0%Q with (inject_Z 0). rewrite <- Zle_Qle. exact H0.
  - apply Qle_shift_div_r; [exact Hpos|].
    rewrite Qmult_1_l. rewrite <- Zle_Qle. exact H1.
Qed.

Lemma share_range count max weight q :
  0 <= count <= max -> (0 <= weight)%Q ->
  share count max weight = Some q -> (0 <= q <= weight)%Q.
Proof.
  intros Hc Hw. unfold share, truthy, div.
  destruct (Z.eqb_spec max 0) as [E|E]; simpl; intros [= <-]; [lra|].
  destruct (ratio_range count max Hc E) as [H0 H1].
  split; [now apply Qmult_le_0_compat|].
  rewrite <- (Qmult_1_l weight) at 2. now apply Qmult_le_compat_r.
Qed.

(** The item that holds a maximum which is not zero has the full share. *)
Lemma share_full max weight q :
  max <> 0 -> share max max weight = Some q -> (q == weight)%Q.
Proof.
  intros Hm. unfold share, truthy, div.
  destruct (Z.eqb_spec max 0) as [E|E]; [contradiction|]. simpl. intros [= <-].
  field. change 0%Q with (inject_Z 0). rewrite inject_Z_injective. exact Hm.
Qed.

(** A maximum of zero gives a share of zero. *)
Lemma share_zero_max count weight : share count 0 weight = Some 0%Q.
Proof. reflexivity. Qed.

Lemma Math_round_range x : (0 <= x <= 100)%Q -> 0 <= Math_round x <= 100.
Proof.
  intros [H0 H1]. unfold Math_round. split.
  - change 0 with (Qfloor 0). apply Qfloor_resp_le. lra.
  - change 100 with (Qfloor (201 # 2)). apply Qfloor_resp_le. lra.
Qed.

Lemma calculateVideoScore_range v maxViews maxLikes maxComments :
  0 <= YouTubeVideo.viewCount v <= maxViews ->
  0 <= YouTubeVideo.likeCount v <= maxLikes ->
  0 <= YouTubeVideo.commentCount v <= maxComments ->
  exists s, calculateVideoScore v maxViews maxLikes maxComments = Some s /\
            0 <= s <= 100.
Proof.
  intros Hv Hl Hc. unfold calculateVideoScore.
  destruct (share_defined (YouTubeVideo.viewCount v) maxViews 50) as [q1 E1].
  destruct (share_defined (YouTubeVideo.likeCount v) maxLikes 30) as [q2 E2].
  destruct (share_defined (YouTubeVideo.commentCount v) maxComments 20) as [q3 E3].
  rewrite E1, E2, E3. eexists. split; [reflexivity|].
  apply share_range in E1, E2, E3; trivial; try lra.
  apply Math_round_range. lra.
Qed.

Lemma calculateVideoScore_top v :
  YouTubeVideo.viewCount v <> 0 -> YouTubeVideo.likeCount v <> 0 ->
  YouTubeVideo.commentCount v <> 0 ->
  calculateVideoScore v (YouTubeVideo.viewCount v) (YouTubeVideo.likeCount v)
                      (YouTubeVideo.commentCount v) = Some 100.
Proof.
  intros Hv Hl Hc. unfold calculateVideoScore.
  destruct (share_defined (YouTubeVideo.viewCount v) (YouTubeVideo.viewCount v) 50) as [q1 E1].
  destruct (share_defined (YouTubeVideo.likeCount v) (YouTubeVideo.likeCount v) 30) as [q2 E2].
  destruct (share_defined (YouTubeVideo.commentCount v) (YouTubeVideo.commentCount v) 20) as [q3 E3].
  rewrite E1, E2, E3. f_equal.
  apply share_full in E1, E2, E3; trivial.
  unfold Math_round. rewrite E1, E2, E3. reflexivity.
Qed.

End ScoreFacts.

(** ** The comparators of the views order by a key *)

Module CompareFacts.
Import Js.

Section WithDates.
Variable Date_getTime : string -> option Z.

Lemma byViews_key a b :
  True -> True ->
  exists d, byViews a b = Some d /\
            (d == inject_Z (YouTubeVideo.viewCount (ScoredVideo.video b))
                  - inject_Z (YouTubeVideo.viewCount (ScoredVideo.video a)))%Q.
Proof. intros _ _. eexists. split; reflexivity. Qed.

Lemma byPopularity_key a b :
  scored a -> scored b ->
  exists d, byPopularity a b = Some d /\
            (d == number_of (ScoredVideo.popularityScore b)
                  - number_of (ScoredVideo.popularityScore a))%Q.
Proof.
  unfold scored, byPopularity. intros Ha Hb.
  destruct (ScoredVideo.popularityScore a); [|congruence].
  destruct (ScoredVideo.popularityScore b); [|congruence].
  eexists. split; reflexivity.
Qed.

Lemma byNewest_key a b :
  dated Date_getTime a -> dated Date_getTime b ->
  exists d, byNewest Date_getTime a b = Some d /\
            (d == number_of (Date_getTime (YouTubeVideo.publishedAt (ScoredVideo.video b)))
                  - number_of (Date_getTime (YouTubeVideo.publishedAt (ScoredVideo.video a))))%Q.
Proof.
  unfold dated, byNewest, getTime. intros Ha Hb.
  destruct (Date_getTime (YouTubeVideo.publishedAt (ScoredVideo.video a))); [|congruence].
  destruct (Date_getTime (YouTubeVideo.publishedAt (ScoredVideo.video b))); [|congruence].
  eexists. split; reflexivity.
Qed.

Lemma byOldest_key a b :
  dated Date_getTime a -> dated Date_getTime b ->
  exists d, byOldest Date_getTime a b = Some d /\
            (d == - number_of (Date_getTime (YouTubeVideo.publishedAt (ScoredVideo.video b)))
                  - - number_of (Date_getTime (YouTubeVideo.publishedAt (ScoredVideo.video a))))%Q.
Proof.
  unfold dated, byOldest, getTime. intros Ha Hb.
  destruct (Date_getTime (YouTubeVideo.publishedAt (ScoredVideo.video a))); [|congruence].
  destruct (Date_getTime (YouTubeVideo.publishedAt (ScoredVideo.video b))); [|congruence].
  eexists. split; [reflexivity|]. simpl. ring.
Qed.

Lemma withScores_dated videos :
  Forall (fun v => Date_getTime (YouTubeVideo.publishedAt v) <> None) videos ->
  Forall (dated Date_getTime) (withScores videos).
Proof.
  intros H. apply Forall_forall. intros sv Hsv.
  apply ScoreFacts.withScores_video in Hsv.
  rewrite Forall_forall in H. now apply H.
Qed.

Lemma channel_sorted_filter sortOption (p : ScoredVideo.t -> bool) l :
  Forall scored l -> Forall (dated Date_getTime) l ->
  ChannelAnalysis.sorted Date_getTime sortOption (filter p l)
  = filter p (ChannelAnalysis.sorted Date_getTime sortOption l).
Proof.
  intros Hs Hd. symmetry. destruct sortOption; unfold ChannelAnalysis.sorted.
  - eapply filter_sort; [apply byPopularity_key | exact Hs].
  - eapply filter_sort; [apply byViews_key | apply Forall_forall; trivial].
  - eapply filter_sort; [apply byNewest_key | exact Hd].
  - eapply filter_sort; [apply byOldest_key | exact Hd].
Qed.

Lemma keyword_sorted_filter sortOption (p : ScoredVideo.t -> bool) l :
  Forall scored l -> Forall (dated Date_getTime) l ->
  KeywordAnalysis.sorted Date_getTime sortOption (filter p l)
  = filter p (KeywordAnalysis.sorted Date_getTime sortOption l).
Proof.
  intros Hs Hd. symmetry. destruct sortOption; unfold KeywordAnalysis.sorted.
  - eapply filter_sort; [apply byPopularity_key | exact Hs].
  - eapply filter_sort; [apply byViews_key | apply Forall_forall; trivial].
  - eapply filter_sort; [apply byNewest_key | exact Hd].
Qed.
End WithDates.
End CompareFacts.

(** C4.  Whatever the type filter and the sort key, the list a view shows
    (the filter applied, then the sort) is the list obtained by sorting
    first and filtering afterwards; in both views.  The publish timestamps
    are dates the platform can parse. *)
Theorem filter_then_sort_is_sort_then_filter
        (Date_getTime : string -> option Z) (videos : list YouTubeVideo.t) :
  Forall (fun v => Date_getTime (YouTubeVideo.publishedAt v) <> None) videos ->
  (forall sortOption filterOption,
      ChannelAnalysis.sortedVideos Date_getTime
        (ChannelAnalysis.processedVideos videos) sortOption filterOption
      = ChannelAnalysis.filtered filterOption
          (ChannelAnalysis.sortedVideos Date_getTime
             (ChannelAnalysis.processedVideos videos) sortOption
             ChannelAnalysis.all)) /\
  (forall sortOption videoType,
      KeywordAnalysis.processedVideos Date_getTime videos videoType sortOption
      = KeywordAnalysis.filtered videoType
          (KeywordAnalysis.processedVideos Date_getTime videos type_all
             sortOption)).
Proof.
  intros Hdates.
  pose proof (ScoreFacts.withScores_scored videos) as Hs.
  pose proof (CompareFacts.withScores_dated Date_getTime videos Hdates) as Hd.
  split.
  - intros sortOption filterOption.
    unfold ChannelAnalysis.sortedVideos, ChannelAnalysis.processedVideos.
    destruct filterOption; cbn [ChannelAnalysis.filtered];
      try reflexivity; now apply CompareFacts.channel_sorted_filter.
  - intros sortOption videoType.
    unfold KeywordAnalysis.processedVideos.
    destruct videos as [|v0 rest]; [reflexivity|].
    unfold KeywordAnalysis.filtered at 1 3. rewrite filter_all.
    now apply CompareFacts.keyword_sorted_filter.
Qed.

(** Three sample videos, the short ones by popularity and by date. *)
Lemma filter_then_sort_is_sort_then_filter_witness :
  ChannelAnalysis.sortedVideos sample_clock
    (ChannelAnalysis.processedVideos sample_videos)
    ChannelAnalysis.popularity ChannelAnalysis.shorts
  = ChannelAnalysis.filtered ChannelAnalysis.shorts
      (ChannelAnalysis.sortedVideos sample_clock
         (ChannelAnalysis.processedVideos sample_videos)
         ChannelAnalysis.popularity ChannelAnalysis.all) /\
  KeywordAnalysis.processedVideos sample_clock sample_videos type_shorts
    KeywordAnalysis.date
  = KeywordAnalysis.filtered type_shorts
      (KeywordAnalysis.processedVideos sample_clock sample_videos type_all
         KeywordAnalysis.date).
Proof.
  assert (Forall (fun v => sample_clock (YouTubeVideo.publishedAt v) <> None)
                 sample_videos) as Hdates
      by (repeat constructor; vm_compute; discriminate).
  destruct (filter_then_sort_is_sort_then_filter sample_clock sample_videos Hdates)
    as [Hchannel Hkeyword].
  split; [apply Hchannel | apply Hkeyword].
Defined.

(** The collection of one video with 10 views, no like and no comment. *)
Lemma popularity_max_counterexample :
  let v := sample_video "a" 10 0 0 "PT5M" "2024-01-01T00:00:00Z" in
  ~ (forall sv, In sv (withScores [v]) -> tops [v] (ScoredVideo.video sv) ->
                ScoredVideo.popularityScore sv = Some 100).
Proof.
  intros v H.
  assert (Some 50 = Some 100) as E; [|discriminate E].
  apply (H {| ScoredVideo.video := v; ScoredVideo.popularityScore := Some 50 |}).
  - left. reflexivity.
  - intros u [<-|[]]. cbn. lia.
Qed.

(** C1 (amended).  In a collection whose counts are not negative every
    popularity score is an integer between 0 and 100, and an item that
    holds the maximum view, like and comment counts at once scores exactly
    100 when none of these three maxima is zero. *)
Theorem popularity_score_bounds (videos : list YouTubeVideo.t) :
  Forall nonneg_counts videos ->
  (forall sv, In sv (withScores videos) ->
     exists s, ScoredVideo.popularityScore sv = Some s /\ 0 <= s <= 100) /\
  (forall sv, In sv (withScores videos) ->
     tops videos (ScoredVideo.video sv) ->
     YouTubeVideo.viewCount (ScoredVideo.video sv) <> 0 ->
     YouTubeVideo.likeCount (ScoredVideo.video sv) <> 0 ->
     YouTubeVideo.commentCount (ScoredVideo.video sv) <> 0 ->
     ScoredVideo.popularityScore sv = Some 100).
Proof.
  intros Hnn. rewrite Forall_forall in Hnn.
  destruct videos as [|v0 rest]; [split; intros sv []|].
  split; intros sv Hin; unfold withScores in Hin; cbv zeta in Hin;
    apply in_map_iff in Hin; destruct Hin as (v & <- & Hv); cbn.
  - destruct (Hnn v Hv) as (H1 & H2 & H3).
    apply ScoreFacts.calculateVideoScore_range; (split; [assumption|]).
    + now apply (ScoreFacts.Math_max_field YouTubeVideo.viewCount).
    + now apply (ScoreFacts.Math_max_field YouTubeVideo.likeCount).
    + now apply (ScoreFacts.Math_max_field YouTubeVideo.commentCount).
  - intros Htop Hviews Hlikes Hcomments.
    rewrite (ScoreFacts.Math_max_field_top YouTubeVideo.viewCount v0 rest v),
            (ScoreFacts.Math_max_field_top YouTubeVideo.likeCount v0 rest v),
            (ScoreFacts.Math_max_field_top YouTubeVideo.commentCount v0 rest v);
      try assumption; try (intros u Hu; now apply Htop).
    now apply ScoreFacts.calculateVideoScore_top.
Qed.

(** Three videos; the first holds the three maxima, none of which is
    zero. *)
Lemma popularity_score_bounds_witness :
  Forall (fun sv => exists s, ScoredVideo.popularityScore sv = Some s /\
                              0 <= s <= 100)
         (withScores sample_videos) /\
  exists sv, In sv (withScores sample_videos) /\
             YouTubeVideo.id (ScoredVideo.video sv) = "a" /\
             ScoredVideo.popularityScore sv = Some 100.
Proof.
  assert (Forall nonneg_counts sample_videos) as Hnn
      by (repeat constructor; cbn; lia).
  destruct (popularity_score_bounds sample_videos Hnn) as [Hrange Htop].
  split; [apply Forall_forall; exact Hrange|].
  eexists. split; [left; reflexivity|]. split; [reflexivity|].
  apply Htop.
  - left. reflexivity.
  - intros u [<-|[<-|[<-|[]]]]; cbn; lia.
  - cbn; lia.
  - cbn; lia.
  - cbn; lia.
Defined.

(** C10.  The scorer never yields [NaN]: a component whose collection
    maximum is zero contributes 0, and in a collection where every video
    has no view, no like and no comment every score is 0. *)
Theorem popularity_score_total :
  (forall v maxViews maxLikes maxComments,
      exists s, calculateVideoScore v maxViews maxLikes maxComments = Some s) /\
  (forall count weight, share count 0 weight = Some 0%Q) /\
  (forall videos,
      Forall (fun v => YouTubeVideo.viewCount v = 0 /\
                       YouTubeVideo.likeCount v = 0 /\
                       YouTubeVideo.commentCount v = 0) videos ->
      Forall (fun sv => ScoredVideo.popularityScore sv = Some 0)
             (withScores videos)).
Proof.
  split; [apply ScoreFacts.calculateVideoScore_defined|].
  split; [apply ScoreFacts.share_zero_max|].
  intros videos Hz. rewrite Forall_forall in Hz. apply Forall_forall.
  intros sv Hin. destruct videos as [|v0 rest]; [destruct Hin|].
  unfold withScores in Hin; cbv zeta in Hin.
  apply in_map_iff in Hin. destruct Hin as (v & <- & Hv). cbn.
  assert (forall f : YouTubeVideo.t -> Z,
             (forall u, In u (v0 :: rest) -> f u = 0) ->
             Js.Math_max (f v0) (map f rest) = 0) as Hmax.
  { intros f Hf.
    rewrite (ScoreFacts.Math_max_field_top f v0 rest v0);
      [apply Hf; now left | now left |].
    intros u Hu. rewrite (Hf u Hu), (Hf v0) by now left. lia. }
  rewrite !Hmax by (intros u Hu; now destruct (Hz u Hu) as (? & ? & ?)).
  reflexivity.
Qed.

(** Two videos without any view, like or comment: both score 0. *)
Lemma popularity_score_total_witness :
  Forall (fun sv => ScoredVideo.popularityScore sv = Some 0)
         (withScores [sample_video "a" 0 0 0 "PT5M" "2024-01-01T00:00:00Z";
                      sample_video "b" 0 0 0 "PT30S" "2024-02-01T00:00:00Z"]).
Proof.
  destruct popularity_score_total as (_ & _ & H).
  apply H. repeat constructor.
Defined.

(** ** The rising-channel aggregator *)

Module ServiceFacts.
Import Js YoutubeService.
Local Open Scope list_scope.

(** *** Sets and maps *)

Lemma Set_has_In s x : Set_has s x = true <-> In x s.
Proof.
  unfold Set_has. rewrite existsb_exists. split.
  - intros (y & Hy & E). apply String.eqb_eq in E. now subst.
  - intros H. exists x. split; [exact H | apply String.eqb_refl].
Qed.

Lemma Map_set_fresh {V} (m : list (string * V)) k v :
  ~ In k (map fst m) -> Map_set m k v = m ++ [(k, v)].
Proof.
  induction m as [|[k' v'] m IH]; simpl; [reflexivity|].
  intros H. destruct (String.eqb_spec k' k) as [->|_]; [tauto|].
  rewrite IH by tauto. reflexivity.
Qed.

Lemma Map_get_app {V} (m1 m2 : list (string * V)) k :
  Map_get (m1 ++ m2) k
  = match Map_get m1 k with Some v => Some v | None => Map_get m2 k end.
Proof.
  induction m1 as [|[k' v'] m1 IH]; simpl; [reflexivity|].
  destruct (String.eqb k' k); [reflexivity | exact IH].
Qed.

Lemma Map_get_In {V} (m : list (string * V)) k :
  In k (map fst m) -> exists v, Map_get m k = Some v.
Proof.
  induction m as [|[k' v'] m IH]; simpl; [intros []|].
  destruct (String.eqb_spec k' k) as [->|Hne]; [eauto|].
  intros [E|H]; [contradiction | now apply IH].
Qed.

Lemma Map_get_set {V} (m : list (string * V)) k v k' :
  Map_get (Map_set m k v) k'
  = if String.eqb k k' then Some v else Map_get m k'.
Proof.
  induction m as [|[k0 v0] m IH]; simpl.
  - reflexivity.
  - destruct (String.eqb_spec k0 k) as [->|Hne]; simpl.
    + destruct (String.eqb k k'); reflexivity.
    + rewrite IH. destruct (String.eqb_spec k0 k') as [->|_]; [|reflexivity].
      destruct (String.eqb_spec k k') as [->|_]; [contradiction | reflexivity].
Qed.

(** A value found in [new Map(entries)] is the value of an entry with
    that key. *)
Lemma Map_from_In {V} (entries : list (string * V)) k v :
  Map_get (Map_from entries) k = Some v -> In (k, v) entries.
Proof.
  unfold Map_from.
  assert (forall m, Map_get (fold_left (fun m e => Map_set m (fst e) (snd e))
                                       entries m) k = Some v ->
                    In (k, v) entries \/ Map_get m k = Some v) as H.
  { induction entries as [|[k0 v0] entries IH]; intros m; simpl; [now right|].
    intros E. destruct (IH _ E) as [H|H]; [now left; right|].
    rewrite Map_get_set in H.
    destruct (String.eqb_spec k0 k) as [->|_]; [|now right].
    injection H as ->. now left; left. }
  intros E. destruct (H [] E) as [?|E']; [assumption | discriminate E'].
Qed.

Lemma NoDup_snoc {X} (l : list X) x : NoDup l -> ~ In x l -> NoDup (l ++ [x]).
Proof.
  induction 1 as [|y l Hy Hl IH]; simpl; intros Hx.
  - repeat constructor. intros [].
  - constructor; [|apply IH; tauto].
    rewrite in_app_iff. simpl. intros [H|[H|[]]]; [tauto|]. subst. tauto.
Qed.

(** *** The pass over the search results *)

Lemma first_video_app seen items c :
  first_video (seen ++ items) c
  = match first_video seen c with
    | Some v => Some v
    | None => first_video items c
    end.
Proof.
  unfold first_video. induction seen as [|it seen IH]; simpl; [reflexivity|].
  destruct (String.eqb (SearchItem.channelId it) c); [reflexivity | exact IH].
Qed.

Lemma collect_step seen acc item :
  collected seen acc ->
  collected (seen ++ [item])
    (let (channelIdsSet, videoMap) := acc in
     let chId := SearchItem.channelId item in
     if negb (Set_has channelIdsSet chId)
     then (Set_add channelIdsSet chId,
           Map_set videoMap chId (SearchItem.videoId item))
     else acc).
Proof.
  destruct acc as [set vmap]. intros (Hnd & Hkeys & Hget). simpl in *.
  destruct (Set_has set (SearchItem.channelId item)) eqn:E; simpl.
  - apply Set_has_In in E. repeat split; trivial. simpl.
    intros c. rewrite first_video_app, <- Hget.
    destruct (Map_get vmap c) eqn:G; [reflexivity|].
    unfold first_video. simpl.
    destruct (String.eqb_spec (SearchItem.channelId item) c) as [<-|_];
      [|reflexivity].
    rewrite <- Hkeys in E. apply Map_get_In in E. destruct E as [v E].
    congruence.
  - assert (~ In (SearchItem.channelId item) set) as Hfresh
        by (rewrite <- Set_has_In; congruence).
    unfold Set_add. rewrite E.
    rewrite Map_set_fresh by (now rewrite Hkeys).
    repeat split; simpl.
    + now apply NoDup_snoc.
    + rewrite map_app, Hkeys. reflexivity.
    + intros c. rewrite Map_get_app, first_video_app, Hget.
      destruct (first_video seen c); [reflexivity|].
      unfold first_video. simpl.
      destruct (String.eqb (SearchItem.channelId item) c); reflexivity.
Qed.

Lemma collect_collected items : collected items (collect items).
Proof.
  unfold collect.
  assert (forall seen acc, collected seen acc ->
            collected (seen ++ items)
              (fold_left
                 (fun (acc : list string * list (string * string)) item =>
                    let (channelIdsSet, videoMap) := acc in
                    let chId := SearchItem.channelId item in
                    if negb (Set_has channelIdsSet chId)
                    then (Set_add channelIdsSet chId,
                          Map_set videoMap chId (SearchItem.videoId item))
                    else acc) items acc)) as H.
  { induction items as [|item items IH]; intros seen acc Hacc; simpl.
    - now rewrite app_nil_r.
    - replace (seen ++ item :: items) with ((seen ++ [item]) ++ items)
        by (rewrite <- app_assoc; reflexivity).
      apply IH. now apply collect_step. }
  apply (H [] ([], [])). repeat split; simpl; auto using NoDup_nil.
Qed.

Lemma filter_twice {X} (p q : X -> bool) l :
  filter p (filter q l) = filter (fun x => q x && p x) l.
Proof.
  induction l as [|x l IH]; [reflexivity|]. simpl.
  destruct (q x); simpl; [destruct (p x)|]; now rewrite IH.
Qed.

(** The set that the pass builds holds the channels of the results, each
    once, in the order in which they first appear. *)
Lemma collect_distinct items : fst (collect items) = distinct_channels items.
Proof.
  unfold collect, distinct_channels.
  assert (forall set m,
            fst (fold_left
                   (fun (acc : list string * list (string * string)) item =>
                      let (channelIdsSet, videoMap) := acc in
                      let chId := SearchItem.channelId item in
                      if negb (Set_has channelIdsSet chId)
                      then (Set_add channelIdsSet chId,
                            Map_set videoMap chId (SearchItem.videoId item))
                      else acc) items (set, m))
            = set ++ filter (fun y => negb (Set_has set y))
                            (distinct (map SearchItem.channelId items))) as H.
  { induction items as [|item items IH]; intros set m.
    - simpl. now rewrite app_nil_r.
    - cbn [fold_left map distinct filter].
      destruct (Set_has set (SearchItem.channelId item)) eqn:E; cbn [negb].
      + rewrite IH. f_equal. rewrite filter_twice. apply filter_ext.
        intros y. destruct (String.eqb_spec y (SearchItem.channelId item)) as [->|_].
        * now rewrite E.
        * reflexivity.
      + unfold Set_add. rewrite E. rewrite IH, <- app_assoc. cbn [app].
        f_equal. f_equal. rewrite filter_twice. apply filter_ext.
        intros y. unfold Set_has. rewrite existsb_app. cbn [existsb].
        rewrite orb_false_r.
        destruct (existsb (String.eqb y) set), (String.eqb y _); reflexivity. }
  rewrite H. cbn [app]. rewrite <- (filter_all (distinct _)) at 2.
  apply filter_ext. reflexivity.
Qed.

Lemma Map_get_NoDup {V} (m : list (string * V)) k v :
  NoDup (map fst m) -> In (k, v) m -> Map_get m k = Some v.
Proof.
  induction m as [|[k0 v0] m IH]; [intros _ []|].
  cbn [map fst Map_get]. intros Hnd Hin. apply NoDup_cons_iff in Hnd.
  destruct Hnd as [Hk0 Hnd]. destruct Hin as [Hin|Hin].
  - injection Hin as -> ->. now rewrite String.eqb_refl.
  - destruct (String.eqb_spec k0 k) as [->|_]; [|now apply IH].
    elim Hk0. apply in_map_iff. now exists (k, v).
Qed.

(** The values of the map that the pass builds are the representative
    videos of the channels, in the order of the channels. *)
Lemma collect_representatives items :
  Map_values (snd (collect items)) = representatives items.
Proof.
  destruct (collect_collected items) as (Hnd & Hkeys & Hget).
  unfold representatives, Map_values. rewrite <- collect_distinct, <- Hkeys.
  rewrite map_map. apply map_ext_in. intros [c v] Hin. cbn [fst snd].
  unfold representative. rewrite <- Hget.
  rewrite (Map_get_NoDup _ c v); [reflexivity | now rewrite Hkeys | exact Hin].
Qed.

(** *** Running the computation *)

Lemma run_bind {A B} (remote : Remote) (p : Prog A) (f : A -> Prog B) :
  run remote (bind p f)
  = let (a, calls1) := run remote p in
    let (b, calls2) := run remote (f a) in
    (b, calls1 ++ calls2).
Proof.
  induction p as [a|R c k IH]; simpl.
  - destruct (run remote (f a)); reflexivity.
  - rewrite IH. destruct (run remote (k (remote R c))) as [a calls1].
    destruct (run remote (f a)); reflexivity.
Qed.

Lemma pushed_fold {X Y} (f : X -> option Y) l : forall acc,
  fold_left (fun acc x => match f x with Some y => acc ++ [y] | None => acc end)
            l acc
  = acc ++ flat_map (fun x => match f x with Some y => [y] | None => [] end) l.
Proof.
  induction l as [|x l IH]; intros acc; simpl; [now rewrite app_nil_r|].
  rewrite IH. destruct (f x); simpl; [|reflexivity].
  now rewrite <- app_assoc.
Qed.

Section WithDates.
Variable Date_getTime : string -> option Z.

Lemma rank_unranked cutoff videoMap videoDetails chItems :
  rank Date_getTime cutoff videoMap videoDetails chItems
  = sort byScore (unranked Date_getTime cutoff videoMap videoDetails chItems).
Proof. unfold rank. cbv zeta. rewrite pushed_fold. reflexivity. Qed.

Lemma rank_perm cutoff videoMap videoDetails chItems :
  Permutation (rank Date_getTime cutoff videoMap videoDetails chItems)
              (unranked Date_getTime cutoff videoMap videoDetails chItems).
Proof. rewrite rank_unranked. apply sort_perm. Qed.

Lemma In_rank cutoff videoMap videoDetails chItems r :
  In r (rank Date_getTime cutoff videoMap videoDetails chItems) <->
  exists item, In item chItems /\
               pushed Date_getTime cutoff videoMap
                      (videoDetailsMapOf videoDetails) item = Some r.
Proof.
  split.
  - intros H. apply (Permutation_in _ (rank_perm _ _ _ _)) in H.
    apply in_flat_map in H. destruct H as (item & Hitem & Hr).
    exists item. split; [exact Hitem|].
    destruct (pushed _ _ _ _ item) as [y|]; [|destruct Hr].
    destruct Hr as [->|[]]. reflexivity.
  - intros (item & Hitem & Hr).
    apply (Permutation_in _ (Permutation_sym (rank_perm _ _ _ _))).
    apply in_flat_map. exists item. split; [exact Hitem|].
    rewrite Hr. now left.
Qed.

Lemma run_findRisingChannels remote now apiKey query categoryId period region videoType :
  run remote (findRisingChannels Date_getTime now apiKey query categoryId
                                 period region videoType)
  = outcome Date_getTime remote now apiKey query categoryId period region videoType.
Proof.
  unfold findRisingChannels, outcome, searchCall, channelCreationCutoff.
  destruct (thresholds period now) as [after cutoff]. cbn [fst snd run].
  destruct (remote _ (Search _ _)) as [items|]; [|reflexivity].
  destruct (collect items) as [set vmap]. cbn [fst snd].
  destruct (firstn 40 set) as [|c0 ids]; [reflexivity|].
  cbn [List.length Nat.eqb run].
  destruct (remote _ (Channels _ _)) as [chItems|]; [|reflexivity].
  rewrite run_bind.
  destruct (run remote (getVideoDetails _ _)) as [videoDetails calls].
  cbn [run request_of]. now rewrite app_nil_r.
Qed.

(** What is known of a non-empty output. *)
Lemma output_ranked remote now apiKey query categoryId period region videoType r :
  In r (fst (run remote (findRisingChannels Date_getTime now apiKey query
                           categoryId period region videoType))) ->
  exists items chItems,
    remote _ (searchCall now apiKey query categoryId period region videoType)
    = Some items /\
    remote _ (Channels apiKey (firstn 40 (fst (collect items)))) = Some chItems /\
    fst (run remote (findRisingChannels Date_getTime now apiKey query
                       categoryId period region videoType))
    = rank Date_getTime (channelCreationCutoff period now) (snd (collect items))
           (videoDetailsOf remote apiKey items) chItems.
Proof.
  rewrite run_findRisingChannels. unfold outcome, videoDetailsOf. cbv zeta.
  destruct (remote _ (searchCall _ _ _ _ _ _ _)) as [items|]; [|intros []].
  destruct (firstn 40 (fst (collect items))) as [|c0 ids] eqn:E; [intros []|].
  destruct (remote _ (Channels _ _)) as [chItems|] eqn:E'; [|intros []].
  destruct (run remote (getVideoDetails _ _)) as [videoDetails calls] eqn:Er.
  cbn [fst]. intros _. exists items, chItems.
  rewrite E, Er. repeat split; trivial.
Qed.

Lemma output_of_answers (remote : Remote) now apiKey query categoryId period
      region videoType items chItems :
  remote _ (searchCall now apiKey query categoryId period region videoType)
  = Some items ->
  firstn 40 (fst (collect items)) <> [] ->
  remote _ (Channels apiKey (firstn 40 (fst (collect items)))) = Some chItems ->
  fst (run remote (findRisingChannels Date_getTime now apiKey query
                     categoryId period region videoType))
  = rank Date_getTime (channelCreationCutoff period now) (snd (collect items))
         (videoDetailsOf remote apiKey items) chItems.
Proof.
  intros Hsearch Hids Hch.
  rewrite run_findRisingChannels. unfold outcome, videoDetailsOf. cbv zeta.
  rewrite Hsearch.
  destruct (firstn 40 (fst (collect items))) as [|c0 ids]; [contradiction|].
  rewrite Hch.
  destruct (run remote (getVideoDetails _ _)) as [videoDetails calls].
  reflexivity.
Qed.

(** The records the code looks the videos up with are those of the
    answer for the representative videos. *)
Lemma videoDetailsOf_lookedUp (remote : Remote) apiKey items :
  videoDetailsOf remote apiKey items = lookedUp remote apiKey items.
Proof.
  unfold videoDetailsOf, lookedUp. rewrite collect_representatives.
  cbv zeta. unfold getVideoDetails.
  destruct (nonempty (join "," (representatives items))); [|reflexivity].
  cbn [run]. destruct (remote _ (Videos _ _)); reflexivity.
Qed.

Lemma fullVideoOf_resolved (remote : Remote) apiKey items item :
  fullVideoOf (snd (collect items))
              (videoDetailsMapOf (videoDetailsOf remote apiKey items)) item
  = resolvedVideo remote apiKey items item.
Proof.
  unfold fullVideoOf, resolvedVideo.
  destruct (collect_collected items) as (_ & _ & Hget).
  now rewrite Hget, videoDetailsOf_lookedUp.
Qed.

Lemma getVideoDetails_calls (remote : Remote) apiKey videoIds key ids :
  ~ In (ChannelsRequest key ids)
       (snd (run remote (getVideoDetails apiKey videoIds))).
Proof.
  unfold getVideoDetails. destruct (nonempty videoIds); cbn [run]; [|intros []].
  destruct (remote _ (Videos apiKey videoIds)); cbn; intros [H|[]];
    discriminate H.
Qed.

Lemma pushed_inv cutoff videoMap videoDetailsMap item r :
  pushed Date_getTime cutoff videoMap videoDetailsMap item = Some r ->
  createdSince Date_getTime cutoff item = true /\
  fullVideoOf videoMap videoDetailsMap item = Some (topVideo r) /\
  details r
  = channelObj item (or_default (parseInt (ChannelItem.subscriberCount item)) 1) /\
  topVideoViews r = YouTubeVideo.viewCount (topVideo r) /\
  score r
  = (if 0 <? or_default (parseInt (ChannelItem.subscriberCount item)) 1
     then inject_Z (YouTubeVideo.viewCount (topVideo r))
          / inject_Z (or_default (parseInt (ChannelItem.subscriberCount item)) 1)
     else 0)%Q.
Proof.
  unfold pushed. destruct (createdSince _ _ _); [|discriminate].
  destruct (fullVideoOf _ _ _) as [v|]; [|discriminate].
  cbv zeta. intros [= <-]. cbn. auto.
Qed.

Lemma pushed_intro cutoff videoMap videoDetailsMap item v :
  createdSince Date_getTime cutoff item = true ->
  fullVideoOf videoMap videoDetailsMap item = Some v ->
  exists r, pushed Date_getTime cutoff videoMap videoDetailsMap item = Some r /\
            details r
            = channelObj item
                (or_default (parseInt (ChannelItem.subscriberCount item)) 1).
Proof.
  intros Hc Hv. unfold pushed. rewrite Hc, Hv. cbv zeta.
  eexists. split; reflexivity.
Qed.

(** The record found for a video id has that id. *)
Lemma fullVideoOf_id videoMap videoDetails item v :
  fullVideoOf videoMap (videoDetailsMapOf videoDetails) item = Some v ->
  Map_get videoMap (ChannelItem.id item) = Some (YouTubeVideo.id v).
Proof.
  unfold fullVideoOf, videoDetailsMapOf.
  destruct (Map_get videoMap _) as [videoId|]; [|discriminate].
  destruct (nonempty videoId); [|discriminate].
  intros H. apply Map_from_In, in_map_iff in H.
  destruct H as (v' & [= <- <-] & _). reflexivity.
Qed.

Lemma unranked_length cutoff videoMap videoDetails chItems :
  (List.length (unranked Date_getTime cutoff videoMap videoDetails chItems)
   <= List.length chItems)%nat.
Proof.
  unfold unranked. induction chItems as [|item chItems IH]; simpl; [lia|].
  rewrite length_app. destruct (pushed _ _ _ _ item); simpl; lia.
Qed.

Lemma unranked_channels cutoff videoMap videoDetails chItems c :
  In c (map channelOf (unranked Date_getTime cutoff videoMap videoDetails chItems)) ->
  In c (map ChannelItem.id chItems).
Proof.
  intros H. apply in_map_iff in H. destruct H as (r & <- & Hr).
  apply in_flat_map in Hr. destruct Hr as (item & Hitem & Hr).
  destruct (pushed _ _ _ _ item) as [y|] eqn:E; [|destruct Hr].
  destruct Hr as [->|[]]. apply pushed_inv in E.
  destruct E as (_ & _ & E & _). unfold channelOf. rewrite E. cbn.
  now apply in_map.
Qed.

Lemma unranked_NoDup cutoff videoMap videoDetails chItems :
  NoDup (map ChannelItem.id chItems) ->
  NoDup (map channelOf (unranked Date_getTime cutoff videoMap videoDetails chItems)).
Proof.
  induction chItems as [|item chItems IH]; simpl; [constructor|].
  intros H. inversion H as [|? ? Hnotin Hnd]; subst.
  change (unranked Date_getTime cutoff videoMap videoDetails (item :: chItems))
    with (match pushed Date_getTime cutoff videoMap
                       (videoDetailsMapOf videoDetails) item with
          | Some y => [y] | None => []
          end ++ unranked Date_getTime cutoff videoMap videoDetails chItems).
  destruct (pushed _ _ _ _ item) as [y|] eqn:E; simpl; [|now apply IH].
  constructor; [|now apply IH].
  intros Hin. apply unranked_channels in Hin.
  apply pushed_inv in E. destruct E as (_ & _ & E & _).
  unfold channelOf in Hin. rewrite E in Hin. cbn in Hin. contradiction.
Qed.

Lemma byScore_key a b :
  True -> True ->
  exists d, byScore a b = Some d /\ (d == score b - score a)%Q.
Proof. intros _ _. eexists. split; reflexivity. Qed.

Lemma rank_sorted cutoff videoMap videoDetails chItems :
  StronglySorted (fun a b => (score b <= score a)%Q)
                 (rank Date_getTime cutoff videoMap videoDetails chItems).
Proof.
  rewrite rank_unranked.
  apply (sort_sorted byScore (fun _ => True) score byScore_key).
  apply Forall_forall. trivial.
Qed.

End WithDates.

End ServiceFacts.

(** C6.  Every list the rising-channel aggregator returns is sorted by
    score, largest first: no result is followed by one with a larger
    score. *)
Theorem rising_channels_sorted
        (Date_getTime : string -> option Z) (remote : Remote) (now : Clock)
        (apiKey query categoryId : string) (period : RisingPeriod)
        (region : RegionCode) (videoType : VideoTypeFilter) :
  StronglySorted (fun a b => (score b <= score a)%Q)
    (fst (run remote
              (YoutubeService.findRisingChannels Date_getTime now apiKey query
                 categoryId period region videoType))).
Proof.
  rewrite ServiceFacts.run_findRisingChannels. unfold outcome.
  cbv zeta.
  destruct (remote _ (searchCall _ _ _ _ _ _ _)) as [items|]; [|constructor].
  destruct (firstn 40 _) as [|c0 ids]; [constructor|].
  destruct (remote _ (Channels _ _)) as [chItems|]; [|constructor].
  destruct (run remote _) as [videoDetails calls]. cbn [fst].
  apply ServiceFacts.rank_sorted.
Qed.

(** C2.  The score of a result is the view count of its representative
    video divided by the larger of the channel's subscriber count and 1;
    the subscriber count is the number the channel lookup reports, which
    is not negative.  With 1,000 views a channel with no subscriber scores
    1000 and one with 10,000 subscribers scores one tenth. *)
Theorem rising_score_is_views_per_subscriber :
  (forall (Date_getTime : string -> option Z) (remote : Remote) (now : Clock)
          (apiKey query categoryId : string) (period : RisingPeriod)
          (region : RegionCode) (videoType : VideoTypeFilter) r,
      In r (fst (run remote
                     (YoutubeService.findRisingChannels Date_getTime now apiKey
                        query categoryId period region videoType))) ->
      topVideoViews r = YouTubeVideo.viewCount (topVideo r) /\
      exists ids chItems item,
        remote _ (Channels apiKey ids) = Some chItems /\
        In item chItems /\
        channelOf r = ChannelItem.id item /\
        forall subscribers,
          Js.parseInt (ChannelItem.subscriberCount item) = Some subscribers ->
          0 <= subscribers ->
          (score r == inject_Z (topVideoViews r)
                      / inject_Z (Z.max subscribers 1))%Q) /\
  (exists r,
      fst (run (sample_remote "2023-11-03T08:26:40.000Z" "0" "1000" true)
               (YoutubeService.findRisingChannels sample_clock sample_now
                  "key" "retro gaming" EmptyString period_3m Global type_all))
      = [r] /\ (score r == 1000)%Q) /\
  (exists r,
      fst (run (sample_remote "2023-11-03T08:26:40.000Z" "10000" "1000" true)
               (YoutubeService.findRisingChannels sample_clock sample_now
                  "key" "retro gaming" EmptyString period_3m Global type_all))
      = [r] /\ (score r == 1 # 10)%Q).
Proof.
  split; [|split; eexists; (split; [vm_compute; reflexivity | reflexivity])].
  intros Date_getTime remote now apiKey query categoryId period region videoType r Hr.
  destruct (ServiceFacts.output_ranked _ _ _ _ _ _ _ _ _ _ Hr)
    as (items & chItems & _ & Hch & Hout).
  rewrite Hout in Hr. apply ServiceFacts.In_rank in Hr.
  destruct Hr as (item & Hitem & Hpushed).
  apply ServiceFacts.pushed_inv in Hpushed.
  destruct Hpushed as (_ & _ & Hdetails & Hviews & Hscore).
  split; [exact Hviews|].
  exists (firstn 40 (fst (YoutubeService.collect items))), chItems, item.
  repeat split; trivial.
  - unfold channelOf. now rewrite Hdetails.
  - intros subscribers Hparse Hnn. rewrite Hscore, Hparse, Hviews.
    unfold Js.or_default, Js.truthy.
    destruct (Z.eqb_spec subscribers 0) as [->|Hne]; cbn [negb].
    + reflexivity.
    + replace (Z.max subscribers 1) with subscribers by lia.
      destruct (Z.ltb_spec 0 subscribers); [reflexivity | lia].
Qed.

(** The sample run with no subscriber: its one result scores as the
    property says. *)
Lemma rising_score_is_views_per_subscriber_witness :
  exists r,
    In r (fst (run (sample_remote "2023-11-03T08:26:40.000Z" "0" "1000" true)
                   (YoutubeService.findRisingChannels sample_clock sample_now
                      "key" "retro gaming" EmptyString period_3m Global type_all))) /\
    (score r == inject_Z (topVideoViews r) / inject_Z (Z.max 0 1))%Q.
Proof.
  destruct rising_score_is_views_per_subscriber as (H & (r & Hout & _) & _).
  exists r.
  assert (In r (fst (run (sample_remote "2023-11-03T08:26:40.000Z" "0" "1000" true)
                   (YoutubeService.findRisingChannels sample_clock sample_now
                      "key" "retro gaming" EmptyString period_3m Global type_all))))
    as Hr by (rewrite Hout; now left).
  split; [exact Hr|].
  destruct (H _ _ _ _ _ _ _ _ _ r Hr)
    as (_ & ids & chItems & item & Hch & Hitem & _ & Hscore).
  cbn in Hch. destruct (Js.Set_has ids "c1"); injection Hch as <-;
    [|destruct Hitem].
  destruct Hitem as [<-|[]].
  apply Hscore; [reflexivity | lia].
Defined.


(** ** The thresholds *)

Module DateFacts.




(** The days of a window are calendar days: across a change of the offset
    of local time the cutoff is not 90 days of 24 hours before the
    clock's instant.  On 15 June 2024, 12:00 UTC, in a zone that went from
    one to two hours ahead of UTC on 31 March, the cutoff is an hour
    later. *)
Lemma cutoff_across_offset_change :
  YoutubeService.channelCreationCutoff period_3m (clock_at sample_zone 1718452800000)
  = 1718452800000 - days 90 + 3600000.
Proof. reflexivity. Qed.

(** A read of the clock after the end of the month of the first read
    sets the day in the month that follows: the first read on 31 January
    2024, 23:59:59.999 UTC, and the read for the cutoff a millisecond
    later, on 1 February, give a cutoff 60 days before that read, not 90. *)
Lemma cutoff_across_month_end :
  YoutubeService.channelCreationCutoff period_3m
    {| zone := UTC_zone; read_now := 1706745599999;
       read_publishedAfterDate := 1706745599999;
       read_channelCreationCutoff := 1706745600000 |}
  = 1706745600000 - days 60.
Proof. reflexivity. Qed.

End DateFacts.


(** C7.  The representative video of every result is the first search
    result of its channel; a channel lookup asks for 40 distinct channels
    at most, so that, the lookup answering with one record at most for
    each channel asked for, the output has 40 elements at most and one at
    most for each channel; and when the search has no result the output is
    empty and the search is the only call issued.  When the search has
    results, the channel lookup asks for the first 40 of their channels,
    each once, in the order in which they first appear; the video lookup
    asks for the first video of each of their channels; and every channel
    of the answer that passes the age test and whose first video has a
    record in the answer of the video lookup is in the output, with this
    record for its representative video. *)
Theorem rising_representatives
        (Date_getTime : string -> option Z) (remote : Remote) (now : Clock)
        (apiKey query categoryId : string) (period : RisingPeriod)
        (region : RegionCode) (videoType : VideoTypeFilter) :
  let search := searchCall now apiKey query categoryId period region videoType in
  let result :=
    run remote
        (YoutubeService.findRisingChannels Date_getTime now apiKey query
           categoryId period region videoType) in
  (forall r, In r (fst result) ->
     exists items,
       remote _ search = Some items /\
       first_video items (channelOf r) = Some (YouTubeVideo.id (topVideo r))) /\
  (forall key ids, In (ChannelsRequest key ids) (snd result) ->
     (List.length ids <= 40)%nat /\ NoDup ids) /\
  (channel_lookup_contract remote ->
   (List.length (fst result) <= 40)%nat /\ NoDup (map channelOf (fst result))) /\
  (remote _ search = None \/ remote _ search = Some [] ->
   result = ([], [request_of search])) /\
  (forall items,
     remote _ search = Some items -> items <> [] ->
     In (ChannelsRequest apiKey (firstn 40 (distinct_channels items)))
        (snd result)) /\
  (forall items chItems,
     remote _ search = Some items -> items <> [] ->
     remote _ (Channels apiKey (firstn 40 (distinct_channels items)))
     = Some chItems ->
     Js.nonempty (Js.join "," (representatives items)) = true ->
     In (VideosRequest apiKey (Js.join "," (representatives items)))
        (snd result)) /\
  (forall items chItems item v,
     remote _ search = Some items -> items <> [] ->
     remote _ (Channels apiKey (firstn 40 (distinct_channels items)))
     = Some chItems ->
     In item chItems ->
     createdOnOrAfter Date_getTime
       (YoutubeService.channelCreationCutoff period now) item ->
     resolvedVideo remote apiKey items item = Some v ->
     exists r, In r (fst result) /\ channelOf r = ChannelItem.id item /\
               topVideo r = v).
Proof.
  intros search result.
  assert (Hfirst : forall items : list SearchItem.t,
             items <> [] -> firstn 40 (distinct_channels items) <> []).
  { intros [|item items] H; [congruence|]. discriminate. }
  assert (forall items, (List.length (firstn 40 (fst (YoutubeService.collect items))) <= 40)%nat
                        /\ NoDup (firstn 40 (fst (YoutubeService.collect items))))
    as Hcap.
  { intros items. split; [apply firstn_le_length|].
    destruct (ServiceFacts.collect_collected items) as (Hnd & _).
    rewrite <- (firstn_skipn 40) in Hnd. now apply NoDup_app_remove_r in Hnd. }
  split; [|split; [|split; [|split; [|split; [|split]]]]].
  - intros r Hr. subst result search.
    destruct (ServiceFacts.output_ranked _ _ _ _ _ _ _ _ _ _ Hr)
      as (items & chItems & Hsearch & _ & Hout).
    rewrite Hout in Hr. apply ServiceFacts.In_rank in Hr.
    destruct Hr as (item & _ & Hpushed).
    apply ServiceFacts.pushed_inv in Hpushed.
    destruct Hpushed as (_ & Hvideo & Hdetails & _).
    apply ServiceFacts.fullVideoOf_id in Hvideo.
    exists items. split; [exact Hsearch|].
    destruct (ServiceFacts.collect_collected items) as (_ & _ & Hget).
    unfold channelOf. rewrite Hdetails. cbn. now rewrite <- Hget.
  - intros key ids. subst result search.
    rewrite ServiceFacts.run_findRisingChannels. unfold outcome.
    cbv zeta.
    destruct (remote _ (searchCall _ _ _ _ _ _ _)) as [items|];
      [|intros [H|[]]; discriminate H].
    specialize (Hcap items).
    destruct (firstn 40 _) as [|c0 channelIds];
      [intros [H|[]]; discriminate H|].
    destruct (remote _ (Channels _ _)) as [chItems|].
    + pose proof (ServiceFacts.getVideoDetails_calls remote apiKey
                    (Js.join "," (Js.Map_values (snd (YoutubeService.collect items))))
                    key ids) as Hcalls.
      destruct (run remote _) as [videoDetails calls]. cbn [snd] in *.
      intros [H|[H|H]]; [discriminate H | | contradiction].
      injection H as _ <-. exact Hcap.
    + intros [H|[H|[]]]; [discriminate H|]. injection H as _ <-. exact Hcap.
  - intros Hcontract. subst result search.
    rewrite ServiceFacts.run_findRisingChannels. unfold outcome.
    cbv zeta.
    destruct (remote _ (searchCall _ _ _ _ _ _ _)) as [items|];
      [|split; [cbn; lia | constructor]].
    specialize (Hcap items).
    destruct (firstn 40 _) as [|c0 channelIds];
      [split; [cbn; lia | constructor]|].
    destruct (remote _ (Channels _ _)) as [chItems|] eqn:Hch;
      [|split; [cbn; lia | constructor]].
    destruct (run remote _) as [videoDetails calls]. cbn [fst].
    destruct (Hcontract _ _ _ Hch) as (Hnd & Hincl).
    pose proof (ServiceFacts.rank_perm Date_getTime
                  (YoutubeService.channelCreationCutoff period now)
                  (snd (YoutubeService.collect items)) videoDetails chItems)
      as Hperm.
    split.
    + rewrite (Permutation_length Hperm).
      etransitivity; [apply ServiceFacts.unranked_length|].
      rewrite <- (length_map ChannelItem.id).
      etransitivity; [apply (NoDup_incl_length Hnd Hincl) | apply Hcap].
    + eapply Permutation_NoDup;
        [symmetry; apply Permutation_map; exact Hperm|].
      now apply ServiceFacts.unranked_NoDup.
  - intros Hnone. subst result search.
    rewrite ServiceFacts.run_findRisingChannels. unfold outcome.
    cbv zeta. destruct Hnone as [-> | ->]; reflexivity.
  - intros items Hsearch Hne. subst result search.
    rewrite ServiceFacts.run_findRisingChannels. unfold outcome.
    cbv zeta. rewrite Hsearch, ServiceFacts.collect_distinct.
    specialize (Hfirst items Hne).
    destruct (firstn 40 (distinct_channels items)) as [|c0 channelIds];
      [congruence|].
    destruct (remote _ (Channels _ _)) as [chItems|].
    + destruct (run remote _) as [videoDetails calls]. right. left. reflexivity.
    + right. left. reflexivity.
  - intros items chItems Hsearch Hne Hch Hids. subst result search.
    rewrite ServiceFacts.run_findRisingChannels. unfold outcome.
    cbv zeta.
    rewrite Hsearch, ServiceFacts.collect_distinct,
      ServiceFacts.collect_representatives.
    specialize (Hfirst items Hne).
    destruct (firstn 40 (distinct_channels items)) as [|c0 channelIds];
      [congruence|].
    rewrite Hch. unfold YoutubeService.getVideoDetails. rewrite Hids.
    cbn [run]. destruct (remote _ (Videos _ _)); cbn [run snd request_of];
      right; right; left; reflexivity.
  - intros items chItems item v Hsearch Hne Hch Hitem Hcreated Hv.
    subst result search.
    rewrite <- ServiceFacts.collect_distinct in Hch.
    rewrite (ServiceFacts.output_of_answers _ _ _ _ _ _ _ _ _ _ _ Hsearch
               ltac:(rewrite ServiceFacts.collect_distinct; now apply Hfirst)
               Hch).
    rewrite <- ServiceFacts.fullVideoOf_resolved in Hv.
    destruct Hcreated as (t & Ht & Hle).
    destruct (ServiceFacts.pushed_intro Date_getTime
                (YoutubeService.channelCreationCutoff period now)
                (snd (YoutubeService.collect items))
                (videoDetailsMapOf (videoDetailsOf remote apiKey items)) item v)
      as (r & Hpushed & Hdetails).
    + unfold YoutubeService.createdSince. rewrite Ht. now apply Z.leb_le.
    + exact Hv.
    + exists r. split; [|split].
      * apply ServiceFacts.In_rank. exists item. split; assumption.
      * unfold channelOf. now rewrite Hdetails.
      * apply ServiceFacts.pushed_inv in Hpushed.
        destruct Hpushed as (_ & Hvideo & _). congruence.
Qed.

(** The sample run: the channel lookup keeps to its contract; a search
    without result; and the sample run again: the one channel of its two
    search results is looked up, and it is in the output with the video
    of the first of them. *)
Lemma rising_representatives_witness :
  ((List.length
      (fst (run (sample_remote "2023-11-03T08:26:40.000Z" "5" "1000" true)
                (YoutubeService.findRisingChannels sample_clock sample_now
                   "key" "retro gaming" EmptyString period_3m Global type_all)))
    <= 40)%nat /\
   NoDup
     (map channelOf
        (fst (run (sample_remote "2023-11-03T08:26:40.000Z" "5" "1000" true)
                  (YoutubeService.findRisingChannels sample_clock sample_now
                     "key" "retro gaming" EmptyString period_3m Global type_all))))) /\
  run silent_remote
      (YoutubeService.findRisingChannels sample_clock sample_now
         "key" "retro gaming" EmptyString period_3m Global type_all)
  = ([], [request_of (searchCall sample_now "key" "retro gaming" EmptyString
                                 period_3m Global type_all)]) /\
  In (ChannelsRequest "key" ["c1"])
     (snd (run (sample_remote "2023-11-03T08:26:40.000Z" "5" "1000" true)
               (YoutubeService.findRisingChannels sample_clock sample_now
                  "key" "retro gaming" EmptyString period_3m Global type_all))) /\
  exists r,
    In r (fst (run (sample_remote "2023-11-03T08:26:40.000Z" "5" "1000" true)
                   (YoutubeService.findRisingChannels sample_clock sample_now
                      "key" "retro gaming" EmptyString period_3m Global type_all))) /\
    channelOf r = "c1" /\ YouTubeVideo.id (topVideo r) = "v1".
Proof.
  split; [|split; [|split]].
  - apply (rising_representatives sample_clock
             (sample_remote "2023-11-03T08:26:40.000Z" "5" "1000" true) sample_now
             "key" "retro gaming" EmptyString period_3m Global type_all).
    intros apiKey ids chItems H. cbn in H.
    destruct (Js.Set_has ids "c1") eqn:E; injection H as <-; cbn.
    + split; [repeat constructor; intros [] |].
      intros x [<-|[]]. now apply ServiceFacts.Set_has_In.
    + split; [constructor | intros x []].
  - apply (rising_representatives sample_clock silent_remote sample_now
             "key" "retro gaming" EmptyString period_3m Global type_all).
    left. reflexivity.
  - pose proof (rising_representatives sample_clock
                  (sample_remote "2023-11-03T08:26:40.000Z" "5" "1000" true)
                  sample_now "key" "retro gaming" EmptyString period_3m Global
                  type_all) as H.
    cbv zeta in H. destruct H as (_ & _ & _ & _ & H & _).
    apply (H [ {| SearchItem.channelId := "c1"; SearchItem.videoId := "v1" |};
               {| SearchItem.channelId := "c1"; SearchItem.videoId := "v2" |} ]);
      [reflexivity | discriminate].
  - pose proof (rising_representatives sample_clock
                  (sample_remote "2023-11-03T08:26:40.000Z" "5" "1000" true)
                  sample_now "key" "retro gaming" EmptyString period_3m Global
                  type_all) as H.
    cbv zeta in H. destruct H as (_ & _ & _ & _ & _ & _ & H).
    destruct (H [ {| SearchItem.channelId := "c1"; SearchItem.videoId := "v1" |};
                  {| SearchItem.channelId := "c1"; SearchItem.videoId := "v2" |} ]
                [ sample_channel "c1" "2023-11-03T08:26:40.000Z" "5" ]
                (sample_channel "c1" "2023-11-03T08:26:40.000Z" "5")
                (YoutubeService.toVideo (sample_video_item "v1" "c1" "1000")))
      as (r & Hr & Hc & Hv).
    + reflexivity.
    + discriminate.
    + reflexivity.
    + left. reflexivity.
    + exists 1699000000000. split; [reflexivity | vm_compute; discriminate].
    + reflexivity.
    + exists r. split; [exact Hr|]. split; [exact Hc|]. now rewrite Hv.
Defined.


(** ** The delimited-text exporter *)

Module CsvFacts.
Import Js Utils CsvLayout CsvReader.

Lemma replace_all_doubled s :
  replace_all quote (String quote (String quote EmptyString)) s = doubled s.
Proof.
  induction s as [|c s IH]; simpl; [reflexivity|].
  rewrite IH. destruct (Ascii.eqb c quote); reflexivity.
Qed.

Lemma quoteValue_quoted v : quoteValue v = quoted (String_ v).
Proof. unfold quoteValue, quoted. now rewrite replace_all_doubled. Qed.

Lemma join_comma fields : join "," fields = comma_joined fields.
Proof.
  unfold join. induction fields as [|f [|g rest] IH]; try reflexivity.
  cbn [String.concat comma_joined] in *. now rewrite IH.
Qed.

Lemma join_cons sep x y (l : list string) :
  join sep (x :: y :: l) = x ++ sep ++ join sep (y :: l).
Proof. reflexivity. Qed.

Lemma join_lines header (data : list Obj) :
  join (String LF EmptyString)
       (header :: map (fun obj => join "," (map quoteValue (Object_values obj))) data)
  = header ++ record_rows data.
Proof.
  revert header.
  induction data as [|obj data IH]; intros header; cbn [map].
  - cbn. now rewrite append_empty_r.
  - rewrite join_cons, IH. cbn [record_rows append]. unfold record_row.
    rewrite join_comma.
    rewrite (map_ext _ (fun v => quoted (String_ v)) quoteValue_quoted).
    reflexivity.
Qed.

(** The content of the file is the document of the specification. *)
Lemma downloadCSV_document first rest filename :
  downloadCSV (first :: rest) filename
  = Some (filename ++ ".csv", document first (first :: rest)).
Proof.
  unfold downloadCSV, document, header_row. cbv zeta.
  now rewrite join_lines, join_comma.
Qed.

(** *** Reading a document back *)

Local Open Scope list_scope.

Lemma feed_app r s1 s2 : feed r (s1 ++ s2)%string = feed (feed r s1) s2.
Proof.
  revert r. induction s1 as [|c s1 IH]; intros r; simpl; [reflexivity|].
  apply IH.
Qed.

Lemma step_plain r c :
  unquoted r ->
  negb (Ascii.eqb c "," || Ascii.eqb c LF || Ascii.eqb c CR || Ascii.eqb c quote)
  = true ->
  step r c = add r Plain c.
Proof.
  intros Hr Hc. apply negb_true_iff in Hc.
  apply orb_false_iff in Hc. destruct Hc as [Hc Hq].
  apply orb_false_iff in Hc. destruct Hc as [Hc Hcr].
  apply orb_false_iff in Hc. destruct Hc as [Hcomma Hlf].
  unfold step, outside.
  destruct Hr as [-> | [-> | ->]];
    rewrite Hcomma, Hlf, Hcr, ?Hq, ?andb_false_r; reflexivity.
Qed.

Lemma feed_plain h : forall r,
  unquoted r -> plain h = true ->
  unquoted (feed r h) /\
  field (feed r h) = (field r ++ h)%string /\
  row (feed r h) = row r /\ rows (feed r h) = rows r.
Proof.
  induction h as [|c h IH]; intros r Hr Hh; cbn [feed].
  - now rewrite append_empty_r.
  - cbn [plain] in Hh. apply andb_true_iff in Hh. destruct Hh as [Hc Hh].
    rewrite (step_plain r c Hr Hc).
    destruct (IH (add r Plain c)) as (H1 & H2 & H3 & H4);
      [right; right; reflexivity | exact Hh |].
    repeat split; trivial.
    rewrite H2. cbn [add field]. now rewrite append_assoc.
Qed.

Lemma step_comma r :
  state r <> Quoted -> step r "," = end_field r.
Proof. unfold step. destruct (state r); try reflexivity. congruence. Qed.

Lemma step_LF r :
  state r <> Quoted -> step r LF = end_record r.
Proof. unfold step. destruct (state r); try reflexivity. congruence. Qed.

Lemma unquoted_not_Quoted r : unquoted r -> state r <> Quoted.
Proof. intros [H | [H | H]]; rewrite H; discriminate. Qed.

(** The header row: names that need no quotes, separated by commas. *)
Lemma feed_header hs : forall r,
  hs <> [] -> Forall (fun h => plain h = true) hs ->
  unquoted r -> field r = EmptyString ->
  unquoted (feed r (comma_joined hs)) /\
  rows (feed r (comma_joined hs)) = rows r /\
  row (feed r (comma_joined hs)) ++ [field (feed r (comma_joined hs))]
  = row r ++ hs.
Proof.
  induction hs as [|h hs IH]; intros r Hne Hplain Hr Hfield; [congruence|].
  inversion Hplain as [|? ? Hh Hhs]; subst.
  destruct (feed_plain h r Hr Hh) as (H1 & H2 & H3 & H4).
  destruct hs as [|h2 hs].
  - cbn [comma_joined]. repeat split; trivial. now rewrite H2, H3, Hfield.
  - change (comma_joined (h :: h2 :: hs))
      with (h ++ String "," (comma_joined (h2 :: hs)))%string.
    rewrite feed_app. cbn [feed].
    rewrite step_comma by now apply unquoted_not_Quoted.
    destruct (IH (end_field (feed r h))) as (G1 & G2 & G3);
      [discriminate | exact Hhs | right; left; reflexivity | reflexivity |].
    repeat split; trivial.
    + rewrite G2. exact H4.
    + rewrite G3. cbn [end_field row]. rewrite H2, H3, Hfield.
      now rewrite <- app_assoc.
Qed.

Lemma feed_doubled v : forall r,
  state r = Quoted ->
  feed r (doubled v)
  = {| state := Quoted; field := (field r ++ v)%string;
       row := row r; rows := rows r |}.
Proof.
  induction v as [|c v IH]; intros [st f rw rs] Hst; cbn in Hst; subst st.
  - cbn. now rewrite append_empty_r.
  - cbn [doubled]. destruct (Ascii.eqb c quote) eqn:E.
    + apply Ascii.eqb_eq in E. subst c. cbn [feed]. unfold step at 2. cbn.
      rewrite IH by reflexivity. cbn. now rewrite append_assoc.
    + cbn [feed]. unfold step. cbn [state]. rewrite E.
      rewrite IH by reflexivity. cbn. now rewrite append_assoc.
Qed.

Lemma feed_quoted v r :
  at_start r ->
  feed r (quoted v)
  = {| state := QuoteSeen; field := v; row := row r; rows := rows r |}.
Proof.
  destruct r as [st f rw rs]. intros [Hst Hf]. cbn in Hst, Hf. subst f.
  unfold quoted. cbn [feed].
  replace (step _ quote)
    with {| state := Quoted; field := EmptyString; row := rw; rows := rs |}
    by (destruct Hst; subst st; reflexivity).
  rewrite feed_app, feed_doubled by reflexivity. reflexivity.
Qed.

(** A row of values in quotes, separated by commas. *)
Lemma feed_record vs : forall r,
  vs <> [] -> at_start r ->
  state (feed r (comma_joined (map quoted vs))) = QuoteSeen /\
  rows (feed r (comma_joined (map quoted vs))) = rows r /\
  row (feed r (comma_joined (map quoted vs)))
  ++ [field (feed r (comma_joined (map quoted vs)))]
  = row r ++ vs.
Proof.
  induction vs as [|v vs IH]; intros r Hne Hr; [congruence|].
  destruct vs as [|v2 vs].
  - cbn [map comma_joined]. rewrite feed_quoted by exact Hr.
    repeat split; reflexivity.
  - change (comma_joined (map quoted (v :: v2 :: vs)))
      with (quoted v ++ String "," (comma_joined (map quoted (v2 :: vs))))%string.
    rewrite feed_app, feed_quoted by exact Hr. cbn [feed].
    rewrite step_comma by (cbn; discriminate).
    match goal with
    | |- context [feed ?r0 (comma_joined (map quoted (v2 :: vs)))] =>
        destruct (IH r0) as (G1 & G2 & G3);
          [discriminate | split; [right|]; reflexivity |]
    end.
    repeat split; trivial. rewrite G3. cbn. now rewrite <- app_assoc.
Qed.

Lemma record_row_texts obj : record_row obj = comma_joined (map quoted (texts obj)).
Proof. unfold record_row, texts. now rewrite map_map. Qed.

(** The rows of the records, each after a line feed. *)
Lemma feed_records data : forall obj r,
  Forall (fun o => texts o <> []) (obj :: data) ->
  state r <> Quoted ->
  state (feed r (record_rows (obj :: data))) = QuoteSeen /\
  total (feed r (record_rows (obj :: data)))
  = total r ++ map texts (obj :: data).
Proof.
  induction data as [|obj2 data IH]; intros obj r Hne Hr;
    inversion Hne as [|? ? Hobj Hrest]; subst.
  - cbn [record_rows]. rewrite append_empty_r. cbn [feed].
    rewrite step_LF by exact Hr. rewrite record_row_texts.
    destruct (feed_record (texts obj) (end_record r)) as (G1 & G2 & G3);
      [exact Hobj | split; [left|]; reflexivity |].
    split; [exact G1|]. unfold total. rewrite G2, G3. reflexivity.
  - change (record_rows (obj :: obj2 :: data))
      with (String LF (record_row obj ++ record_rows (obj2 :: data)))%string.
    cbn [feed]. rewrite step_LF by exact Hr.
    rewrite feed_app, record_row_texts.
    destruct (feed_record (texts obj) (end_record r)) as (G1 & G2 & G3);
      [exact Hobj | split; [left|]; reflexivity |].
    destruct (IH obj2 (feed (end_record r) (comma_joined (map quoted (texts obj)))))
      as (F1 & F2); [exact Hrest | rewrite G1; discriminate |].
    split; [exact F1|]. rewrite F2. unfold total at 1. rewrite G2, G3.
    cbn [end_record rows row map]. unfold total.
    rewrite <- !app_assoc. reflexivity.
Qed.

Lemma uniform_texts first rest :
  Object_keys first <> [] -> uniform (first :: rest) ->
  Forall (fun o => texts o <> []) (first :: rest).
Proof.
  intros Hkeys Huni. cbn [uniform] in Huni.
  eapply Forall_impl; [|exact Huni]. intros obj Hobj.
  unfold texts, Object_values. rewrite <- Hobj in Hkeys.
  unfold Object_keys in Hkeys.
  destruct obj; cbn in *; [congruence | discriminate].
Qed.

Lemma read_document first rest :
  Object_keys first <> [] ->
  Forall (fun name => plain name = true) (Object_keys first) ->
  uniform (first :: rest) ->
  read (document first (first :: rest))
  = Object_keys first :: map texts (first :: rest).
Proof.
  intros Hkeys Hplain Huni. unfold read, document, header_row.
  change (skip_BOM (BOM ++ ?x)%string) with x.
  rewrite feed_app.
  destruct (feed_header (Object_keys first) init Hkeys Hplain) as (H1 & H2 & H3);
    [left; reflexivity | reflexivity |].
  destruct (feed_records rest first (feed init (comma_joined (Object_keys first))))
    as (G1 & G2);
    [now apply uniform_texts | now apply unquoted_not_Quoted |].
  unfold finish. rewrite G1. fold (total (feed (feed init (comma_joined (Object_keys first)))
                                          (record_rows (first :: rest)))).
  rewrite G2. unfold total. rewrite H2, H3. reflexivity.
Qed.

End CsvFacts.

(** The export of no record at all: nothing is downloaded. *)
Lemma downloadCSV_counterexample :
  ~ exists content, Utils.downloadCSV [] "report" = Some ("report.csv", content).
Proof. intros [content H]. discriminate H. Qed.

(** C8 (amended).  For a list of records that is not empty the content
    of the exported file is the byte-order marker, the header row of the
    field names of the first record, then one row for each record in
    which every value is in quotes, the quotes inside it doubled, and the
    values are joined by commas.  For the empty list nothing is exported. *)
Theorem downloadCSV_layout (first : Utils.Obj) (rest : list Utils.Obj)
        (filename : string) :
  Utils.downloadCSV (first :: rest) filename
  = Some (filename ++ ".csv", CsvLayout.document first (first :: rest)) /\
  Utils.downloadCSV [] filename = None.
Proof. split; [apply CsvFacts.downloadCSV_document | reflexivity]. Qed.

(** C9.  Exporting a set of uniform records (two rows, or any number that
    is not zero) and reading the file back with a reader of delimited text
    (fields in quotes, two quotes for one) gives the header names and,
    for each record, the texts of its values as they were, whatever
    quotes, commas or line feeds they hold.  The field names are such as
    need no quotes. *)
Theorem downloadCSV_round_trip (first : Utils.Obj) (rest : list Utils.Obj)
        (filename : string) :
  Utils.Object_keys first <> [] ->
  Forall (fun name => CsvReader.plain name = true) (Utils.Object_keys first) ->
  CsvLayout.uniform (first :: rest) ->
  exists content,
    Utils.downloadCSV (first :: rest) filename = Some (filename ++ ".csv", content) /\
    CsvReader.read content
    = Utils.Object_keys first
      :: map (fun obj => map Utils.String_ (Utils.Object_values obj)) (first :: rest).
Proof.
  intros Hkeys Hplain Huni. eexists. split.
  - apply CsvFacts.downloadCSV_document.
  - now apply CsvFacts.read_document.
Qed.

(** Two records; the title of the first holds quotes and a comma. *)
Lemma downloadCSV_round_trip_witness :
  exists content,
    Utils.downloadCSV sample_records "videos" = Some ("videos.csv", content) /\
    CsvReader.read content
    = [ ["title"; "viewCount"; "tags"];
        [ "say " ++ String Utils.quote ("hi" ++ String Utils.quote ", then leave");
          "1200"; "a,b" ];
        [ "plain"; "0"; EmptyString ] ].
Proof.
  apply (downloadCSV_round_trip
           (hd [] sample_records) (tl sample_records) "videos").
  - discriminate.
  - repeat constructor.
  - repeat constructor.
Defined.

(** * Properties of more of the code *)

(** ** The stored keys *)

Module KeyFacts.
Import KeyStore.
Local Open Scope list_scope.

Lemma below_checked (n : nat) (P : Z -> bool) :
  forallb P (map Z.of_nat (seq 0 n)) = true ->
  forall z, 0 <= z < Z.of_nat n -> P z = true.
Proof.
  intros H z Hz. rewrite forallb_forall in H. apply H.
  apply in_map_iff. exists (Z.to_nat z). split; [lia|].
  apply in_seq. lia.
Qed.

Lemma base64_value_char s :
  0 <= s < 64 -> base64_value (base64_char s) = Some s.
Proof.
  intros Hs.
  pose proof (below_checked 64
                (fun s => match base64_value (base64_char s) with
                          | Some v => v =? s
                          | None => false
                          end) eq_refl s Hs) as H.
  cbv beta in H. destruct (base64_value (base64_char s)); [|discriminate].
  apply Z.eqb_eq in H. now subst.
Qed.

Lemma base64_char_plain s :
  0 <= s < 64 ->
  is_ascii_whitespace (base64_char s) = false /\ base64_char s <> pad.
Proof.
  intros Hs.
  pose proof (below_checked 64
                (fun s => negb (is_ascii_whitespace (base64_char s))
                          && negb (base64_char s =? pad)) eq_refl s Hs) as H.
  cbv beta in H. apply andb_true_iff in H. destruct H as [H1 H2].
  apply negb_true_iff in H1, H2. split; [exact H1 | now apply Z.eqb_neq].
Qed.

Lemma mask_latin1 c : 0 <= c <= 255 -> 0 <= Z.lxor c 123 <= 255.
Proof.
  intros Hc.
  pose proof (below_checked 256
                (fun c => (0 <=? Z.lxor c 123) && (Z.lxor c 123 <=? 255))
                eq_refl c ltac:(lia)) as H.
  cbv beta in H. apply andb_true_iff in H. destruct H as [H1 H2].
  apply Z.leb_le in H1, H2. lia.
Qed.

Lemma lxor_twice c : Z.lxor (Z.lxor c 123) 123 = c.
Proof. now rewrite Z.lxor_assoc, Z.lxor_nilpotent, Z.lxor_0_r. Qed.

Lemma list_ind3 {A} (P : list A -> Prop) :
  P [] -> (forall a, P [a]) -> (forall a b, P [a; b]) ->
  (forall a b c rest, P rest -> P (a :: b :: c :: rest)) ->
  forall l, P l.
Proof.
  intros H0 H1 H2 H3. fix IH 1.
  intros [|a [|b [|c rest]]];
    [exact H0 | apply H1 | apply H2 | apply H3, IH].
Qed.

Lemma encode_shape bytes :
  base64_encode bytes = map base64_char (sextets bytes) ++ padding bytes.
Proof.
  induction bytes as [|a|a b|a b c rest IH] using list_ind3; try reflexivity.
  cbn [base64_encode sextets padding map app]. now rewrite IH.
Qed.

Lemma sextets_range bytes :
  latin1 bytes -> Forall (fun s => 0 <= s < 64) (sextets bytes).
Proof.
  induction bytes as [|a|a b|a b c rest IH] using list_ind3; intros H;
    cbn [sextets].
  - constructor.
  - inversion H as [|? ? Ha _]; subst.
    repeat constructor; Z.div_mod_to_equations; lia.
  - inversion H as [|? ? Ha H']; subst. inversion H' as [|? ? Hb _]; subst.
    repeat constructor; Z.div_mod_to_equations; lia.
  - inversion H as [|? ? Ha H']; subst. inversion H' as [|? ? Hb H'']; subst.
    inversion H'' as [|? ? Hc Hrest]; subst.
    repeat (constructor; [Z.div_mod_to_equations; lia|]). now apply IH.
Qed.

Lemma decode_sextets bytes :
  latin1 bytes -> base64_decode (sextets bytes) = bytes.
Proof.
  induction bytes as [|a|a b|a b c rest IH] using list_ind3; intros H;
    cbn [sextets base64_decode].
  - reflexivity.
  - inversion H as [|? ? Ha _]; subst.
    f_equal. Z.div_mod_to_equations; lia.
  - inversion H as [|? ? Ha H']; subst. inversion H' as [|? ? Hb _]; subst.
    repeat f_equal; Z.div_mod_to_equations; lia.
  - inversion H as [|? ? Ha H']; subst. inversion H' as [|? ? Hb H'']; subst.
    inversion H'' as [|? ? Hc Hrest]; subst.
    rewrite IH by assumption.
    repeat f_equal; Z.div_mod_to_equations; lia.
Qed.

(** How many characters there are before the padding. *)
Lemma sextets_length bytes :
  exists k : nat,
    (padding bytes = [] /\ List.length (sextets bytes) = (4 * k)%nat) \/
    (padding bytes = [pad] /\ List.length (sextets bytes) = (4 * k + 3)%nat) \/
    (padding bytes = [pad; pad] /\ List.length (sextets bytes) = (4 * k + 2)%nat).
Proof.
  induction bytes as [|a|a b|a b c rest IH] using list_ind3.
  - exists 0%nat. now left.
  - exists 0%nat. right. now right.
  - exists 0%nat. right. now left.
  - destruct IH as [k IH]. exists (S k). cbn [sextets padding List.length].
    destruct IH as [[-> E] | [[-> E] | [-> E]]]; rewrite E;
      [left | right; left | right; right]; split; trivial; lia.
Qed.

Lemma values_chars sx :
  Forall (fun s => 0 <= s < 64) sx ->
  base64_values (map base64_char sx) = Some sx.
Proof.
  induction 1 as [|s sx Hs _ IH]; cbn; [reflexivity|].
  now rewrite base64_value_char, IH.
Qed.

Lemma filter_chars sx tail :
  Forall (fun s => 0 <= s < 64) sx -> Forall (eq pad) tail ->
  filter (fun c => negb (is_ascii_whitespace c)) (map base64_char sx ++ tail)
  = map base64_char sx ++ tail.
Proof.
  intros Hsx Htail. rewrite filter_app. f_equal.
  - induction Hsx as [|s sx Hs _ IH]; cbn; [reflexivity|].
    destruct (base64_char_plain s Hs) as [-> _]. cbn. now rewrite IH.
  - induction Htail as [|c tail <- _ IH]; cbn; [reflexivity|]. now rewrite IH.
Qed.

Lemma strip_padding_chars sx tail :
  Forall (fun s => 0 <= s < 64) sx ->
  tail = [] \/ tail = [pad] \/ tail = [pad; pad] ->
  strip_padding (map base64_char sx ++ tail) = map base64_char sx.
Proof.
  intros Hsx Htail. unfold strip_padding.
  assert (match rev (map base64_char sx) with
          | [] => True
          | p :: _ => (p =? pad) = false
          end) as Hlast.
  { destruct (rev (map base64_char sx)) as [|p r] eqn:E; [exact I|].
    assert (In p (map base64_char sx)) as Hp
        by (apply in_rev; rewrite E; now left).
    apply in_map_iff in Hp. destruct Hp as (s & <- & Hs).
    rewrite Forall_forall in Hsx.
    apply Z.eqb_neq. now apply base64_char_plain, Hsx. }
  assert (rev (rev (map base64_char sx)) = map base64_char sx) as Hrev
      by apply rev_involutive.
  destruct Htail as [-> | [-> | ->]]; rewrite rev_app_distr; cbn [rev app];
    destruct (rev (map base64_char sx)) as [|p1 r]; cbn [app].
  - symmetry. now rewrite app_nil_r.
  - rewrite app_nil_r. destruct r; now rewrite Hlast.
  - rewrite Z.eqb_refl. exact Hrev.
  - rewrite Z.eqb_refl, Hlast. exact Hrev.
  - rewrite !Z.eqb_refl. exact Hrev.
  - rewrite !Z.eqb_refl. exact Hrev.
Qed.

(** Decoding what [btoa] made gives the bytes back. *)
Lemma atob_encode bytes :
  latin1 bytes -> atob (base64_encode bytes) = Some bytes.
Proof.
  intros H. unfold atob. cbv zeta. rewrite encode_shape.
  pose proof (sextets_range bytes H) as Hsx.
  destruct (sextets_length bytes) as [k Hk].
  rewrite filter_chars;
    [|exact Hsx
     |destruct Hk as [[-> _] | [[-> _] | [-> _]]]; repeat constructor].
  rewrite length_app, length_map.
  replace (Z.of_nat (List.length (sextets bytes) + List.length (padding bytes))
           mod 4 =? 0) with true.
  2:{ symmetry. apply Z.eqb_eq.
      destruct Hk as [[-> ->] | [[-> ->] | [-> ->]]]; cbn [List.length];
        Z.div_mod_to_equations; lia. }
  rewrite strip_padding_chars;
    [|exact Hsx | destruct Hk as [[-> _] | [[-> _] | [-> _]]]; auto].
  rewrite length_map.
  replace (Z.of_nat (List.length (sextets bytes)) mod 4 =? 1) with false.
  2:{ symmetry. apply Z.eqb_neq.
      destruct Hk as [[_ ->] | [[_ ->] | [_ ->]]];
        Z.div_mod_to_equations; lia. }
  rewrite values_chars by exact Hsx. cbn [option_map].
  now rewrite decode_sextets.
Qed.

Lemma mask_keeps_latin1 key : latin1 key -> latin1 (mask key).
Proof.
  unfold latin1, mask. intros H. apply Forall_forall. intros x Hx.
  apply in_map_iff in Hx. destruct Hx as (c & <- & Hc).
  rewrite Forall_forall in H. specialize (H c Hc).
  pose proof (mask_latin1 c H). unfold fromCharCode.
  rewrite Z.mod_small; lia.
Qed.

Lemma mask_mask key : latin1 key -> mask (mask key) = key.
Proof.
  unfold latin1, mask. intros H. rewrite map_map.
  rewrite <- (map_id key) at 2. apply map_ext_in. intros c Hc.
  rewrite Forall_forall in H. specialize (H c Hc).
  pose proof (mask_latin1 c H). unfold fromCharCode.
  rewrite (Z.mod_small (Z.lxor c 123)) by lia.
  rewrite lxor_twice. apply Z.mod_small. lia.
Qed.

Lemma btoa_latin1 s : latin1 s -> btoa s = Some (base64_encode s).
Proof.
  intros H. unfold btoa.
  replace (forallb (fun c => c <=? 255) s) with true; [reflexivity|].
  symmetry. apply forallb_forall. intros c Hc.
  unfold latin1 in H. rewrite Forall_forall in H. apply Z.leb_le.
  now apply H.
Qed.

Lemma mask_range c : 0 <= c < 65536 -> 0 <= Z.lxor c 123 < 65536.
Proof.
  intros Hc. split; [apply Z.lxor_nonneg; lia|].
  destruct (Z.eq_dec (Z.lxor c 123) 0) as [->|Hne]; [lia|].
  assert (0 < Z.lxor c 123) as Hpos
      by (pose proof (proj2 (Z.lxor_nonneg c 123) ltac:(lia)); lia).
  change 65536 with (2 ^ 16). apply Z.log2_lt_pow2; [exact Hpos|].
  pose proof (Z.log2_lxor c 123 ltac:(lia) ltac:(lia)) as Hlog.
  assert (Z.log2 c < 16) as Hc16.
  { destruct (Z.eq_dec c 0) as [->|]; [cbn; lia|].
    apply Z.log2_lt_pow2; [lia|]. change (2 ^ 16) with 65536. lia. }
  change (Z.log2 123) with 6 in Hlog. lia.
Qed.

(** A character outside Latin-1 stays outside it under the mask. *)
Lemma mask_wide c : 0 <= c < 65536 -> 255 < c -> 255 < fromCharCode (Z.lxor c 123).
Proof.
  intros Hc Hwide. pose proof (mask_range c Hc) as Hr.
  unfold fromCharCode. rewrite Z.mod_small by lia.
  destruct (Z.le_gt_cases (Z.lxor c 123) 255) as [Hle|]; [|lia].
  pose proof (mask_latin1 (Z.lxor c 123) ltac:(lia)) as H.
  rewrite lxor_twice in H. lia.
Qed.

Lemma decryptKey_empty : decryptKey [] = [].
Proof. reflexivity. Qed.

Lemma values_foreign c data :
  In c data -> base64_value c = None -> base64_values data = None.
Proof.
  induction data as [|x data IH]; [intros []|].
  intros [->|H] Hc; cbn [base64_values].
  - now rewrite Hc.
  - rewrite (IH H Hc). now destruct (base64_value x).
Qed.

Lemma strip_padding_keeps c data :
  In c data -> c <> pad -> In c (strip_padding data).
Proof.
  intros Hin Hc. unfold strip_padding.
  apply in_rev in Hin.
  destruct (rev data) as [|p1 [|p2 r]] eqn:E.
  - destruct Hin.
  - destruct Hin as [->|[]]. apply Z.eqb_neq in Hc. rewrite Hc.
    apply in_rev. rewrite E. now left.
  - destruct (Z.eqb_spec p1 pad) as [->|_];
      [|apply in_rev; rewrite E; exact Hin].
    destruct Hin as [Hin|Hin]; [congruence|].
    destruct (Z.eqb_spec p2 pad) as [->|_].
    + destruct Hin as [Hin|Hin]; [congruence|]. now apply in_rev in Hin.
    + now apply in_rev in Hin.
Qed.

End KeyFacts.

(** X1.  A key made of Latin-1 characters (every key of the two services
    is ASCII) is recovered from what [encryptKey] stores: decrypting the
    stored text gives the key back. *)
Theorem decryptKey_encryptKey (key : KeyStore.JsString) :
  KeyStore.latin1 key ->
  KeyStore.decryptKey (KeyStore.encryptKey key) = key.
Proof.
  intros H. unfold KeyStore.encryptKey, KeyStore.decryptKey.
  rewrite KeyFacts.btoa_latin1 by now apply KeyFacts.mask_keeps_latin1.
  rewrite KeyFacts.atob_encode by now apply KeyFacts.mask_keeps_latin1.
  now apply KeyFacts.mask_mask.
Qed.

(** The key [AIza], the first letters of a key of the video service. *)
Lemma decryptKey_encryptKey_witness :
  KeyStore.decryptKey (KeyStore.encryptKey [65; 73; 122; 97]) = [65; 73; 122; 97].
Proof.
  apply decryptKey_encryptKey. repeat constructor; lia.
Defined.

(** X2.  A key with a character outside Latin-1 is lost: [btoa] throws,
    [encryptKey] stores the empty string, and decrypting what was stored
    gives the empty string, not the key. *)
Theorem encryptKey_wide_key (key : KeyStore.JsString) :
  KeyStore.code_units key ->
  (exists c, In c key /\ 255 < c) ->
  KeyStore.encryptKey key = [] /\
  KeyStore.decryptKey (KeyStore.encryptKey key) = [].
Proof.
  intros Hunits (c & Hc & Hwide).
  assert (KeyStore.encryptKey key = []) as E.
  { unfold KeyStore.encryptKey, KeyStore.btoa.
    replace (forallb (fun c => c <=? 255) (KeyStore.mask key)) with false;
      [reflexivity|].
    symmetry. apply not_true_is_false. intros Hall.
    rewrite forallb_forall in Hall.
    specialize (Hall (KeyStore.fromCharCode (Z.lxor c 123))).
    unfold KeyStore.code_units in Hunits. rewrite Forall_forall in Hunits.
    pose proof (KeyFacts.mask_wide c (Hunits c Hc) Hwide) as Hm.
    apply Z.leb_le in Hall; [lia|].
    unfold KeyStore.mask. apply in_map_iff. now exists c. }
  split; [exact E|]. rewrite E. apply KeyFacts.decryptKey_empty.
Qed.

(** A key with the letter U+D0A4 in it. *)
Lemma encryptKey_wide_key_witness :
  KeyStore.encryptKey [65; 53412; 66] = [] /\
  KeyStore.decryptKey (KeyStore.encryptKey [65; 53412; 66]) = [].
Proof.
  apply encryptKey_wide_key.
  - repeat constructor; lia.
  - exists 53412. split; [right; left; reflexivity | lia].
Defined.

(** X3.  [decryptKey] gives the empty string for a stored text that holds
    a character which is neither of the base64 alphabet nor white space
    nor the padding sign: the error of [atob] is caught. *)
Theorem decryptKey_foreign (cipher : KeyStore.JsString) (c : Z) :
  In c cipher -> KeyStore.foreign c -> KeyStore.decryptKey cipher = [].
Proof.
  intros Hin (Hws & Hpad & Hval).
  unfold KeyStore.decryptKey, KeyStore.atob. cbv zeta.
  match goal with
  | |- context [filter ?f cipher] => set (data := filter f cipher)
  end.
  assert (In c data) as Hdata
      by (apply filter_In; split; [exact Hin | now rewrite Hws]).
  match goal with
  | |- context [if ?b then KeyStore.strip_padding data else data] =>
      set (data' := if b then KeyStore.strip_padding data else data)
  end.
  assert (In c data') as Hdata'.
  { subst data'. destruct (_ =? 0); [|exact Hdata].
    now apply KeyFacts.strip_padding_keeps. }
  destruct (_ =? 1); [reflexivity|].
  now rewrite (KeyFacts.values_foreign c data' Hdata' Hval).
Qed.

(** A stored text with a star in it. *)
Lemma decryptKey_foreign_witness :
  KeyStore.decryptKey [65; 66; 42; 67] = [].
Proof.
  apply (decryptKey_foreign [65; 66; 42; 67] 42).
  - right. right. left. reflexivity.
  - repeat split. discriminate.
Defined.

(** ** Durations in days and hours *)

Module DurationKRFacts.
Import Duration.

Lemma Qfloor_unique x n :
  (inject_Z n <= x)%Q -> (x < inject_Z (n + 1))%Q -> Qfloor x = n.
Proof.
  intros Hle Hlt.
  assert (n <= Qfloor x) as H1
      by (rewrite <- (Qfloor_Z n); now apply Qfloor_resp_le).
  assert (Qfloor x < n + 1) as H2.
  { rewrite Zlt_Qlt. eapply Qle_lt_trans; [apply Qfloor_le | exact Hlt]. }
  lia.
Qed.

Lemma Qfloor_bounds x :
  (inject_Z (Qfloor x) <= x)%Q /\ (x < inject_Z (Qfloor x) + 1)%Q.
Proof.
  split; [apply Qfloor_le|].
  pose proof (Qlt_floor x) as H. rewrite inject_Z_plus in H. exact H.
Qed.

Lemma trunc_nonneg x : (0 <= x)%Q -> trunc x = Qfloor x.
Proof.
  intros H. unfold trunc. apply Qle_bool_iff in H. now rewrite H.
Qed.

Lemma parts_nonneg ms :
  (0 <= ms)%Q ->
  0 <= fst (parts ms) /\
  0 <= snd (parts ms) <= 23 /\
  fst (parts ms) * 24 + snd (parts ms) = Qfloor (ms / ms_per_hour).
Proof.
  intros Hms. unfold parts, rem. cbn [fst snd].
  assert (ms / ms_per_day == ms * (1 # 86400000))%Q as Ed
      by (change ms_per_day with 86400000%Q; field).
  assert (0 <= ms / ms_per_day)%Q as Hd by (rewrite Ed; lra).
  rewrite (trunc_nonneg _ Hd).
  set (d := Qfloor (ms / ms_per_day)).
  destruct (Qfloor_bounds (ms / ms_per_day)) as [Hd1 Hd2]. fold d in Hd1, Hd2.
  rewrite Ed in Hd1, Hd2.
  set (r := ((ms - ms_per_day * inject_Z d) / ms_per_hour)%Q).
  assert (r == ms * (1 # 3600000) - 24 * inject_Z d)%Q as Er
      by (unfold r; change ms_per_day with 86400000%Q;
          change ms_per_hour with 3600000%Q; field).
  destruct (Qfloor_bounds r) as [Hr1 Hr2].
  assert (0 <= d) as Hd0.
  { change 0 with (Qfloor 0). now apply Qfloor_resp_le. }
  assert (0 <= Qfloor r) as Hh0.
  { change 0 with (Qfloor 0). apply Qfloor_resp_le. rewrite Er. lra. }
  assert (Qfloor r < 24) as Hh1.
  { rewrite Zlt_Qlt. eapply Qle_lt_trans; [exact Hr1|]. rewrite Er.
    change (inject_Z 24) with 24%Q. lra. }
  set (h := Qfloor r) in *.
  repeat split; try lia.
  symmetry. apply Qfloor_unique.
  - rewrite inject_Z_plus, inject_Z_mult. change (inject_Z 24) with 24%Q.
    assert (ms / ms_per_hour == ms * (1 # 3600000))%Q as Eh
        by (change ms_per_hour with 3600000%Q; field).
    rewrite Eh. lra.
  - rewrite !inject_Z_plus, inject_Z_mult. change (inject_Z 24) with 24%Q.
    change (inject_Z 1) with 1%Q.
    assert (ms / ms_per_hour == ms * (1 # 3600000))%Q as Eh
        by (change ms_per_hour with 3600000%Q; field).
    rewrite Eh. lra.
Qed.

End DurationKRFacts.

(** X4.  For a duration that is not negative, the hours [formatDurationKR]
    shows are between 0 and 23, the days are not negative, and days and
    hours together are the whole hours of the duration (what is left of
    an hour is dropped); a duration below one day is shown as its whole
    hours alone. *)
Theorem formatDurationKR_parts (ms : Q) :
  (0 <= ms)%Q ->
  0 <= fst (Duration.parts ms) /\
  0 <= snd (Duration.parts ms) <= 23 /\
  fst (Duration.parts ms) * 24 + snd (Duration.parts ms)
  = Qfloor (ms / Duration.ms_per_hour) /\
  ((ms < Duration.ms_per_day)%Q ->
   Duration.formatDurationKR ms
   = Duration.show (Qfloor (ms / Duration.ms_per_hour)) ++ "시간").
Proof.
  intros Hms.
  destruct (DurationKRFacts.parts_nonneg ms Hms) as (Hd & Hh & Htotal).
  repeat split; try lia; try exact Htotal.
  intros Hday. unfold Duration.formatDurationKR.
  destruct (Duration.parts ms) as [days hours] eqn:E. cbn [fst snd] in *.
  assert (days = 0) as ->.
  { assert (days = Qfloor (ms / Duration.ms_per_day)) as ->
        by (unfold Duration.parts in E; congruence).
    apply DurationKRFacts.Qfloor_unique.
    - change Duration.ms_per_day with 86400000%Q.
      assert (ms / 86400000 == ms * (1 # 86400000))%Q as -> by field.
      change (inject_Z 0) with 0%Q. lra.
    - change Duration.ms_per_day with 86400000%Q in *.
      assert (ms / 86400000 == ms * (1 # 86400000))%Q as -> by field.
      change (inject_Z (0 + 1)) with 1%Q. lra. }
  cbn [Z.ltb Z.compare]. now rewrite <- Htotal.
Qed.

(** Two days, five hours and a half; and five hours and a half. *)
Lemma formatDurationKR_parts_witness :
  Duration.parts (192600000 # 1) = (2, 5) /\
  Duration.formatDurationKR (19800000 # 1) = "5시간".
Proof.
  split.
  - reflexivity.
  - destruct (formatDurationKR_parts (19800000 # 1)) as (_ & _ & _ & H);
      [discriminate|].
    rewrite H; [reflexivity | reflexivity].
Defined.

(** ** Lists sorted by a key, largest first *)

Section TopFacts.
Context {A : Type}.
Variable key : A -> Q.

Lemma above_perm x (l l' : list A) :
  Permutation l l' ->
  List.length (above key x l) = List.length (above key x l').
Proof.
  intros H. unfold above.
  induction H as [|a l l' H IH|a b l|l l' l'' H1 IH1 H2 IH2]; simpl.
  - reflexivity.
  - destruct (negb _); simpl; congruence.
  - destruct (negb _), (negb _); reflexivity.
  - congruence.
Qed.

Lemma above_none x l :
  Forall (fun y => (key y <= key x)%Q) l -> above key x l = [].
Proof.
  induction 1 as [|y l Hy _ IH]; [reflexivity|].
  unfold above in *. simpl. apply Qle_bool_iff in Hy. now rewrite Hy.
Qed.

(** Fewer than [n] elements lie above one of the first [n]. *)
Lemma above_firstn l :
  StronglySorted (descending key) l ->
  forall n x, In x (firstn n l) -> (List.length (above key x l) < n)%nat.
Proof.
  induction 1 as [|a l Hs IH Ha]; intros n x Hx.
  - rewrite firstn_nil in Hx. destruct Hx.
  - destruct n as [|n]; [destruct Hx|]. simpl in Hx. destruct Hx as [<-|Hx].
    + unfold above. simpl.
      assert (Qle_bool (key a) (key a) = true) as ->
          by (apply Qle_bool_iff, Qle_refl).
      simpl. fold (above key a l). rewrite above_none; [simpl; lia | exact Ha].
    + specialize (IH n x Hx). unfold above in *. simpl.
      destruct (negb _); simpl; lia.
Qed.



Lemma sorted_firstn n l :
  StronglySorted (descending key) l -> StronglySorted (descending key) (firstn n l).
Proof.
  intros H. revert n. induction H as [|a l Hs IH Ha]; intros n.
  - rewrite firstn_nil. constructor.
  - destruct n as [|n]; [constructor|]. simpl. constructor; [apply IH|].
    apply Forall_forall. intros y Hy. rewrite Forall_forall in Ha.
    apply Ha. rewrite <- (firstn_skipn n l). apply in_or_app. now left.
Qed.

End TopFacts.

Lemma sorted_map {A B} (R : A -> A -> Prop) (R' : B -> B -> Prop) (f : A -> B) l :
  (forall a b, R a b -> R' (f a) (f b)) ->
  StronglySorted R l -> StronglySorted R' (map f l).
Proof.
  intros HR. induction 1 as [|a l Hs IH Ha]; simpl; constructor; [exact IH|].
  apply Forall_forall. intros y Hy. apply in_map_iff in Hy.
  destruct Hy as (b & <- & Hb). rewrite Forall_forall in Ha. auto.
Qed.

Lemma Forall_filter {A} (P : A -> Prop) (p : A -> bool) l :
  Forall P l -> Forall P (filter p l).
Proof.
  rewrite !Forall_forall. intros H x Hx. apply filter_In in Hx. now apply H.
Qed.

Lemma Qle_bool_inject a b : Qle_bool (inject_Z a) (inject_Z b) = (a <=? b).
Proof. unfold Qle_bool. simpl. now rewrite !Z.mul_1_r. Qed.

Lemma filter_length_split {A} (p : A -> bool) l :
  (List.length (filter p l) + List.length (filter (fun x => negb (p x)) l)
   = List.length l)%nat.
Proof.
  induction l as [|x l IH]; [reflexivity|]. simpl.
  destruct (p x); simpl; lia.
Qed.

(** ** The metrics of the channel view *)

Module MetricsFacts.
Import Js ChannelView.

Section WithDates.
Variable Date_getTime : string -> option Z.


(** The result, by the number of videos. *)
Lemma channelMetrics_cases videos :
  match sort (byDate Date_getTime) videos with
  | [] => videos = [] /\ channelMetrics Date_getTime videos = Null
  | [x0] =>
      List.length videos = 1%nat /\
      channelMetrics Date_getTime videos
      = Value {| Metrics.firstUpload := YouTubeVideo.publishedAt x0;
                 Metrics.avgCycle := of_int 0;
                 Metrics.recentCycle := of_int 0 |}
  | x0 :: x1 :: r =>
      (2 <= List.length videos)%nat /\
      exists oldest,
        nth_error (x0 :: x1 :: r) (List.length (x0 :: x1 :: r) - 1) = Some oldest /\
        channelMetrics Date_getTime videos
        = Value {| Metrics.firstUpload := YouTubeVideo.publishedAt oldest;
                   Metrics.avgCycle :=
                     per (minus (time Date_getTime (YouTubeVideo.publishedAt x0))
                                (time Date_getTime (YouTubeVideo.publishedAt oldest)))
                         (Z.of_nat (List.length videos) - 1);
                   Metrics.recentCycle :=
                     minus (time Date_getTime (YouTubeVideo.publishedAt x0))
                           (time Date_getTime (YouTubeVideo.publishedAt x1)) |}
  end.
Proof.
  unfold channelMetrics.
  pose proof (Permutation_length (sort_perm (byDate Date_getTime) videos)) as Hlen.
  destruct (sort (byDate Date_getTime) videos) as [|x0 [|x1 r]] eqn:E.
  - destruct videos; [split; reflexivity | discriminate Hlen].
  - simpl in Hlen. split; [now symmetry|].
    rewrite <- Hlen. reflexivity.
  - simpl in Hlen. split; [lia|].
    destruct (nth_error (x0 :: x1 :: r) (List.length (x0 :: x1 :: r) - 1))
      as [oldest|] eqn:En.
    + exists oldest. split; [reflexivity|].
      rewrite <- Hlen.
      replace (S (S (List.length r)) =? 0)%nat with false by reflexivity.
      replace (1 <? S (S (List.length r)))%nat with true by reflexivity.
      reflexivity.
    + apply nth_error_None in En. simpl in En. lia.
Qed.

End WithDates.
End MetricsFacts.

(** X5.  [channelMetrics] never reads a property of [undefined], and it is
    [null] exactly for a channel with no videos. *)
Theorem channelMetrics_defined (Date_getTime : string -> option Z)
        (videos : list YouTubeVideo.t) :
  ChannelView.channelMetrics Date_getTime videos <> ChannelView.TypeError /\
  (ChannelView.channelMetrics Date_getTime videos = ChannelView.Null
   <-> videos = []).
Proof.
  pose proof (MetricsFacts.channelMetrics_cases Date_getTime videos) as H.
  destruct (Js.sort (ChannelView.byDate Date_getTime) videos) as [|x0 [|x1 r]].
  - destruct H as [-> H]. rewrite H. split; [discriminate|]. split; reflexivity.
  - destruct H as [Hl H]. rewrite H. split; [discriminate|].
    split; [discriminate|]. intros ->. discriminate Hl.
  - destruct H as [Hl (oldest & _ & H)]. rewrite H. split; [discriminate|].
    split; [discriminate|]. intros ->. simpl in Hl. lia.
Qed.



(** ** The lists of the two views *)

Module ViewFacts.
Import Js.

Section WithDates.
Variable Date_getTime : string -> option Z.

Lemma channel_sorted_perm sortOption l :
  Permutation (ChannelAnalysis.sorted Date_getTime sortOption l) l.
Proof. destruct sortOption; apply sort_perm. Qed.

Lemma channel_sorted_sorted sortOption l :
  Forall scored l -> Forall (dated Date_getTime) l ->
  StronglySorted (descending (channelKey Date_getTime sortOption))
                 (ChannelAnalysis.sorted Date_getTime sortOption l).
Proof.
  intros Hs Hd. destruct sortOption; unfold ChannelAnalysis.sorted, channelKey.
  - eapply sort_sorted; [apply CompareFacts.byPopularity_key | exact Hs].
  - eapply sort_sorted; [apply CompareFacts.byViews_key | apply Forall_forall; trivial].
  - eapply sort_sorted; [apply CompareFacts.byNewest_key | exact Hd].
  - eapply sort_sorted; [apply CompareFacts.byOldest_key | exact Hd].
Qed.

Lemma channel_filtered_Forall (P : ScoredVideo.t -> Prop) filterOption l :
  Forall P l -> Forall P (ChannelAnalysis.filtered filterOption l).
Proof.
  intros H. destruct filterOption; unfold ChannelAnalysis.filtered;
    [exact H | now apply Forall_filter | now apply Forall_filter].
Qed.

Lemma keyword_sorted_perm sortOption l :
  Permutation (KeywordAnalysis.sorted Date_getTime sortOption l) l.
Proof. apply sort_perm. Qed.

Lemma keyword_sorted_sorted sortOption l :
  Forall scored l -> Forall (dated Date_getTime) l ->
  StronglySorted (descending (keywordKey Date_getTime sortOption))
                 (KeywordAnalysis.sorted Date_getTime sortOption l).
Proof.
  intros Hs Hd. destruct sortOption; unfold KeywordAnalysis.sorted, keywordKey.
  - eapply sort_sorted; [apply CompareFacts.byPopularity_key | exact Hs].
  - eapply sort_sorted; [apply CompareFacts.byViews_key | apply Forall_forall; trivial].
  - eapply sort_sorted; [apply CompareFacts.byNewest_key | exact Hd].
Qed.

Lemma keyword_processedVideos videos videoType sortOption :
  KeywordAnalysis.processedVideos Date_getTime videos videoType sortOption
  = KeywordAnalysis.sorted Date_getTime sortOption
      (KeywordAnalysis.filtered videoType (withScores videos)).
Proof. destruct videos; reflexivity. Qed.

End WithDates.

(** The first [n] of a sorted list that is a permutation of [l]. *)
Lemma firstn_top {A} (key : A -> Q) (n : nat) (s l : list A) :
  Permutation s l -> StronglySorted (descending key) s ->
  List.length (firstn n s) = Nat.min n (List.length l) /\
  forall v, In v (firstn n s) ->
    In v l /\ (List.length (above key v l) < n)%nat.
Proof.
  intros Hp Hs. split.
  - rewrite length_firstn. now rewrite (Permutation_length Hp).
  - intros v Hv. split.
    + apply (Permutation_in _ Hp). rewrite <- (firstn_skipn n s).
      apply in_or_app. now left.
    + rewrite <- (above_perm key v _ _ Hp). now apply above_firstn.
Qed.

End ViewFacts.

(** X7.  With publish dates that all parse, the list of the channel view
    holds the videos that pass the filter, each as often as it passes,
    ordered by the key of the sort option, largest first. *)
Theorem channel_sortedVideos (Date_getTime : string -> option Z)
        (videos : list YouTubeVideo.t)
        (sortOption : ChannelAnalysis.SortOption)
        (filterOption : ChannelAnalysis.FilterOption) :
  Forall (fun v => Date_getTime (YouTubeVideo.publishedAt v) <> None) videos ->
  Permutation
    (ChannelAnalysis.sortedVideos Date_getTime
       (ChannelAnalysis.processedVideos videos) sortOption filterOption)
    (ChannelAnalysis.filtered filterOption (ChannelAnalysis.processedVideos videos)) /\
  StronglySorted (descending (channelKey Date_getTime sortOption))
    (ChannelAnalysis.sortedVideos Date_getTime
       (ChannelAnalysis.processedVideos videos) sortOption filterOption).
Proof.
  intros Hd. unfold ChannelAnalysis.sortedVideos. split.
  - apply ViewFacts.channel_sorted_perm.
  - apply ViewFacts.channel_sorted_sorted;
      apply ViewFacts.channel_filtered_Forall.
    + apply ScoreFacts.withScores_scored.
    + now apply CompareFacts.withScores_dated.
Qed.

(** The three sample videos, newest first. *)
Lemma channel_sortedVideos_witness :
  Permutation
    (ChannelAnalysis.sortedVideos sample_clock
       (ChannelAnalysis.processedVideos sample_videos)
       ChannelAnalysis.date_desc ChannelAnalysis.all)
    (ChannelAnalysis.filtered ChannelAnalysis.all
       (ChannelAnalysis.processedVideos sample_videos)) /\
  StronglySorted (descending (channelKey sample_clock ChannelAnalysis.date_desc))
    (ChannelAnalysis.sortedVideos sample_clock
       (ChannelAnalysis.processedVideos sample_videos)
       ChannelAnalysis.date_desc ChannelAnalysis.all).
Proof.
  apply (channel_sortedVideos sample_clock sample_videos).
  repeat constructor; discriminate.
Defined.

(** X8.  With publish dates that all parse, the channel view shows
    [displayCount] videos, or all that pass the filter when they are
    fewer; each video shown passes the filter, and fewer than
    [displayCount] of the videos that pass have a larger sort key. *)
Theorem channel_displayVideos (Date_getTime : string -> option Z)
        (videos : list YouTubeVideo.t)
        (sortOption : ChannelAnalysis.SortOption)
        (filterOption : ChannelAnalysis.FilterOption) (displayCount : nat) :
  Forall (fun v => Date_getTime (YouTubeVideo.publishedAt v) <> None) videos ->
  List.length
    (ChannelView.displayVideos
       (ChannelAnalysis.sortedVideos Date_getTime
          (ChannelAnalysis.processedVideos videos) sortOption filterOption)
       displayCount)
  = Nat.min displayCount
      (List.length
         (ChannelAnalysis.filtered filterOption
            (ChannelAnalysis.processedVideos videos))) /\
  forall v,
    In v (ChannelView.displayVideos
            (ChannelAnalysis.sortedVideos Date_getTime
               (ChannelAnalysis.processedVideos videos) sortOption filterOption)
            displayCount) ->
    In v (ChannelAnalysis.filtered filterOption
            (ChannelAnalysis.processedVideos videos)) /\
    (List.length
       (above (channelKey Date_getTime sortOption) v
          (ChannelAnalysis.filtered filterOption
             (ChannelAnalysis.processedVideos videos)))
     < displayCount)%nat.
Proof.
  intros Hd. unfold ChannelView.displayVideos, ChannelAnalysis.sortedVideos.
  apply ViewFacts.firstn_top.
  - apply ViewFacts.channel_sorted_perm.
  - apply ViewFacts.channel_sorted_sorted;
      apply ViewFacts.channel_filtered_Forall.
    + apply ScoreFacts.withScores_scored.
    + now apply CompareFacts.withScores_dated.
Qed.

(** The two most viewed of the three sample videos. *)
Lemma channel_displayVideos_witness :
  List.length
    (ChannelView.displayVideos
       (ChannelAnalysis.sortedVideos sample_clock
          (ChannelAnalysis.processedVideos sample_videos)
          ChannelAnalysis.views ChannelAnalysis.all)
       2)
  = Nat.min 2
      (List.length
         (ChannelAnalysis.filtered ChannelAnalysis.all
            (ChannelAnalysis.processedVideos sample_videos))) /\
  forall v,
    In v (ChannelView.displayVideos
            (ChannelAnalysis.sortedVideos sample_clock
               (ChannelAnalysis.processedVideos sample_videos)
               ChannelAnalysis.views ChannelAnalysis.all)
            2) ->
    In v (ChannelAnalysis.filtered ChannelAnalysis.all
            (ChannelAnalysis.processedVideos sample_videos)) /\
    (List.length
       (above (channelKey sample_clock ChannelAnalysis.views) v
          (ChannelAnalysis.filtered ChannelAnalysis.all
             (ChannelAnalysis.processedVideos sample_videos)))
     < 2)%nat.
Proof.
  apply (channel_displayVideos sample_clock sample_videos).
  repeat constructor; discriminate.
Defined.

(** X9.  With publish dates that all parse, the list of the keyword view
    holds the scored videos of the chosen type, ordered by the key of the
    sort option, largest first; the view shows [displayCount] of them, or
    all when they are fewer, and fewer than [displayCount] videos of the
    chosen type have a larger sort key than a video shown. *)
Theorem keyword_displayVideos (Date_getTime : string -> option Z)
        (videos : list YouTubeVideo.t) (videoType : VideoTypeFilter)
        (sortOption : KeywordAnalysis.SortOption) (displayCount : nat) :
  Forall (fun v => Date_getTime (YouTubeVideo.publishedAt v) <> None) videos ->
  Permutation
    (KeywordAnalysis.processedVideos Date_getTime videos videoType sortOption)
    (KeywordAnalysis.filtered videoType (withScores videos)) /\
  StronglySorted (descending (keywordKey Date_getTime sortOption))
    (KeywordAnalysis.processedVideos Date_getTime videos videoType sortOption) /\
  List.length
    (KeywordView.displayVideos
       (KeywordAnalysis.processedVideos Date_getTime videos videoType sortOption)
       displayCount)
  = Nat.min displayCount
      (List.length (KeywordAnalysis.filtered videoType (withScores videos))) /\
  forall v,
    In v (KeywordView.displayVideos
            (KeywordAnalysis.processedVideos Date_getTime videos videoType sortOption)
            displayCount) ->
    In v (KeywordAnalysis.filtered videoType (withScores videos)) /\
    (List.length
       (above (keywordKey Date_getTime sortOption) v
          (KeywordAnalysis.filtered videoType (withScores videos)))
     < displayCount)%nat.
Proof.
  intros Hd. rewrite ViewFacts.keyword_processedVideos.
  assert (Hp : Permutation
                 (KeywordAnalysis.sorted Date_getTime sortOption
                    (KeywordAnalysis.filtered videoType (withScores videos)))
                 (KeywordAnalysis.filtered videoType (withScores videos)))
    by apply ViewFacts.keyword_sorted_perm.
  assert (Hs : StronglySorted (descending (keywordKey Date_getTime sortOption))
                 (KeywordAnalysis.sorted Date_getTime sortOption
                    (KeywordAnalysis.filtered videoType (withScores videos)))).
  { apply ViewFacts.keyword_sorted_sorted; apply Forall_filter.
    - apply ScoreFacts.withScores_scored.
    - now apply CompareFacts.withScores_dated. }
  split; [exact Hp|]. split; [exact Hs|].
  unfold KeywordView.displayVideos. now apply ViewFacts.firstn_top.
Qed.

(** The most popular of the two sample short videos. *)
Lemma keyword_displayVideos_witness :
  Permutation
    (KeywordAnalysis.processedVideos sample_clock sample_videos type_shorts
       KeywordAnalysis.popularity)
    (KeywordAnalysis.filtered type_shorts (withScores sample_videos)) /\
  StronglySorted (descending (keywordKey sample_clock KeywordAnalysis.popularity))
    (KeywordAnalysis.processedVideos sample_clock sample_videos type_shorts
       KeywordAnalysis.popularity) /\
  List.length
    (KeywordView.displayVideos
       (KeywordAnalysis.processedVideos sample_clock sample_videos type_shorts
          KeywordAnalysis.popularity)
       1)
  = Nat.min 1
      (List.length (KeywordAnalysis.filtered type_shorts (withScores sample_videos))) /\
  forall v,
    In v (KeywordView.displayVideos
            (KeywordAnalysis.processedVideos sample_clock sample_videos type_shorts
               KeywordAnalysis.popularity)
            1) ->
    In v (KeywordAnalysis.filtered type_shorts (withScores sample_videos)) /\
    (List.length
       (above (keywordKey sample_clock KeywordAnalysis.popularity) v
          (KeywordAnalysis.filtered type_shorts (withScores sample_videos)))
     < 1)%nat.
Proof.
  apply (keyword_displayVideos sample_clock sample_videos).
  repeat constructor; discriminate.
Defined.

(** ** The charts *)

Module ChartFacts.
Import Js DashboardCharts.

Lemma byLikes_key a b :
  True -> True ->
  exists d, byLikes a b = Some d /\ (d == likesKey b - likesKey a)%Q.
Proof. intros _ _. eexists. split; reflexivity. Qed.

Lemma byLikes_sorted videos :
  StronglySorted (descending likesKey) (sort byLikes videos).
Proof.
  eapply sort_sorted; [apply byLikes_key | apply Forall_forall; trivial].
Qed.

Lemma above_likes v l :
  above likesKey v l
  = filter (fun u => YouTubeVideo.likeCount v <? YouTubeVideo.likeCount u) l.
Proof.
  unfold above, likesKey. apply filter_ext. intros u.
  rewrite Qle_bool_inject. symmetry. apply Z.ltb_antisym.
Qed.

(** The scored list of a view is the list of videos, each with a score. *)
Lemma withScores_map videos :
  map ScoredVideo.video (withScores videos) = videos.
Proof.
  unfold withScores. destruct videos as [|v0 rest]; [reflexivity|].
  cbv zeta. rewrite map_map. cbn [ScoredVideo.video]. apply map_id.
Qed.

Lemma filter_video_length (p : YouTubeVideo.t -> bool) (l : list ScoredVideo.t) :
  List.length (filter (fun sv => p (ScoredVideo.video sv)) l)
  = List.length (filter p (map ScoredVideo.video l)).
Proof.
  induction l as [|x l IH]; [reflexivity|]. simpl.
  destruct (p (ScoredVideo.video x)); simpl; congruence.
Qed.

End ChartFacts.

(** X10.  The engagement chart has a bar for each of 15 videos, or for all
    when they are fewer; the bars stand in the order of their likes,
    largest first; each bar carries the title, likes and comments of a
    video, and fewer than 15 videos have more likes than it. *)
Theorem EngagementChart_top (videos : list YouTubeVideo.t) :
  List.length (DashboardCharts.EngagementChart videos)
  = Nat.min 15 (List.length videos) /\
  StronglySorted
    (fun a b => DashboardCharts.Bar.likes b <= DashboardCharts.Bar.likes a)
    (DashboardCharts.EngagementChart videos) /\
  forall bar, In bar (DashboardCharts.EngagementChart videos) ->
    (exists v, In v videos /\
       bar = {| DashboardCharts.Bar.name := YouTubeVideo.title v;
                DashboardCharts.Bar.likes := YouTubeVideo.likeCount v;
                DashboardCharts.Bar.comments := YouTubeVideo.commentCount v |}) /\
    (List.length
       (filter (fun u => (DashboardCharts.Bar.likes bar <? YouTubeVideo.likeCount u)%Z)
               videos) < 15)%nat.
Proof.
  unfold DashboardCharts.EngagementChart.
  pose proof (sort_perm DashboardCharts.byLikes videos) as Hp.
  pose proof (ChartFacts.byLikes_sorted videos) as Hs.
  destruct (ViewFacts.firstn_top likesKey 15 _ _ Hp Hs) as [Hlen Htop].
  split; [now rewrite length_map|]. split.
  - apply (sorted_map (descending likesKey)); [|now apply sorted_firstn].
    intros a b H. unfold descending, likesKey in H. cbn [DashboardCharts.Bar.likes].
    rewrite Zle_Qle. exact H.
  - intros bar Hbar. apply in_map_iff in Hbar. destruct Hbar as (v & <- & Hv).
    destruct (Htop v Hv) as [Hin Hab]. split.
    + exists v. split; [exact Hin | reflexivity].
    + cbn [DashboardCharts.Bar.likes]. now rewrite <- ChartFacts.above_likes.
Qed.

(** X11.  The two numbers of the format chart add up to the number of
    videos, and they are the numbers of rows the channel view lists under
    its filters for shorts and for regular videos. *)
Theorem VideoFormatChart_counts (videos : list YouTubeVideo.t) :
  DashboardCharts.VideoFormatChart videos
  = [ ("쇼츠 (3분 미만)",
       Z.of_nat (List.length
                   (ChannelAnalysis.filtered ChannelAnalysis.shorts
                      (ChannelAnalysis.processedVideos videos))));
      ("일반 영상",
       Z.of_nat (List.length
                   (ChannelAnalysis.filtered ChannelAnalysis.video
                      (ChannelAnalysis.processedVideos videos)))) ] /\
  (List.length (ChannelAnalysis.filtered ChannelAnalysis.shorts
                  (ChannelAnalysis.processedVideos videos))
   + List.length (ChannelAnalysis.filtered ChannelAnalysis.video
                    (ChannelAnalysis.processedVideos videos))
   = List.length videos)%nat.
Proof.
  unfold DashboardCharts.VideoFormatChart, DashboardCharts.regularCount,
    DashboardCharts.shortsCount, ChannelAnalysis.filtered,
    ChannelAnalysis.processedVideos, isShort.
  set (p := fun v : YouTubeVideo.t =>
              Utils.parseDuration (YouTubeVideo.duration v) <? 180).
  assert (Hshort :
    List.length
      (filter (fun v : ScoredVideo.t =>
                 Utils.parseDuration (YouTubeVideo.duration (ScoredVideo.video v))
                 <? 180) (withScores videos))
    = List.length (filter p videos)).
  { rewrite (ChartFacts.filter_video_length p).
    now rewrite ChartFacts.withScores_map. }
  assert (Hlong :
    List.length
      (filter (fun v : ScoredVideo.t =>
                 180 <=? Utils.parseDuration
                           (YouTubeVideo.duration (ScoredVideo.video v)))
              (withScores videos))
    = List.length (filter (fun v => negb (p v)) videos)).
  { rewrite <- (ChartFacts.withScores_map videos) at 2.
    rewrite <- (ChartFacts.filter_video_length (fun v => negb (p v))).
    f_equal. apply filter_ext. intros sv. unfold p. apply Z.leb_antisym. }
  rewrite Hshort, Hlong.
  pose proof (filter_length_split p videos) as Hsplit.
  split; [|exact Hsplit].
  repeat f_equal. lia.
Qed.

(** ** The statistics of the opportunity analysis *)

Section NthFacts.
Context {A : Type}.
Variable key : A -> Q.

(** At most [k] elements lie above the one at index [k]. *)
Lemma above_nth l :
  StronglySorted (descending key) l ->
  forall k x, nth_error l k = Some x ->
    (List.length (above key x l) <= k)%nat.
Proof.
  intros Hs k x Hx.
  assert (In x (firstn (S k) l)) as Hin.
  { revert k Hx. clear Hs. induction l as [|a l IH]; intros k Hx.
    - destruct k; discriminate.
    - destruct k as [|k]; simpl in Hx.
      + injection Hx as ->. now left.
      + right. now apply IH. }
  pose proof (above_firstn key l Hs (S k) x Hin). lia.
Qed.

(** All the elements below the one at index [k] come after it. *)
Lemma below_nth l :
  StronglySorted (descending key) l ->
  forall k x, nth_error l k = Some x ->
    (List.length (above (fun y => - key y)%Q x l) + k < List.length l)%nat.
Proof.
  induction 1 as [|a l Hs IH Ha]; intros k x Hx.
  - destruct k; discriminate.
  - unfold above in *. destruct k as [|k]; simpl in Hx.
    + injection Hx as ->. simpl.
      assert (Qle_bool (- key x) (- key x) = true) as ->
          by (apply Qle_bool_iff, Qle_refl).
      simpl. pose proof (filter_length_le
                           (fun y => negb (Qle_bool (- key y) (- key x))) l).
      lia.
    + specialize (IH k x Hx). simpl.
      assert (Qle_bool (- key a) (- key x) = true) as ->.
      { apply Qle_bool_iff. apply nth_error_In in Hx.
        rewrite Forall_forall in Ha. specialize (Ha x Hx).
        unfold descending in Ha. lra. }
      simpl. lia.
Qed.

End NthFacts.

Lemma filter_map_length {A B} (f : A -> B) (p : B -> bool) (l : list A) :
  List.length (filter p (map f l)) = List.length (filter (fun x => p (f x)) l).
Proof.
  induction l as [|x l IH]; [reflexivity|]. simpl.
  destruct (p (f x)); simpl; congruence.
Qed.

Module StatsFacts.
Import Js GeminiService.

Lemma hex_prefix_digits u :
  hex_prefix (DecimalString.NilEmpty.string_of_uint u) = None.
Proof.
  destruct u as [|u|u|u|u|u|u|u|u|u|u]; try reflexivity;
    cbn [DecimalString.NilEmpty.string_of_uint hex_prefix];
    try (destruct (DecimalString.NilEmpty.string_of_uint u); reflexivity).
  destruct u; reflexivity.
Qed.

Lemma read_digits_text u :
  u <> Decimal.Nil ->
  read_digits dec_value 10 None (DecimalString.NilEmpty.string_of_uint u)
  = Some (Z.of_N (N.of_uint u)).
Proof.
  intros Hu.
  rewrite <- (append_empty_r (DecimalString.NilEmpty.string_of_uint u)).
  apply DurationFacts.read_digits_uint; [exact Hu | exact I].
Qed.

Lemma parseInt_digits u :
  u <> Decimal.Nil ->
  parseInt (DecimalString.NilEmpty.string_of_uint u) = Some (Z.of_N (N.of_uint u)).
Proof.
  intros Hu. unfold parseInt.
  pose proof (hex_prefix_digits u) as Hhex.
  pose proof (read_digits_text u Hu) as Hread.
  destruct (DurationFacts.string_of_uint_digits u Hu) as (d & ds & E & Hd).
  rewrite E in *. rewrite (DurationFacts.skip_spaces_digit _ _ Hd).
  cbn [strip_sign].
  rewrite !(DurationFacts.is_digit_neq d) by (assumption || reflexivity).
  rewrite Hhex, Hread. reflexivity.
Qed.

Lemma string_of_uint_pos p :
  DecimalString.NilZero.string_of_uint (Pos.to_uint p)
  = DecimalString.NilEmpty.string_of_uint (Pos.to_uint p).
Proof.
  pose proof (DecimalPos.Unsigned.to_uint_nonnil p) as H.
  destruct (Pos.to_uint p); [congruence | reflexivity ..].
Qed.

(** The text of an integer parses to the integer. *)
Lemma parseInt_show n : parseInt (Duration.show n) = Some n.
Proof.
  unfold Duration.show. destruct n as [|p|p]; [reflexivity | |].
  - cbn [Z.to_int DecimalString.NilZero.string_of_int].
    rewrite string_of_uint_pos.
    rewrite parseInt_digits by apply DecimalPos.Unsigned.to_uint_nonnil.
    unfold N.of_uint. now rewrite DecimalPos.Unsigned.of_to.
  - cbn [Z.to_int DecimalString.NilZero.string_of_int].
    rewrite string_of_uint_pos.
    pose proof (parseInt_digits (Pos.to_uint p)
                  (DecimalPos.Unsigned.to_uint_nonnil p)) as H.
    unfold parseInt in *.
    destruct (DurationFacts.string_of_uint_digits (Pos.to_uint p)
                (DecimalPos.Unsigned.to_uint_nonnil p)) as (d & ds & E & Hd).
    rewrite E in *.
    rewrite (DurationFacts.skip_spaces_ascii "-") by (cbn; lia || reflexivity).
    rewrite (DurationFacts.skip_spaces_digit _ _ Hd) in H.
    cbn [strip_sign] in *. change (Ascii.eqb "-" "-") with true. cbv iota.
    rewrite !(DurationFacts.is_digit_neq d) in H by (assumption || reflexivity).
    destruct (hex_prefix (String d ds)); 
      destruct (read_digits _ _ _ _) as [m|]; cbn [option_map] in *;
      try discriminate; injection H as ->;
      unfold N.of_uint; rewrite DecimalPos.Unsigned.of_to; reflexivity.
Qed.

Lemma viewsOf_count v : viewsOf v = Some (YouTubeVideo.viewCount v).
Proof.
  unfold viewsOf, truthy.
  destruct (Z.eqb_spec (YouTubeVideo.viewCount v) 0) as [->|_]; simpl negb; cbv iota.
  - reflexivity.
  - apply parseInt_show.
Qed.



Lemma byValue_key a b :
  a <> None -> b <> None ->
  exists d, byValue a b = Some d /\ (d == valueKey b - valueKey a)%Q.
Proof.
  unfold byValue, valueKey. intros Ha Hb.
  destruct a as [a|]; [|congruence]. destruct b as [b|]; [|congruence].
  eexists. split; [reflexivity|]. simpl. ring.
Qed.

Lemma map_viewsOf videos :
  map viewsOf videos = map (fun v => Some (YouTubeVideo.viewCount v)) videos.
Proof. apply map_ext. apply viewsOf_count. Qed.

End StatsFacts.

(** The bound is needed: 2^53 views and one more add up to 2^53. *)
Lemma totalViews_rounds :
  GeminiService.totalViews
    [ sample_video "a" (2 ^ 53) 0 0 "PT5M" "2024-01-01T00:00:00.000Z";
      sample_video "b" 1 0 0 "PT5M" "2024-01-01T00:00:00.000Z" ]
  = Double.Finite (2 ^ 53).
Proof. vm_compute. reflexivity. Qed.



(** X13.  For at least one video, with view counts written with digits
    alone, the median of the opportunity analysis is the view count of one
    of the videos; at most half of the videos have fewer views and fewer
    than half have more. *)
Theorem topic_medianViews (videos : list YouTubeVideo.t) :
  Forall plain_count videos -> videos <> [] ->
  exists m,
    GeminiService.medianViews videos = Some (Some m) /\
    In m (map YouTubeVideo.viewCount videos) /\
    (2 * List.length (filter (fun v => (YouTubeVideo.viewCount v <? m)%Z) videos)
     <= List.length videos)%nat /\
    (2 * List.length (filter (fun v => (m <? YouTubeVideo.viewCount v)%Z) videos)
     < List.length videos)%nat.
Proof.
  intros _ Hne. unfold GeminiService.medianViews, GeminiService.sortedViews.
  rewrite StatsFacts.map_viewsOf.
  set (l := map (fun v => Some (YouTubeVideo.viewCount v)) videos).
  assert (Hok : Forall (fun o : option Z => o <> None) l).
  { apply Forall_forall. intros o Ho. apply in_map_iff in Ho.
    destruct Ho as (v & <- & _). discriminate. }
  pose proof (sort_perm GeminiService.byValue l) as Hp.
  pose proof (sort_sorted GeminiService.byValue _ valueKey
                StatsFacts.byValue_key l Hok) as Hs.
  assert (Hlen : List.length (Js.sort GeminiService.byValue l)
                 = List.length videos).
  { rewrite (Permutation_length Hp). unfold l. apply length_map. }
  rewrite Hlen.
  assert (Hpos : (0 < List.length videos)%nat)
    by (destruct videos; [congruence | simpl; lia]).
  replace (0 <? List.length videos)%nat with true
    by (symmetry; now apply Nat.ltb_lt).
  pose proof (Nat.div_mod_eq (List.length videos) 2) as Hdiv.
  pose proof (Nat.mod_upper_bound (List.length videos) 2 ltac:(lia)) as Hmod.
  set (k := (List.length videos / 2)%nat) in *.
  destruct (nth_error (Js.sort GeminiService.byValue l) k) as [x|] eqn:Ex.
  2:{ apply nth_error_None in Ex. lia. }
  assert (Hx : In x l)
    by (apply (Permutation_in _ Hp); eapply nth_error_In; eauto).
  pose proof (above_nth valueKey _ Hs k x Ex) as Hab.
  pose proof (below_nth valueKey _ Hs k x Ex) as Hbe.
  rewrite (above_perm valueKey x _ _ Hp) in Hab.
  rewrite (above_perm (fun y => - valueKey y)%Q x _ _ Hp) in Hbe.
  rewrite Hlen in Hbe.
  unfold l in Hx. apply in_map_iff in Hx. destruct Hx as (v & <- & Hv).
  exists (YouTubeVideo.viewCount v). split; [reflexivity|].
  split; [now apply in_map|].
  unfold above, l in Hab, Hbe. rewrite filter_map_length in Hab, Hbe.
  assert (E1 : forall u,
             negb (Qle_bool (valueKey (Some (YouTubeVideo.viewCount u)))
                            (valueKey (Some (YouTubeVideo.viewCount v))))
             = (YouTubeVideo.viewCount u <? YouTubeVideo.viewCount v)).
  { intros u. unfold valueKey, number_of.
    rewrite <- !inject_Z_opp, Qle_bool_inject.
    rewrite Z.ltb_antisym. f_equal.
    destruct (Z.leb_spec (- YouTubeVideo.viewCount u) (- YouTubeVideo.viewCount v));
      destruct (Z.leb_spec (YouTubeVideo.viewCount v) (YouTubeVideo.viewCount u));
      (reflexivity || lia). }
  assert (E2 : forall u,
             negb (Qle_bool (- valueKey (Some (YouTubeVideo.viewCount u)))
                            (- valueKey (Some (YouTubeVideo.viewCount v))))
             = (YouTubeVideo.viewCount v <? YouTubeVideo.viewCount u)).
  { intros u. unfold valueKey, number_of.
    rewrite <- !inject_Z_opp, Qle_bool_inject, !Z.opp_involutive.
    symmetry. apply Z.ltb_antisym. }
  rewrite (filter_ext _ _ E1) in Hab. rewrite (filter_ext _ _ E2) in Hbe.
  split; lia.
Qed.

Lemma topic_medianViews_witness :
  exists m,
    GeminiService.medianViews sample_videos = Some (Some m) /\
    In m (map YouTubeVideo.viewCount sample_videos) /\
    (2 * List.length (filter (fun v => (YouTubeVideo.viewCount v <? m)%Z) sample_videos)
     <= List.length sample_videos)%nat /\
    (2 * List.length (filter (fun v => (m <? YouTubeVideo.viewCount v)%Z) sample_videos)
     < List.length sample_videos)%nat.
Proof.
  apply (topic_medianViews sample_videos).
  - repeat constructor; reflexivity.
  - discriminate.
Defined.

(** ** The records and the calls of the service *)

Module GatewayFacts.
Import Js YoutubeService.

Lemma parseInt_unsigned s v : unsigned s -> parseInt s = Some v -> 0 <= v.
Proof.
  unfold unsigned, parseInt.
  destruct (strip_sign (skip_spaces s)) as [negative body]. cbn [fst].
  intros ->.
  destruct (hex_prefix body) as [hex|];
    destruct (read_digits _ _ _ _) as [m|] eqn:E; cbn [option_map];
    try discriminate; intros [= <-].
  - apply (DurationFacts.read_digits_nonneg hex_value 16 ltac:(lia)
             DurationFacts.hex_value_nonneg hex None); [intros a [=] | exact E].
  - apply (DurationFacts.read_digits_nonneg dec_value 10 ltac:(lia)
             DurationFacts.dec_value_nonneg body None); [intros a [=] | exact E].
Qed.

Lemma toVideo_nonneg item : count_texts item -> nonneg_counts (toVideo item).
Proof.
  intros ((Hv & _) & (Hl & _) & (Hc & _)). unfold nonneg_counts, toVideo. cbn.
  repeat split; apply DurationFacts.or_default_nonneg; intros v;
    now apply parseInt_unsigned.
Qed.

Lemma or_default_safe n : (forall v, n = Some v -> safe v) -> safe (or_default n 0).
Proof.
  intros H. unfold or_default. destruct n as [v|]; [|reflexivity].
  destruct (truthy v); [now apply H | reflexivity].
Qed.

Lemma toVideo_safe item : count_texts item -> safe_counts (toVideo item).
Proof.
  intros ((_ & Hv) & (_ & Hl) & (_ & Hc)). unfold safe_counts, toVideo. cbn.
  repeat split; now apply or_default_safe.
Qed.

Lemma withScores_range videos :
  Forall nonneg_counts videos ->
  Forall (fun sv => exists s, ScoredVideo.popularityScore sv = Some s /\
                              0 <= s <= 100) (withScores videos).
Proof.
  intros Hnn. rewrite Forall_forall in Hnn. apply Forall_forall.
  destruct videos as [|v0 rest]; [intros sv []|].
  intros sv Hin. unfold withScores in Hin. cbv zeta in Hin.
  apply in_map_iff in Hin. destruct Hin as (v & <- & Hv). cbn.
  destruct (Hnn v Hv) as (H1 & H2 & H3).
  apply ScoreFacts.calculateVideoScore_range; (split; [assumption|]).
  - now apply (ScoreFacts.Math_max_field YouTubeVideo.viewCount).
  - now apply (ScoreFacts.Math_max_field YouTubeVideo.likeCount).
  - now apply (ScoreFacts.Math_max_field YouTubeVideo.commentCount).
Qed.

Section WithDates.
Variable Date_getTime : string -> option Z.

(** Without a record of any video no channel is pushed. *)
Lemma rank_no_details cutoff videoMap chItems :
  rank Date_getTime cutoff videoMap [] chItems = [].
Proof.
  rewrite ServiceFacts.rank_unranked.
  assert (unranked Date_getTime cutoff videoMap [] chItems = []) as ->;
    [|reflexivity].
  unfold unranked. induction chItems as [|item chItems IH]; [reflexivity|].
  simpl. rewrite IH. unfold pushed, fullVideoOf.
  destruct (createdSince _ _ _); [|reflexivity].
  destruct (Map_get videoMap _) as [videoId|]; [|reflexivity].
  destruct (nonempty videoId); reflexivity.
Qed.

End WithDates.
End GatewayFacts.

(** X14.  When the count texts of the answer of the video lookup are
    written without a minus sign and denote integers below 2^53, the
    range in which the numbers of the program are exact, the records
    [getVideoDetails] returns have counts that are not negative and are in
    this range, and the popularity scores computed from them are integers
    between 0 and 100. *)
Theorem getVideoDetails_counts (remote : Remote) (apiKey videoIds : string) :
  (forall items, remote _ (Videos apiKey videoIds) = Some items ->
                 Forall count_texts items) ->
  Forall (fun v => nonneg_counts v /\ safe_counts v)
         (fst (run remote (YoutubeService.getVideoDetails apiKey videoIds))) /\
  Forall (fun sv => exists s, ScoredVideo.popularityScore sv = Some s /\
                              0 <= s <= 100)
         (withScores
            (fst (run remote (YoutubeService.getVideoDetails apiKey videoIds)))).
Proof.
  intros Hitems.
  assert (Hnn : Forall (fun v => nonneg_counts v /\ safe_counts v)
                  (fst (run remote
                            (YoutubeService.getVideoDetails apiKey videoIds)))).
  { unfold YoutubeService.getVideoDetails.
    destruct (Js.nonempty videoIds); cbn [run fst]; [|constructor].
    destruct (remote _ (Videos apiKey videoIds)) as [items|] eqn:E;
      cbn [run fst]; [|constructor].
    specialize (Hitems items eq_refl).
    apply Forall_forall. intros v Hv. apply in_map_iff in Hv.
    destruct Hv as (item & <- & Hitem). rewrite Forall_forall in Hitems.
    split; [apply GatewayFacts.toVideo_nonneg | apply GatewayFacts.toVideo_safe];
      now apply Hitems. }
  split; [exact Hnn|]. apply GatewayFacts.withScores_range.
  eapply Forall_impl; [|exact Hnn]. intros v [H _]. exact H.
Qed.

(** The sample answer with one video of 1,000 views. *)
Lemma getVideoDetails_counts_witness :
  Forall (fun v => nonneg_counts v /\ safe_counts v)
         (fst (run (sample_remote "2023-11-03T08:26:40.000Z" "0" "1000" true)
                   (YoutubeService.getVideoDetails "key" "v1"))) /\
  Forall (fun sv => exists s, ScoredVideo.popularityScore sv = Some s /\
                              0 <= s <= 100)
         (withScores
            (fst (run (sample_remote "2023-11-03T08:26:40.000Z" "0" "1000" true)
                      (YoutubeService.getVideoDetails "key" "v1")))).
Proof.
  apply (getVideoDetails_counts
           (sample_remote "2023-11-03T08:26:40.000Z" "0" "1000" true) "key" "v1").
  intros items H. injection H as <-.
  repeat constructor; intros v Hv; vm_compute in Hv; injection Hv as <-;
    reflexivity.
Defined.

(** X15.  A run of [findRisingChannels] issues three calls at most: the
    search, then the channel lookup, then the video lookup, each at most
    once and in this order; when it issues fewer than three its result is
    empty. *)
Theorem findRisingChannels_calls
        (Date_getTime : string -> option Z) (remote : Remote) (now : Clock)
        (apiKey query categoryId : string) (period : RisingPeriod)
        (region : RegionCode) (videoType : VideoTypeFilter) :
  (exists params,
     snd (run remote
              (YoutubeService.findRisingChannels Date_getTime now apiKey query
                 categoryId period region videoType))
     = [SearchRequest apiKey params] \/
     exists ids,
       snd (run remote
                (YoutubeService.findRisingChannels Date_getTime now apiKey query
                   categoryId period region videoType))
       = [SearchRequest apiKey params; ChannelsRequest apiKey ids] \/
       exists videoIds,
         snd (run remote
                  (YoutubeService.findRisingChannels Date_getTime now apiKey query
                     categoryId period region videoType))
         = [SearchRequest apiKey params; ChannelsRequest apiKey ids;
            VideosRequest apiKey videoIds]) /\
  ((List.length
      (snd (run remote
                (YoutubeService.findRisingChannels Date_getTime now apiKey query
                   categoryId period region videoType))) < 3)%nat ->
   fst (run remote
            (YoutubeService.findRisingChannels Date_getTime now apiKey query
               categoryId period region videoType)) = []).
Proof.
  rewrite ServiceFacts.run_findRisingChannels. unfold outcome, searchCall.
  cbv zeta. cbn [request_of].
  set (params := YoutubeService.searchParams _ _ _ _ _).
  destruct (remote _ (Search apiKey params)) as [items|].
  2:{ split; [exists params; now left | reflexivity]. }
  destruct (firstn 40 (fst (YoutubeService.collect items))) as [|c0 ids].
  { split; [exists params; now left | reflexivity]. }
  destruct (remote _ (Channels apiKey (c0 :: ids))) as [chItems|].
  2:{ split; [exists params; right; exists (c0 :: ids); now left | reflexivity]. }
  unfold YoutubeService.getVideoDetails.
  destruct (Js.nonempty _); cbn [run].
  - destruct (remote _ (Videos _ _)) as [vitems|]; cbn [run fst snd];
      (split; [exists params; right; exists (c0 :: ids); right; eexists; reflexivity
              | cbn [List.length]; lia]).
  - cbn [fst snd]. split.
    + exists params. right. exists (c0 :: ids). now left.
    + intros _. apply GatewayFacts.rank_no_details.
Qed.

(** X16.  In every result of [findRisingChannels] the subscriber count of
    the channel is not zero, the views listed are those of the
    representative video, and the score is the views divided by the
    subscriber count when that is positive and zero otherwise; so the
    score is not negative when the views are not.  A subscriber text that
    is not a number counts as one subscriber. *)
Theorem findRisingChannels_results
        (Date_getTime : string -> option Z) (remote : Remote) (now : Clock)
        (apiKey query categoryId : string) (period : RisingPeriod)
        (region : RegionCode) (videoType : VideoTypeFilter)
        (r : RisingChannelResult) :
  In r (fst (run remote
                 (YoutubeService.findRisingChannels Date_getTime now apiKey query
                    categoryId period region videoType))) ->
  YouTubeChannel.subscriberCount (details r) <> 0 /\
  topVideoViews r = YouTubeVideo.viewCount (topVideo r) /\
  (score r ==
   if 0 <? YouTubeChannel.subscriberCount (details r)
   then inject_Z (topVideoViews r)
        / inject_Z (YouTubeChannel.subscriberCount (details r))
   else 0)%Q /\
  (0 <= topVideoViews r -> (0 <= score r)%Q) /\
  exists ids chItems item,
    remote _ (Channels apiKey ids) = Some chItems /\ In item chItems /\
    channelOf r = ChannelItem.id item /\
    (Js.parseInt (ChannelItem.subscriberCount item) = None ->
     YouTubeChannel.subscriberCount (details r) = 1 /\
     (score r == inject_Z (topVideoViews r))%Q).
Proof.
  intros Hr.
  destruct (ServiceFacts.output_ranked _ _ _ _ _ _ _ _ _ _ Hr)
    as (items & chItems & _ & Hch & Hout).
  rewrite Hout in Hr. apply ServiceFacts.In_rank in Hr.
  destruct Hr as (item & Hitem & Hpushed).
  apply ServiceFacts.pushed_inv in Hpushed.
  destruct Hpushed as (_ & _ & Hdetails & Hviews & Hscore).
  set (subCount := Js.or_default (Js.parseInt (ChannelItem.subscriberCount item)) 1)
    in *.
  assert (Hsub : YouTubeChannel.subscriberCount (details r) = subCount)
    by now rewrite Hdetails.
  assert (Hne : subCount <> 0).
  { unfold subCount, Js.or_default, Js.truthy.
    destruct (Js.parseInt _) as [v|]; [|discriminate].
    destruct (Z.eqb_spec v 0); cbn [negb]; [discriminate | assumption]. }
  rewrite Hsub, Hviews. rewrite Hscore.
  split; [exact Hne|]. split; [reflexivity|]. split; [reflexivity|]. split.
  - intros Hnn. destruct (Z.ltb_spec 0 subCount) as [Hpos|_]; [|apply Qle_refl].
    apply Qle_shift_div_l.
    + change 0%Q with (inject_Z 0). rewrite <- Zlt_Qlt. exact Hpos.
    + rewrite Qmult_0_l. change 0%Q with (inject_Z 0). now rewrite <- Zle_Qle.
  - exists (firstn 40 (fst (YoutubeService.collect items))), chItems, item.
    split; [exact Hch|]. split; [exact Hitem|].
    split; [unfold channelOf; now rewrite Hdetails|].
    intros Hnan. unfold subCount. rewrite Hnan. cbn [Js.or_default].
    split; [reflexivity|]. cbn [Z.ltb Z.compare]. field.
Qed.

(** The sample run with a channel whose subscriber text is empty. *)
Lemma findRisingChannels_results_witness :
  exists r,
    In r (fst (run (sample_remote "2023-11-03T08:26:40.000Z" EmptyString "1000" true)
                   (YoutubeService.findRisingChannels sample_clock sample_now
                      "key" "retro gaming" EmptyString period_3m Global type_all))) /\
    YouTubeChannel.subscriberCount (details r) = 1 /\
    (score r == 1000)%Q.
Proof.
  eexists. split; [left; reflexivity|].
  match goal with
  | |- YouTubeChannel.subscriberCount (details ?r) = 1 /\ _ =>
      destruct (findRisingChannels_results sample_clock
                  (sample_remote "2023-11-03T08:26:40.000Z" EmptyString "1000" true)
                  sample_now "key" "retro gaming" EmptyString period_3m Global
                  type_all r (or_introl eq_refl))
        as (_ & _ & Hscore & _)
  end.
  split; [reflexivity | exact Hscore].
Defined.

(** ** Durations with a part of days *)

Module DayFacts.
Import Js Utils CompactForm.

Lemma no_P_after s : no_P s = true -> after_PT s = None.
Proof.
  induction s as [|c s IH]; [reflexivity|]. intros H.
  cbn [no_P] in H. apply andb_true_iff in H. destruct H as [Hc Hs].
  cbn [after_PT]. destruct s as [|c' s']; [reflexivity|].
  apply negb_true_iff in Hc. rewrite Hc. cbn [andb]. now apply IH.
Qed.

Lemma no_P_app a b : no_P a = true -> no_P b = true -> no_P (a ++ b) = true.
Proof.
  intros Ha Hb. induction a as [|c a IH]; [exact Hb|].
  cbn [append no_P] in *. apply andb_true_iff in Ha. destruct Ha as [Hc Ha].
  rewrite Hc. cbn [andb]. now apply IH.
Qed.

Lemma no_P_digits u : no_P (DecimalString.NilEmpty.string_of_uint u) = true.
Proof. induction u; cbn; trivial. Qed.

Lemma no_P_group g letter :
  letter <> "P"%char -> no_P (group_text g letter) = true.
Proof.
  intros H. destruct g as [u|]; [|reflexivity]. unfold group_text.
  apply no_P_app; [apply no_P_digits|].
  cbn [no_P]. apply Ascii.eqb_neq in H. now rewrite H.
Qed.

End DayFacts.

(** X17.  A duration with a part of days, [PnDT..], has no [PT] in it:
    [parseDuration] gives 0 for it, whatever its hours, minutes and
    seconds, so that the views and the format chart count the video as a
    short one. *)
Theorem parseDuration_day_form (d : Decimal.uint) (h m s : option Decimal.uint) :
  d <> Decimal.Nil ->
  Utils.parseDuration (day_form d h m s) = 0 /\
  forall v, YouTubeVideo.duration (ScoredVideo.video v) = day_form d h m s ->
            isShort v = true.
Proof.
  intros Hd.
  assert (H0 : Utils.parseDuration (day_form d h m s) = 0).
  { unfold Utils.parseDuration, Utils.match_duration.
    assert (Utils.after_PT (day_form d h m s) = None) as ->; [|reflexivity].
    unfold day_form.
    destruct (DurationFacts.string_of_uint_digits d Hd) as (c & cs & E & Hc).
    assert (Hrest : no_P (DecimalString.NilEmpty.string_of_uint d ++ "DT"
                          ++ CompactForm.group_text h "H"
                          ++ CompactForm.group_text m "M"
                          ++ CompactForm.group_text s "S") = true).
    { apply DayFacts.no_P_app; [apply DayFacts.no_P_digits|].
      apply (DayFacts.no_P_app "DT"); [reflexivity|].
      repeat apply DayFacts.no_P_app; apply DayFacts.no_P_group; discriminate. }
    apply DayFacts.no_P_after in Hrest. rewrite E in *.
    cbn [append Utils.after_PT] in *.
    rewrite (DurationFacts.is_digit_neq c "T" Hc eq_refl).
    rewrite andb_false_r. exact Hrest. }
  split; [exact H0|].
  intros v Hv. unfold isShort. rewrite Hv, H0. reflexivity.
Qed.

(** One day, two hours and three minutes: [P1DT2H3M]. *)
Lemma parseDuration_day_form_witness :
  Utils.parseDuration "P1DT2H3M" = 0.
Proof.
  apply (parseDuration_day_form
           (Decimal.D1 Decimal.Nil) (Some (Decimal.D2 Decimal.Nil))
           (Some (Decimal.D3 Decimal.Nil)) None).
  discriminate.
Defined.

(** ** The export of the channel view *)

Module ExportFacts.
Import Utils ChannelExport.

Lemma asObj_keys v : Object_keys (asObj v) = columns.
Proof. reflexivity. Qed.

Lemma asObj_texts v : CsvLayout.texts (asObj v) = cells v.
Proof.
  unfold CsvLayout.texts, asObj, cells, Object_values. cbn [map snd String_].
  unfold Duration.show. destruct (ScoredVideo.popularityScore v); reflexivity.
Qed.

Lemma asObj_uniform first rest : CsvLayout.uniform (map asObj (first :: rest)).
Proof.
  cbn [map CsvLayout.uniform]. apply Forall_forall. intros obj Hobj.
  change (asObj first :: map asObj rest) with (map asObj (first :: rest)) in Hobj.
  apply in_map_iff in Hobj. destruct Hobj as (v & <- & _). reflexivity.
Qed.

End ExportFacts.

(** X18.  For a scored list that is not empty and whose counts and
    scores are integers below 2^53, which the platform writes with all
    their digits, the export of the channel view is a file that reads
    back as the row of the thirteen column names and, for each video in
    the order listed, the texts of its fields as they are, whatever
    quotes, commas or line breaks a title or a description holds. *)
Theorem exportCSV_round_trip (processedVideos : list ScoredVideo.t)
        (channelTitle : string) :
  processedVideos <> [] ->
  Forall ChannelExport.plain_numbers processedVideos ->
  exists content,
    ChannelExport.exportCSV processedVideos channelTitle
    = Some (channelTitle ++ "_analysis.csv", content) /\
    CsvReader.read content
    = ChannelExport.columns :: map ChannelExport.cells processedVideos /\
    map (fun row => nth 0 row EmptyString) (tl (CsvReader.read content))
    = map (fun v => YouTubeVideo.id (ScoredVideo.video v)) processedVideos.
Proof.
  intros Hne _. unfold ChannelExport.exportCSV.
  destruct processedVideos as [|first rest]; [congruence|].
  cbn [map]. rewrite CsvFacts.downloadCSV_document. eexists. split.
  - now rewrite append_assoc.
  - change (ChannelExport.asObj first :: map ChannelExport.asObj rest)
      with (map ChannelExport.asObj (first :: rest)).
    assert (Hread :
      CsvReader.read
        (CsvLayout.document (ChannelExport.asObj first)
           (map ChannelExport.asObj (first :: rest)))
      = ChannelExport.columns :: map ChannelExport.cells (first :: rest)).
    { cbn [map]. rewrite CsvFacts.read_document.
      - cbn [map]. rewrite ExportFacts.asObj_keys, ExportFacts.asObj_texts.
        f_equal. f_equal. rewrite map_map. apply map_ext.
        apply ExportFacts.asObj_texts.
      - discriminate.
      - repeat constructor.
      - apply (ExportFacts.asObj_uniform first rest). }
    rewrite Hread. split; [reflexivity|].
    cbn [tl]. rewrite map_map. reflexivity.
Qed.

(** The three sample videos with their scores. *)
Lemma exportCSV_round_trip_witness :
  exists content,
    ChannelExport.exportCSV (ChannelAnalysis.processedVideos sample_videos) "channel"
    = Some ("channel_analysis.csv", content) /\
    CsvReader.read content
    = ChannelExport.columns
      :: map ChannelExport.cells (ChannelAnalysis.processedVideos sample_videos) /\
    map (fun row => nth 0 row EmptyString) (tl (CsvReader.read content))
    = map (fun v => YouTubeVideo.id (ScoredVideo.video v))
          (ChannelAnalysis.processedVideos sample_videos).
Proof.
  apply (exportCSV_round_trip (ChannelAnalysis.processedVideos sample_videos)
                              "channel").
  - discriminate.
  - repeat constructor; intros score Hs; vm_compute in Hs; injection Hs as <-;
      reflexivity.
Defined.

(** ** The video search and the uploads of a channel *)

Module TaskFacts.
Import Js Gateway.

Lemma perform_andThen {A B} (server : Server) (p : Task A) (f : A -> Task B) :
  perform server (andThen p f)
  = let (a, calls1) := perform server p in
    let (b, calls2) := perform server (f a) in
    (b, (calls1 ++ calls2)%list).
Proof.
  induction p as [a|R c k IH]; simpl.
  - destruct (perform server (f a)); reflexivity.
  - rewrite IH. destruct (perform server (k (server R c))) as [a calls1].
    destruct (perform server (f a)); reflexivity.
Qed.

(** The video lookup, called from here: nothing for no id, else one call. *)
Lemma perform_getVideoDetails (server : Server) apiKey videoIds :
  perform server (core (YoutubeService.getVideoDetails apiKey videoIds))
  = if nonempty videoIds
    then (match server _ (Core (Videos apiKey videoIds)) with
          | Some items => map YoutubeService.toVideo items
          | None => []
          end, [CoreSent (VideosRequest apiKey videoIds)])
    else ([], []).
Proof.
  unfold YoutubeService.getVideoDetails.
  destruct (nonempty videoIds); [|reflexivity].
  cbn [core perform sent_of request_of].
  destruct (server _ (Core (Videos apiKey videoIds))); reflexivity.
Qed.

End TaskFacts.

(** X19.  [searchVideosByKeyword] issues the search and then at most one
    video lookup, none when the search found no video, and with fewer
    than two calls its result is empty; when only shorts are asked for,
    every video returned is shorter than three minutes as
    [parseDuration] reads its duration, and otherwise the records of the
    lookup are returned as they are. *)
Theorem searchVideosByKeyword_calls
        (server : Gateway.Server) (apiKey query : string) (maxResults : Z)
        (region : RegionCode) (shortsOnly : bool) (categoryId : option string) :
  (exists rest,
     snd (Gateway.perform server
            (Gateway.searchVideosByKeyword apiKey query maxResults region
               shortsOnly categoryId))
     = Gateway.VideoSearchSent apiKey
         (Gateway.videoSearchParams query maxResults region shortsOnly categoryId)
       :: rest /\
     (rest = [] \/
      exists ids,
        server _ (Gateway.VideoSearch apiKey
                    (Gateway.videoSearchParams query maxResults region shortsOnly
                       categoryId)) = Some ids /\
        ids <> [] /\
        rest = [Gateway.CoreSent (VideosRequest apiKey (Js.join "," ids))] /\
        (shortsOnly = false ->
         fst (Gateway.perform server
                (Gateway.searchVideosByKeyword apiKey query maxResults region
                   shortsOnly categoryId))
         = match server _ (Gateway.Core (Videos apiKey (Js.join "," ids))) with
           | Some items => map YoutubeService.toVideo items
           | None => []
           end))) /\
  ((List.length
      (snd (Gateway.perform server
              (Gateway.searchVideosByKeyword apiKey query maxResults region
                 shortsOnly categoryId))) < 2)%nat ->
   fst (Gateway.perform server
          (Gateway.searchVideosByKeyword apiKey query maxResults region
             shortsOnly categoryId)) = []) /\
  Forall (fun v => Utils.parseDuration (YouTubeVideo.duration v) < 180)
         (fst (Gateway.perform server
                 (Gateway.searchVideosByKeyword apiKey query maxResults region
                    true categoryId))).
Proof.
  assert (Hshort : forall videos,
             Forall (fun v => Utils.parseDuration (YouTubeVideo.duration v) < 180)
                    (filter (fun v => Utils.parseDuration (YouTubeVideo.duration v)
                                      <? 180) videos)).
  { intros videos. apply Forall_forall. intros v Hv. apply filter_In in Hv.
    destruct Hv as [_ Hv]. now apply Z.ltb_lt in Hv. }
  split; [|split].
  - unfold Gateway.searchVideosByKeyword. cbn [Gateway.perform Gateway.sent_of].
    destruct (server _ (Gateway.VideoSearch apiKey _)) as [ids|] eqn:E.
    2:{ eexists. split; [reflexivity | now left]. }
    cbv zeta. rewrite TaskFacts.perform_andThen, TaskFacts.perform_getVideoDetails.
    destruct (Js.nonempty (Js.join "," ids)) eqn:En.
    + cbn [Gateway.perform fst snd app]. eexists. split; [reflexivity|].
      right. exists ids. split; [reflexivity|]. split.
      * intros ->. discriminate En.
      * split; [reflexivity|]. intros ->. reflexivity.
    + cbn [Gateway.perform fst snd app]. eexists. split; [reflexivity | now left].
  - unfold Gateway.searchVideosByKeyword. cbn [Gateway.perform Gateway.sent_of].
    destruct (server _ (Gateway.VideoSearch apiKey _)) as [ids|];
      [|reflexivity].
    cbv zeta. rewrite TaskFacts.perform_andThen, TaskFacts.perform_getVideoDetails.
    destruct (Js.nonempty (Js.join "," ids)).
    + cbn [Gateway.perform fst snd app List.length]. lia.
    + cbn [Gateway.perform fst snd app]. intros _. now destruct shortsOnly.
  - unfold Gateway.searchVideosByKeyword. cbn [Gateway.perform Gateway.sent_of].
    destruct (server _ (Gateway.VideoSearch apiKey _)) as [ids|];
      [|constructor].
    cbv zeta. rewrite TaskFacts.perform_andThen, TaskFacts.perform_getVideoDetails.
    destruct (Js.nonempty (Js.join "," ids));
      cbn [Gateway.perform fst snd]; [apply Hshort | constructor].
Qed.

(** X20.  [getChannelVideos] issues three calls at most: the lookup of the
    content of the channel, the items of the first uploads playlist it
    names, the video lookup for the ids of these items joined by commas,
    in this order; with fewer than three calls its result is empty, and
    with three it is the records of the video lookup. *)
Theorem getChannelVideos_calls
        (server : Gateway.Server) (apiKey channelId : string) (maxResults : Z) :
  (snd (Gateway.perform server (Gateway.getChannelVideos apiKey channelId maxResults))
   = [Gateway.ChannelContentSent apiKey channelId] \/
   exists uploads,
     snd (Gateway.perform server (Gateway.getChannelVideos apiKey channelId maxResults))
     = [Gateway.ChannelContentSent apiKey channelId;
        Gateway.PlaylistItemsSent apiKey uploads maxResults] \/
     exists ids,
       server _ (Gateway.PlaylistItems apiKey uploads maxResults) = Some ids /\
       snd (Gateway.perform server
              (Gateway.getChannelVideos apiKey channelId maxResults))
       = [Gateway.ChannelContentSent apiKey channelId;
          Gateway.PlaylistItemsSent apiKey uploads maxResults;
          Gateway.CoreSent (VideosRequest apiKey (Js.join "," ids))] /\
       fst (Gateway.perform server
              (Gateway.getChannelVideos apiKey channelId maxResults))
       = match server _ (Gateway.Core (Videos apiKey (Js.join "," ids))) with
         | Some items => map YoutubeService.toVideo items
         | None => []
         end) /\
  ((List.length
      (snd (Gateway.perform server
              (Gateway.getChannelVideos apiKey channelId maxResults))) < 3)%nat ->
   fst (Gateway.perform server (Gateway.getChannelVideos apiKey channelId maxResults))
   = []).
Proof.
  unfold Gateway.getChannelVideos. cbn [Gateway.perform Gateway.sent_of].
  destruct (server _ (Gateway.ChannelContent apiKey channelId))
    as [[|uploads others]|]; cbn [Gateway.perform Gateway.sent_of fst snd];
    try (split; [now left | reflexivity]).
  destruct (server _ (Gateway.PlaylistItems apiKey uploads maxResults))
    as [ids|] eqn:E; cbn [Gateway.perform Gateway.sent_of fst snd].
  2:{ split; [right; exists uploads; now left | reflexivity]. }
  cbv zeta. rewrite TaskFacts.perform_getVideoDetails.
  destruct (Js.nonempty (Js.join "," ids)); cbn [fst snd].
  - split; [|cbn [List.length]; lia].
    right. exists uploads. right. exists ids. rewrite E. repeat split.
  - split; [right; exists uploads; now left | reflexivity].
Qed.
